(** * simulation-x: round scheduler, vote aggregator and voting client

    A shallow embedding of the coordination core of the show:
    - [src/src/Stage.jsx]: the stage-operator console (round state machine,
      controller guard, auto-run scheduler, vote aggregation, world update);
    - the audience client (the file that imports [push] and defines
      [sendVote]): the device-side vote gate.

    Modelling conventions.
    - The realtime store is a record of the four top-level paths
      [director], [session], [world] and [votes].  A record in the store has
      optional fields; a record all of whose fields are absent does not exist
      (the store keeps no empty nodes).  [set] replaces a record, [update]
      merges the given fields, [remove] deletes a subtree, [push] appends an
      entry under a store-generated key.
    - Every store write is also appended to a write log, so that the order
      of the writes of one handler can be stated.
    - JavaScript numbers are integers here ([Z]): timestamps in milliseconds,
      round ids, powers and scores.  Strings stay strings.
    - An [async] handler of the console is run atomically at the instant
      [now]: each [Date.now()] of one run reads that instant, and no other
      process interleaves between its awaits.
    - [sendVote] of the audience client is split at its [await push(...)]:
      the guards and the push run when the button is pressed, on the values
      of the render in which it was pressed; the bookkeeping that follows the
      [await] (cooldown stamp, used-round marker) runs when the push is
      acknowledged, at a later reading of [Date.now()].  Other events of the
      device (ticks, listeners, further presses) may come in between.
    - React state of a component ([session], [director], [now], ...) is the
      component's local view; it is a separate field of the process state and
      is refreshed by the listeners, not by the handlers themselves. *)

From Stdlib Require Import ZArith Lia String Ascii.
From stdpp Require Import base option list strings gmap.

Local Open Scope string_scope.
Local Open Scope Z_scope.

(** ** JavaScript helpers *)

(** [a === b] on strings. *)
Definition str_eq (a b : string) : bool := String.eqb a b.

(** [x === "lit"] where [x] may be [undefined]. *)
Definition is_str (x : option string) (lit : string) : bool :=
  match x with
  | Some s => str_eq s lit
  | None => false
  end.

(** [x || d] on a possibly absent number: [undefined] and [0] are falsy. *)
Definition num_or (x : option Z) (d : Z) : Z :=
  match x with
  | Some n => if n =? 0 then d else n
  | None => d
  end.

(** Truthiness of a possibly absent number. *)
Definition truthy_num (x : option Z) : bool :=
  match x with
  | Some n => negb (n =? 0)
  | None => false
  end.

(** [x === n] where [x] may be [undefined]. *)
Definition is_num (x : option Z) (n : Z) : bool :=
  match x with
  | Some m => m =? n
  | None => false
  end.

(** [x || d] on a possibly absent string: [undefined] and [""] are falsy. *)
Definition str_or (x : option string) (d : string) : string :=
  match x with
  | Some s => if str_eq s "" then d else s
  | None => d
  end.

(** [!!x] on a possibly absent boolean. *)
Definition truthy_bool (x : option bool) : bool :=
  match x with
  | Some b => b
  | None => false
  end.

(** [Math.ceil(ms / 1000)] for an integer [ms]. *)
Definition ceil_div_1000 (ms : Z) : Z := - ((- ms) / 1000).

(** ** Constants *)

Definition ACTIVE_SECONDS : Z := 20.
Definition LOCKED_SECONDS : Z := 6.
Definition WAIT_SECONDS : Z := 8.
Definition GLITCH_THRESHOLD : Z := 30.
Definition COOLDOWN_MS : Z := 2000.

(** ** Pure functions of Stage.jsx *)

(** [const clamp = (n, min, max) => Math.max(min, Math.min(max, n))] *)
Definition clamp (n min max : Z) : Z := Z.max min (Z.min max n).

Record Scores : Type := mkScores {
  stable : Z;
  glitch : Z;
  override : Z
}.

(** [Math.max(a, b, c)] *)
Definition max3 (a b c : Z) : Z := Z.max (Z.max a b) c.

Definition dominantFromScores (s : Scores) : string :=
  let max := max3 s.(stable) s.(glitch) s.(override) in
  if s.(glitch) =? max then "glitch"
  else if s.(override) =? max then "override"
  else "stable".

Definition calcDelta (s : Scores) : Z :=
  s.(stable) * 1 + s.(glitch) * -2 + s.(override) * -3.

(** ** Vote entries and the aggregation loop *)

(** An entry as the aggregator reads it back from the store: [type] and
    [power] may be missing or unexpected, since any client can write under
    [votes/]. *)
Record Vote : Type := mkVote {
  type : option string;
  power : option Z;
  kind : string;
  role : string;
  deviceId : string;
  ts : Z
}.

(** One iteration of [for (const k in data)]:
    [const type = data[k]?.type; const power = Number(data[k]?.power || 1);]
    followed by the three independent [if]s. *)
Definition tally_step (acc : Scores) (v : Vote) : Scores :=
  let type := v.(type) in
  let power := num_or v.(power) 1 in
  let stable := if is_str type "stable" then acc.(stable) + power else acc.(stable) in
  let glitch := if is_str type "glitch" then acc.(glitch) + power else acc.(glitch) in
  let override :=
    if is_str type "override" then acc.(override) + power else acc.(override) in
  mkScores stable glitch override.

(** The loop of the lock-timer handler (and, verbatim, of the live votes
    listener), started from [stable = 0, glitch = 0, override = 0]. *)
Definition tally (data : list Vote) : Scores :=
  fold_left tally_step data (mkScores 0 0 0).

Definition scores_total (s : Scores) : Z := s.(stable) + s.(glitch) + s.(override).

(** ** Records of the shared store *)

Module Director.
(** [director]: [{ mode, autoRun }]. *)
Record t : Type := mk {
  mode : option string;
  autoRun : option bool
}.

Definition absent : t := mk None None.

(** [snap.exists()] on the record. *)
Definition exists_ (d : t) : bool :=
  match d.(mode), d.(autoRun) with
  | None, None => false
  | _, _ => true
  end.

(** [update(ref(db, "director"), patch)]: the fields of [patch] that are
    present overwrite, the others are kept. *)
Definition merge (patch old : t) : t :=
  mk (match patch.(mode) with Some x => Some x | None => old.(mode) end)
     (match patch.(autoRun) with Some x => Some x | None => old.(autoRun) end).
End Director.

Module DirectorView.
(** The [director] React state of a component: both fields always set. *)
Record t : Type := mk {
  mode : string;
  autoRun : bool
}.

Definition initial : t := mk "normal" false.

(** The director listener:
    [if (d) setDirector({ mode: d.mode || "normal", autoRun: !!d.autoRun });
     else setDirector({ mode: "normal", autoRun: false });] *)
Definition of_store (d : Director.t) : t :=
  if Director.exists_ d
  then mk (str_or d.(Director.mode) "normal") (truthy_bool d.(Director.autoRun))
  else mk "normal" false.
End DirectorView.

Module Session.
(** [session]: the round state machine's record. *)
Record t : Type := mk {
  state : option string;
  roundId : option Z;
  endsAt : option Z;
  nextStartsAt : option Z;
  controllerId : option string;
  startedBy : option string;
  updatedAt : option Z
}.

Definition absent : t := mk None None None None None None None.

Definition exists_ (s : t) : bool :=
  match s with
  | mk None None None None None None None => false
  | _ => true
  end.

Definition or_else {A} (p o : option A) : option A :=
  match p with Some x => Some x | None => o end.

(** [update(ref(db, "session"), patch)]. *)
Definition merge (patch old : t) : t :=
  mk (or_else patch.(state) old.(state))
     (or_else patch.(roundId) old.(roundId))
     (or_else patch.(endsAt) old.(endsAt))
     (or_else patch.(nextStartsAt) old.(nextStartsAt))
     (or_else patch.(controllerId) old.(controllerId))
     (or_else patch.(startedBy) old.(startedBy))
     (or_else patch.(updatedAt) old.(updatedAt)).

(** The default of the session listeners of the stage console:
    [{ state: "waiting", roundId: 0, endsAt: 0, nextStartsAt: 0,
       controllerId: "" }]. *)
Definition initial : t :=
  mk (Some "waiting") (Some 0) (Some 0) (Some 0) (Some "") None None.

(** [snap.val() || default] *)
Definition of_store (s : t) : t := if exists_ s then s else initial.
End Session.

Module World.
(** [world]: stability, dominant outcome and the last round's figures. *)
Record t : Type := mk {
  stability : option Z;
  dominant : option string;
  updatedAt : option Z;
  roundId : option Z;
  lastDelta : option Z;
  lastScores : option Scores
}.

Definition absent : t := mk None None None None None None.
End World.

(** ** The store, its writes and the write log *)

Module Store.
Record t : Type := mk {
  director : Director.t;
  session : Session.t;
  world : World.t;
  (** [votes/{roundId}]: the entries of a round in the order they were
      pushed; a round without entries has no node. *)
  votes : gmap Z (list Vote)
}.

Definition empty : t := mk Director.absent Session.absent World.absent ∅.

(** [snap.val() || {}] of [votes/{r}], as the list of its entries. *)
Definition round_votes (db : t) (r : Z) : list Vote :=
  match db.(votes) !! r with
  | Some l => l
  | None => []
  end.
End Store.

Inductive Write : Type :=
| SetDirector (d : Director.t)
| UpdateDirector (patch : Director.t)
| SetSession (s : Session.t)
| UpdateSession (patch : Session.t)
| SetWorld (w : World.t)
| RemoveVotes (r : Z)
| RemoveAllVotes
| PushVote (r : Z) (v : Vote).

Definition apply_write (w : Write) (db : Store.t) : Store.t :=
  let d := db.(Store.director) in
  let s := db.(Store.session) in
  let wo := db.(Store.world) in
  let vs := db.(Store.votes) in
  match w with
  | SetDirector d' => Store.mk d' s wo vs
  | UpdateDirector p => Store.mk (Director.merge p d) s wo vs
  | SetSession s' => Store.mk d s' wo vs
  | UpdateSession p => Store.mk d (Session.merge p s) wo vs
  | SetWorld w' => Store.mk d s w' vs
  | RemoveVotes r => Store.mk d s wo (delete r vs)
  | RemoveAllVotes => Store.mk d s wo ∅
  | PushVote r v => Store.mk d s wo (<[r := (Store.round_votes db r ++ [v])%list]> vs)
  end.

Definition apply_writes (ws : list Write) (db : Store.t) : Store.t :=
  fold_left (fun acc w => apply_write w acc) ws db.

Definition is_session_write (w : Write) : bool :=
  match w with
  | SetSession _ | UpdateSession _ => true
  | _ => false
  end.

Definition is_world_write (w : Write) : bool :=
  match w with
  | SetWorld _ => true
  | _ => false
  end.

(** ** A process: local state, the shared store, the log of its writes *)

Record St (L : Type) : Type := mkSt {
  loc : L;
  db : Store.t;
  log : list Write
}.
Arguments mkSt {L}.
Arguments loc {L}.
Arguments db {L}.
Arguments log {L}.

(** Handlers are state transformers over [St L]. *)
Definition M (L A : Type) : Type := St L -> A * St L.

Definition ret {L A} (a : A) : M L A := fun s => (a, s).

Definition bind {L A B} (m : M L A) (k : A -> M L B) : M L B :=
  fun s => let (a, s') := m s in k a s'.

Declare Scope handler_scope.
Delimit Scope handler_scope with handler.
Notation "x <- m ;; k" := (bind m (fun x => k))
  (at level 100, m at next level, right associativity) : handler_scope.
Notation "m ;; k" := (bind m (fun _ => k))
  (at level 100, right associativity) : handler_scope.
Local Open Scope handler_scope.

(** [await get(ref(db, ...))]: read of the store. *)
Definition read {L A} (f : Store.t -> A) : M L A := fun s => (f s.(db), s).

(** A write to the store: applied and logged. *)
Definition write {L} (w : Write) : M L unit :=
  fun s => (tt, mkSt s.(loc) (apply_write w s.(db)) (s.(log) ++ [w])%list).

(** Read of the component's own state. *)
Definition local {L A} (f : L -> A) : M L A := fun s => (f s.(loc), s).

(** Update of the component's own state. *)
Definition modify {L} (f : L -> L) : M L unit :=
  fun s => (tt, mkSt (f s.(loc)) s.(db) s.(log)).

(** The state in which a handler leaves the process. *)
Definition exec {L A} (m : M L A) (s : St L) : St L := snd (m s).

(** The writes a handler issues when started in [s], in order. *)
Definition writes_of {L A} (m : M L A) (s : St L) : list Write :=
  skipn (length s.(log)) (exec m s).(log).

(** ** The stage-operator console (Stage.jsx) *)

Module Stage.

(** What a pending [setTimeout] will run.  The lock and unlock callbacks
    close over [nextRound]. *)
Inductive Callback : Type :=
| AutoStart
| Lock (nextRound : Z)
| Unlock (nextRound : Z).

Record Timer : Type := mkTimer {
  handle : nat;
  due : Z;
  callback : Callback
}.

(** [timersRef.current]: the handles the component still knows. *)
Record TimersRef : Type := mkRef {
  autoStart : option nat;
  lock : option nat;
  unlock : option nat
}.

Definition noTimers : TimersRef := mkRef None None None.

(** The component: its id, its React state and its timers.  [pending] is
    the browser's list of armed timers of this page. *)
Record t : Type := mk {
  stageId : string;
  session : Session.t;
  director : DirectorView.t;
  scores : Scores;
  total : Z;
  timersRef : TimersRef;
  pending : list Timer;
  nextHandle : nat
}.

(** State of a freshly mounted component; browser timer handles start at 1. *)
Definition mount (id : string) : t :=
  mk id Session.initial DirectorView.initial (mkScores 0 0 0) 0 noTimers [] 1%nat.

Definition with_timers (f : TimersRef -> TimersRef) (c : t) : t :=
  mk c.(stageId) c.(session) c.(director) c.(scores) c.(total)
     (f c.(timersRef)) c.(pending) c.(nextHandle).

(** [setTimeout(cb, delay)] at instant [now]; returns the handle. *)
Definition setTimeout (cb : Callback) (delay now : Z) : M t nat :=
  fun s =>
    let c := s.(loc) in
    let h := c.(nextHandle) in
    (h, mkSt (mk c.(stageId) c.(session) c.(director) c.(scores) c.(total)
                 c.(timersRef)
                 (c.(pending) ++ [mkTimer h (now + delay) cb])%list
                 (S h))
             s.(db) s.(log)).

(** [clearTimeout(h)] *)
Definition clearTimeout (h : nat) : M t unit :=
  modify (fun c =>
    mk c.(stageId) c.(session) c.(director) c.(scores) c.(total) c.(timersRef)
       (filter (fun tm => tm.(handle) ≠ h) c.(pending)) c.(nextHandle)).

(** [if (h) clearTimeout(h)] *)
Definition clear_if_set (h : option nat) : M t unit :=
  match h with
  | Some h => clearTimeout h
  | None => ret tt
  end.

Definition clearTimers : M t unit :=
  ref <- local timersRef ;;
  clear_if_set ref.(autoStart) ;;
  clear_if_set ref.(lock) ;;
  clear_if_set ref.(unlock) ;;
  modify (with_timers (fun _ => noTimers)).

(** [session.controllerId === stageId || !session.controllerId] *)
Definition iAmController (c : t) : bool :=
  is_str c.(session).(Session.controllerId) c.(stageId)
  || str_eq (str_or c.(session).(Session.controllerId) "") "".

(** *** Listeners *)

Definition on_session : M t unit :=
  s <- read Store.session ;;
  modify (fun c =>
    mk c.(stageId) (Session.of_store s) c.(director) c.(scores) c.(total)
       c.(timersRef) c.(pending) c.(nextHandle)).

Definition on_director : M t unit :=
  d <- read Store.director ;;
  modify (fun c =>
    mk c.(stageId) c.(session) (DirectorView.of_store d) c.(scores) c.(total)
       c.(timersRef) c.(pending) c.(nextHandle)).

Definition set_scores (sc : Scores) (tot : Z) (c : t) : t :=
  mk c.(stageId) c.(session) c.(director) sc tot
     c.(timersRef) c.(pending) c.(nextHandle).

(** The votes listener of the current round. *)
Definition on_votes : M t unit :=
  rid <- local (fun c => c.(session).(Session.roundId)) ;;
  if negb (truthy_num rid) then modify (set_scores (mkScores 0 0 0) 0)
  else
    data <- read (fun db => Store.round_votes db (num_or rid 0)) ;;
    let sc := tally data in
    modify (set_scores sc (scores_total sc)).

(** [if (!total) return "waiting"; return dominantFromScores(scores);] *)
Definition dominantLive (c : t) : string :=
  if c.(total) =? 0 then "waiting" else dominantFromScores c.(scores).

(** *** Controller claim (on mount) *)

Definition controllerClaim : M t unit :=
  current <- read (fun db => str_or db.(Store.session).(Session.controllerId) "") ;;
  id <- local stageId ;;
  if str_eq current "" then
    write (UpdateSession
             (Session.mk None None None None (Some id) None None))
  else ret tt.

(** *** Round logic *)

Definition ensureWorldInit (now : Z) : M t unit :=
  wSnap <- read (fun db => db.(Store.world).(World.stability)) ;;
  (match wSnap with
   | None =>
       write (SetWorld
                (World.mk (Some 70) (Some "stable") (Some now) (Some 0) None None))
   | Some _ => ret tt
   end) ;;
  dSnap <- read Store.director ;;
  if Director.exists_ dSnap then ret tt
  else write (SetDirector (Director.mk (Some "normal") (Some false))).

(** The callback armed by [startRound] for [ACTIVE_SECONDS * 1000]. *)
Definition lockHandler (nextRound now : Z) : M t unit :=
  data <- read (fun db => Store.round_votes db nextRound) ;;
  let sc := tally data in
  let dom := dominantFromScores sc in
  let delta := calcDelta sc in
  wNow <- read (fun db => db.(Store.world).(World.stability)) ;;
  let current := match wNow with Some v => v | None => 70 end in
  let nextStability := clamp (current + delta) 0 100 in
  write (SetWorld
           (World.mk (Some nextStability) (Some dom) (Some now)
                     (Some nextRound) (Some delta) (Some sc))) ;;
  id <- local stageId ;;
  let lockedEnds := now + LOCKED_SECONDS * 1000 in
  write (SetSession
           (Session.mk (Some "locked") (Some nextRound) (Some lockedEnds)
                       (Some 0) (Some id) None (Some now))) ;;
  h <- setTimeout (Unlock nextRound) (LOCKED_SECONDS * 1000) now ;;
  modify (with_timers (fun r => mkRef r.(autoStart) r.(lock) (Some h))).

(** The callback armed by the lock handler for [LOCKED_SECONDS * 1000]. *)
Definition unlockHandler (nextRound now : Z) : M t unit :=
  id <- local stageId ;;
  write (SetSession
           (Session.mk (Some "waiting") (Some nextRound) (Some 0) (Some 0)
                       (Some id) None (Some now))).

Definition startRound (reason : string) (now : Z) : M t unit :=
  ensureWorldInit now ;;
  mode <- read (fun db =>
            match db.(Store.director).(Director.mode) with
            | Some m => m
            | None => "normal"
            end) ;;
  if negb (str_eq mode "normal") then ret tt
  else
    ctrl <- read (fun db =>
              match db.(Store.session).(Session.controllerId) with
              | Some c => c
              | None => ""
              end) ;;
    id <- local stageId ;;
    if negb (str_eq ctrl "") && negb (str_eq ctrl id) then ret tt
    else
      currentRound <- local (fun c => num_or c.(session).(Session.roundId) 0) ;;
      let nextRound := currentRound + 1 in
      write (RemoveVotes nextRound) ;;
      let endsAt := now + ACTIVE_SECONDS * 1000 in
      write (SetSession
               (Session.mk (Some "active") (Some nextRound) (Some endsAt)
                           (Some 0) (Some id) (Some reason) (Some now))) ;;
      h <- setTimeout (Lock nextRound) (ACTIVE_SECONDS * 1000) now ;;
      modify (with_timers (fun r => mkRef r.(autoStart) (Some h) r.(unlock))).

Definition startRoundAuto (now : Z) : M t unit := startRound "auto" now.
Definition startRoundManual (now : Z) : M t unit := startRound "manual" now.

(** *** Auto-run scheduler (the effect on director/session changes) *)

Definition schedulerEffect (now : Z) : M t unit :=
  clearTimers ;;
  c <- local id ;;
  if negb c.(director).(DirectorView.autoRun) then ret tt
  else if negb (str_eq c.(director).(DirectorView.mode) "normal") then ret tt
  else if negb (iAmController c) then ret tt
  else if negb (is_str c.(session).(Session.state) "waiting") then ret tt
  else
    let stored := c.(session).(Session.nextStartsAt) in
    let needNew := negb (truthy_num stored) || (num_or stored 0 <=? now) in
    let nextStartsAt :=
      if needNew then now + WAIT_SECONDS * 1000 else num_or stored 0 in
    (if needNew then
       write (UpdateSession
                (Session.mk None None (Some 0) (Some nextStartsAt) None None None))
     else ret tt) ;;
    let delay := Z.max 0 (nextStartsAt - now) in
    h <- setTimeout AutoStart delay now ;;
    modify (with_timers (fun r => mkRef (Some h) r.(lock) r.(unlock))).

(** *** Director controls *)

Definition setAutoRun (value : bool) (now : Z) : M t unit :=
  ensureWorldInit now ;;
  write (UpdateDirector (Director.mk None (Some value))) ;;
  if value then
    write (UpdateSession
             (Session.mk (Some "waiting") None None None None None None))
  else ret tt.

(** The patch shared by [freeze], [blackout] and [resume]:
    [{ state, endsAt: 0, nextStartsAt: 0, controllerId: stageId, updatedAt }]. *)
Definition control_patch (state id : string) (now : Z) : Session.t :=
  Session.mk (Some state) None (Some 0) (Some 0) (Some id) None (Some now).

(** [{ ...director, mode }] *)
Definition with_mode (d : DirectorView.t) (mode : string) : Director.t :=
  Director.mk (Some mode) (Some d.(DirectorView.autoRun)).

Definition freeze (now : Z) : M t unit :=
  ensureWorldInit now ;;
  clearTimers ;;
  c <- local id ;;
  write (SetDirector (with_mode c.(director) "freeze")) ;;
  write (UpdateSession (control_patch "frozen" c.(stageId) now)).

Definition blackout (now : Z) : M t unit :=
  ensureWorldInit now ;;
  clearTimers ;;
  c <- local id ;;
  write (SetDirector (with_mode c.(director) "blackout")) ;;
  write (UpdateSession (control_patch "frozen" c.(stageId) now)).

Definition resume (now : Z) : M t unit :=
  ensureWorldInit now ;;
  c <- local id ;;
  write (SetDirector (with_mode c.(director) "normal")) ;;
  write (UpdateSession (control_patch "waiting" c.(stageId) now)).

Definition restart (now : Z) : M t unit :=
  clearTimers ;;
  c <- local id ;;
  write RemoveAllVotes ;;
  write (SetWorld
           (World.mk (Some 70) (Some "stable") (Some now) (Some 0) None None)) ;;
  write (SetDirector
           (Director.mk (Some "normal")
                        (Some (c.(director).(DirectorView.autoRun) || false)))) ;;
  write (SetSession
           (Session.mk (Some "waiting") (Some 0) (Some 0) (Some 0)
                       (Some c.(stageId)) None (Some now))).

Definition resetCurrentVotes : M t unit :=
  rid <- local (fun c => c.(session).(Session.roundId)) ;;
  if negb (truthy_num rid) then ret tt else write (RemoveVotes (num_or rid 0)).

(** *** The operator console and the timers *)

(** The buttons of the Controls card. *)
Inductive Operation : Type :=
| OpSetAutoRun (value : bool)
| OpStartRoundManual
| OpFreeze
| OpBlackout
| OpResume
| OpResetCurrentVotes
| OpRestart.

Definition perform (op : Operation) (now : Z) : M t unit :=
  match op with
  | OpSetAutoRun value => setAutoRun value now
  | OpStartRoundManual => startRoundManual now
  | OpFreeze => freeze now
  | OpBlackout => blackout now
  | OpResume => resume now
  | OpResetCurrentVotes => resetCurrentVotes
  | OpRestart => restart now
  end.

(** The button "Auto-run: Turn ON / Turn OFF":
    [onClick={() => setAutoRun(!director.autoRun)}]. *)
Definition toggleAutoRun (now : Z) : M t unit :=
  v <- local (fun c => negb c.(director).(DirectorView.autoRun)) ;;
  setAutoRun v now.

Definition run_callback (cb : Callback) (now : Z) : M t unit :=
  match cb with
  | AutoStart => startRoundAuto now
  | Lock nextRound => lockHandler nextRound now
  | Unlock nextRound => unlockHandler nextRound now
  end.

(** An armed timer whose time has come fires once: it leaves the browser's
    list and its callback runs. *)
Definition fire (h : nat) (now : Z) : M t unit :=
  tm <- local (fun c =>
          head (filter (fun tm => tm.(handle) = h) c.(pending))) ;;
  match tm with
  | Some tm =>
      if tm.(due) <=? now then
        clearTimeout h ;; run_callback tm.(callback) now
      else ret tt
  | None => ret tt
  end.
End Stage.

(** ** The audience client *)

Module Audience.

(** [h = (h * 31 + str.charCodeAt(i)) >>> 0] over the characters. *)
Definition hashToInt (str : string) : Z :=
  fold_left (fun h c => (h * 31 + Z.of_nat (nat_of_ascii c)) mod 2 ^ 32)
            (list_ascii_of_string str) 0.

Definition roleFromDeviceId (deviceId : string) : string :=
  let r := hashToInt deviceId mod 3 in
  if r =? 0 then "Observer"
  else if r =? 1 then "Glitch"
  else "Hacker".

(** The component's React state.  [now] is the 200 ms ticker's last
    reading; the three markers are mirrored in the device's local storage. *)
Record t : Type := mk {
  deviceId : string;
  session : Session.t;
  director : DirectorView.t;
  now : Z;
  last : string;
  lastActionTs : Z;
  normalUsedRound : Z;
  abilityUsedRound : Z
}.

Definition role (c : t) : string := roleFromDeviceId c.(deviceId).

Definition secondsLeft (c : t) : Z :=
  Z.max 0 (ceil_div_1000 (num_or c.(session).(Session.endsAt) 0 - c.(now))).

Definition cooldownLeft (c : t) : Z :=
  Z.max 0 (ceil_div_1000 (COOLDOWN_MS - (c.(now) - c.(lastActionTs)))).

Definition modeBlocksInput (c : t) : bool :=
  negb (str_eq c.(director).(DirectorView.mode) "normal")
  || is_str c.(session).(Session.state) "frozen".

(** [session?.roundId > 0] *)
Definition roundId_positive (c : t) : bool :=
  match c.(session).(Session.roundId) with
  | Some r => 0 <? r
  | None => false
  end.

Definition isActive (c : t) : bool :=
  negb (modeBlocksInput c)
  && is_str c.(session).(Session.state) "active"
  && roundId_positive c
  && (0 <? secondsLeft c).

Definition normalAvailable (c : t) : bool :=
  isActive c
  && negb (is_num c.(session).(Session.roundId) c.(normalUsedRound))
  && (cooldownLeft c =? 0).

Definition abilityAvailable (c : t) : bool :=
  isActive c
  && negb (is_num c.(session).(Session.roundId) c.(abilityUsedRound))
  && (cooldownLeft c =? 0).

(** The bookkeeping after the push: [setLastActionTs(ts)], the marker of
    the vote's kind, [setLast]. *)
Definition mark_voted (type kind : string) (rid ts : Z) (c : t) : t :=
  let lastLabel := type ++ " (" ++ kind ++ ")" in
  if str_eq kind "normal"
  then mk c.(deviceId) c.(session) c.(director) c.(now) lastLabel ts
          rid c.(abilityUsedRound)
  else mk c.(deviceId) c.(session) c.(director) c.(now) lastLabel ts
          c.(normalUsedRound) rid.

(** What a call of [sendVote] that is suspended at [await push(...)] holds
    on to: its arguments [type] and [kind] and the [session.roundId] of the
    render in which it was called. *)
Record Awaiting : Type := mkAwaiting {
  awaitingType : string;
  awaitingKind : string;
  awaitingRound : Z
}.

(** [sendVote({ type, power, kind })] up to its [await push(...)].  The four
    guards read the values of the render; [tnow] is the reading of
    [Date.now()] for the entry's [ts].  The component's state is not touched
    here.  The result is the suspended rest of the call when the push was
    issued, nothing when a guard returned. *)
Definition sendVote (type : string) (power : Z) (kind : string) (tnow : Z)
  : M t (option Awaiting) :=
  c <- local id ;;
  if negb (isActive c) then ret None
  else if negb (cooldownLeft c =? 0) then ret None
  else if str_eq kind "normal"
          && is_num c.(session).(Session.roundId) c.(normalUsedRound)
       then ret None
  else if str_eq kind "ability"
          && is_num c.(session).(Session.roundId) c.(abilityUsedRound)
       then ret None
  else
    let rid := num_or c.(session).(Session.roundId) 0 in
    write (PushVote rid
             (mkVote (Some type) (Some power) kind (role c) c.(deviceId) tnow)) ;;
    ret (Some (mkAwaiting type kind rid)).

(** The rest of [sendVote], from [const ts = Date.now()] on.  It runs when
    the push is acknowledged; [tack] is the reading of [Date.now()] then. *)
Definition acknowledged (a : option Awaiting) (tack : Z) : M t unit :=
  match a with
  | Some a =>
      modify (mark_voted a.(awaitingType) a.(awaitingKind) a.(awaitingRound) tack)
  | None => ret tt
  end.

Definition voteNormal (type : string) (tnow : Z) : M t (option Awaiting) :=
  sendVote type 1 "normal" tnow.

Definition useAbility (tnow : Z) : M t (option Awaiting) :=
  r <- local role ;;
  if str_eq r "Observer" then sendVote "stable" 3 "ability" tnow
  else if str_eq r "Glitch" then sendVote "glitch" 3 "ability" tnow
  else sendVote "override" 3 "ability" tnow.

(** The ticker: [setNow(Date.now())]. *)
Definition tick (tnow : Z) : M t unit :=
  modify (fun c =>
    mk c.(deviceId) c.(session) c.(director) tnow c.(last) c.(lastActionTs)
       c.(normalUsedRound) c.(abilityUsedRound)).

(** The session and director listeners. *)
Definition on_session : M t unit :=
  s <- read Store.session ;;
  let s' :=
    if Session.exists_ s then s
    else Session.mk (Some "waiting") (Some 0) (Some 0) (Some 0) None None None in
  modify (fun c =>
    mk c.(deviceId) s' c.(director) c.(now) c.(last) c.(lastActionTs)
       c.(normalUsedRound) c.(abilityUsedRound)).

Definition on_director : M t unit :=
  d <- read Store.director ;;
  modify (fun c =>
    mk c.(deviceId) c.(session) (DirectorView.of_store d) c.(now) c.(last)
       c.(lastActionTs) c.(normalUsedRound) c.(abilityUsedRound)).
End Audience.

(** ** Vocabulary of the specification *)

(** The entry's [power] field as stored (nothing when absent). *)
Definition entry_power (v : Vote) : Z :=
  match v.(power) with
  | Some p => p
  | None => 0
  end.

(** "Σ power where type = ty" over a round's entries. *)
Definition sum_power_where (ty : string) (data : list Vote) : Z :=
  fold_right (fun v acc => if is_str v.(type) ty then entry_power v + acc else acc)
             0 data.

(** "the sum of power over all ledger entries for that round". *)
Definition total_power (data : list Vote) : Z :=
  fold_right (fun v acc => entry_power v + acc) 0 data.

(** The effective power the loop adds for an outcome. *)
Definition counted (ty : string) (data : list Vote) : Z :=
  fold_right (fun v acc => (if is_str v.(type) ty then num_or v.(power) 1 else 0) + acc)
             0 data.

(** [type] is one of the three outcomes. *)
Definition known_type (v : Vote) : bool :=
  is_str v.(type) "stable" || is_str v.(type) "glitch" || is_str v.(type) "override".

(** An entry of the data model: a known [type] and a present, non-zero
    [power] (the clients write 1 or 3). *)
Definition well_formed (v : Vote) : bool :=
  known_type v && truthy_num v.(power).

(** The score that carries the given outcome's name. *)
Definition score_named (name : string) (s : Scores) : Z :=
  if str_eq name "glitch" then s.(glitch)
  else if str_eq name "override" then s.(override)
  else s.(stable).

(** The entry with its [power] replaced. *)
Definition with_power (p : Z) (v : Vote) : Vote :=
  mkVote v.(type) (Some p) v.(kind) v.(role) v.(deviceId) v.(ts).

(** [world/stability] as the lock handler reads it:
    [wNow.exists() ? wNow.val() : 70]. *)
Definition current_stability (db : Store.t) : Z :=
  match db.(Store.world).(World.stability) with
  | Some v => v
  | None => 70
  end.

(** ** What [ensureWorldInit] and the guards of [startRound] read *)

(** The writes of [ensureWorldInit] on a store. *)
Definition ensure_writes (now : Z) (db : Store.t) : list Write :=
  ((match db.(Store.world).(World.stability) with
    | None =>
        [SetWorld (World.mk (Some 70) (Some "stable") (Some now) (Some 0) None None)]
    | Some _ => []
    end)
   ++ (if Director.exists_ db.(Store.director) then []
       else [SetDirector (Director.mk (Some "normal") (Some false))]))%list.

(** [director/mode] as [startRound] reads it:
    [dModeSnap.exists() ? dModeSnap.val() : "normal"]. *)
Definition stored_mode (db : Store.t) : string :=
  match db.(Store.director).(Director.mode) with
  | Some m => m
  | None => "normal"
  end.

(** [session/controllerId] as [startRound] reads it:
    [controllerSnap.exists() ? controllerSnap.val() : ""]. *)
Definition stored_controller (db : Store.t) : string :=
  match db.(Store.session).(Session.controllerId) with
  | Some c => c
  | None => ""
  end.

(** The director mode is not [normal]. *)
Definition mode_blocks (db : Store.t) : bool :=
  negb (str_eq (stored_mode db) "normal").

(** The controller field is non-empty and names another stage. *)
Definition other_controller (id : string) (db : Store.t) : bool :=
  negb (str_eq (stored_controller db) "") && negb (str_eq (stored_controller db) id).

(** The round id [startRound] takes as current: [session.roundId || 0] of
    the component's session state. *)
Definition current_round (c : Stage.t) : Z :=
  num_or c.(Stage.session).(Session.roundId) 0.

(** The session record [startRound] writes. *)
Definition active_session (id reason : string) (nextRound now : Z) : Session.t :=
  Session.mk (Some "active") (Some nextRound) (Some (now + ACTIVE_SECONDS * 1000))
             (Some 0) (Some id) (Some reason) (Some now).

(** The component's state mirrors the store (the listeners have delivered
    the latest snapshot). *)
Definition in_sync (s : St Stage.t) : Prop :=
  s.(loc).(Stage.session) = Session.of_store s.(db).(Store.session) /\
  s.(loc).(Stage.director) = DirectorView.of_store s.(db).(Store.director).

(** ** What the auto-run scheduler reads *)

(** The four gates of the scheduler effect, on the component's state. *)
Definition scheduler_armed (c : Stage.t) : bool :=
  c.(Stage.director).(DirectorView.autoRun)
  && str_eq c.(Stage.director).(DirectorView.mode) "normal"
  && Stage.iAmController c
  && is_str c.(Stage.session).(Session.state) "waiting".

(** [!session.nextStartsAt || session.nextStartsAt <= Date.now()] *)
Definition need_new (c : Stage.t) (now : Z) : bool :=
  negb (truthy_num c.(Stage.session).(Session.nextStartsAt))
  || (num_or c.(Stage.session).(Session.nextStartsAt) 0 <=? now).

(** The one write of the scheduler: [{ nextStartsAt, endsAt: 0 }]. *)
Definition countdown_patch (now : Z) : Session.t :=
  Session.mk None None (Some 0) (Some (now + WAIT_SECONDS * 1000)) None None None.

(** Turning auto-run on, then the listeners deliver the new snapshot and
    the scheduler effect is re-evaluated at [now']. *)
Definition toggle_on_and_reschedule (now now' : Z) : M Stage.t unit :=
  (Stage.setAutoRun true now ;;
   Stage.on_director ;;
   Stage.on_session ;;
   Stage.schedulerEffect now')%handler.

(** ** The vote gate in the words of the specification *)

(** The device's "last round voted" marker for a kind of vote. *)
Definition used_round (c : Audience.t) (kind : string) : Z :=
  if str_eq kind "normal" then c.(Audience.normalUsedRound)
  else c.(Audience.abilityUsedRound).

(** Director mode normal, session active, round id positive, round not
    expired, no vote of this kind yet in this round, cooldown elapsed. *)
Definition vote_allowed (c : Audience.t) (kind : string) : Prop :=
  c.(Audience.director).(DirectorView.mode) = "normal" /\
  c.(Audience.session).(Session.state) = Some "active" /\
  (exists r, c.(Audience.session).(Session.roundId) = Some r /\ 0 < r
             /\ used_round c kind <> r) /\
  c.(Audience.now) < num_or c.(Audience.session).(Session.endsAt) 0 /\
  COOLDOWN_MS <= c.(Audience.now) - c.(Audience.lastActionTs).

(** The entry [sendVote] pushes. *)
Definition vote_entry (c : Audience.t) (type : string) (power : Z) (kind : string)
    (tnow : Z) : Vote :=
  mkVote (Some type) (Some power) kind (Audience.role c) c.(Audience.deviceId) tnow.

(** A press whose push is acknowledged at [tack] before any other event of
    the device. *)
Definition acknowledged_at (press : M Audience.t (option Audience.Awaiting))
    (tack : Z) : M Audience.t unit :=
  (a <- press ;; Audience.acknowledged a tack)%handler.

(** ** The freeze overlay *)

(** A frozen session goes with a director mode other than [normal]. *)
Definition frozen_under_overlay (d : Store.t) : Prop :=
  d.(Store.session).(Session.state) = Some "frozen" -> stored_mode d <> "normal".

(** ** Display values of the console *)

(** [Math.max(0, Math.ceil(((target || 0) - now) / 1000))]: the seconds
    shown by the countdowns of the console and of the audience client. *)
Definition countdown (target : option Z) (now : Z) : Z :=
  Z.max 0 (ceil_div_1000 (num_or target 0 - now)).

Module Console.

(** [secondsLeft] and [startsIn] of Stage.jsx, over the ticker's [now]. *)
Definition secondsLeft (c : Stage.t) (now : Z) : Z :=
  countdown c.(Stage.session).(Session.endsAt) now.

Definition startsIn (c : Stage.t) (now : Z) : Z :=
  countdown c.(Stage.session).(Session.nextStartsAt) now.

(** [disabled={!iAmController || director.mode !== "normal"}] of the button
    "Manual Start Round". *)
Definition manualStartDisabled (c : Stage.t) : bool :=
  negb (Stage.iAmController c)
  || negb (str_eq c.(Stage.director).(DirectorView.mode) "normal").

End Console.

(** ** The performer display *)

Module Performer.

(** The [world] React state: all three fields always set. *)
Record WorldView : Type := mkWorld {
  stability : Z;
  dominant : string;
  updatedAt : Z
}.

(** The component: the three mirrored records, the two animation counters
    and [lastUpdateRef.current]. *)
Record t : Type := mk {
  director : DirectorView.t;
  session : Session.t;
  world : WorldView;
  pulse : Z;
  reflash : Z;
  lastUpdateRef : Z
}.

Definition mount : t :=
  mk DirectorView.initial
     (Session.mk (Some "waiting") (Some 0) None None None None None)
     (mkWorld 70 "stable" 0) 0 0 0.

(** [snap.val()] of [world] is not [null]. *)
Definition world_exists (w : World.t) : bool :=
  match w with
  | World.mk None None None None None None => false
  | _ => true
  end.

Definition on_director : M t unit :=
  d <- read Store.director ;;
  modify (fun c =>
    mk (DirectorView.of_store d) c.(session) c.(world) c.(pulse) c.(reflash)
       c.(lastUpdateRef)).

Definition on_session : M t unit :=
  s <- read Store.session ;;
  let s' :=
    if Session.exists_ s then s
    else Session.mk (Some "waiting") (Some 0) None None None None None in
  modify (fun c =>
    mk c.(director) s' c.(world) c.(pulse) c.(reflash) c.(lastUpdateRef)).

(** [if (!w) return; setWorld({ stability: w.stability ?? 70,
    dominant: w.dominant || "stable", updatedAt: w.updatedAt || 0 })] *)
Definition on_world : M t unit :=
  w <- read Store.world ;;
  if negb (world_exists w) then ret tt
  else
    modify (fun c =>
      mk c.(director) c.(session)
         (mkWorld (match w.(World.stability) with Some v => v | None => 70 end)
                  (str_or w.(World.dominant) "stable")
                  (num_or w.(World.updatedAt) 0))
         c.(pulse) c.(reflash) c.(lastUpdateRef)).

Definition blackout (c : t) : bool := str_eq c.(director).(DirectorView.mode) "blackout".

Definition frozen (c : t) : bool :=
  str_eq c.(director).(DirectorView.mode) "freeze"
  || is_str c.(session).(Session.state) "frozen".

Definition active (c : t) : bool := is_str c.(session).(Session.state) "active".

Definition locked (c : t) : bool := is_str c.(session).(Session.state) "locked".

Definition glitchLow (c : t) : bool := c.(world).(stability) <? GLITCH_THRESHOLD.

(** [hint]: the line under the title. *)
Definition hint (c : t) : string :=
  if blackout c then ""
  else if frozen c then "SYSTEM PAUSED"
  else if active c then "AUDIENCE IS CHOOSING…"
  else if locked c then "WORLD UPDATED"
  else "WAITING FOR INPUT".

Section Builtins.

(** [String.prototype.toLowerCase] and [toUpperCase], left abstract. *)
Variables toLowerCase toUpperCase : string -> string.

(** [(world.dominant || "stable").toLowerCase()] *)
Definition dominantShown (c : t) : string :=
  toLowerCase (str_or (Some c.(world).(dominant)) "stable").

(** The effect on [world.updatedAt] and [dominant]: pulse once per applied
    result, and re-flash when the result is an override. *)
Definition pulseEffect : M t unit :=
  modify (fun c =>
    if c.(world).(updatedAt) =? 0 then c
    else if c.(world).(updatedAt) =? c.(lastUpdateRef) then c
    else
      mk c.(director) c.(session) c.(world) (c.(pulse) + 1)
         (if str_eq (dominantShown c) "override" then c.(reflash) + 1
          else c.(reflash))
         c.(world).(updatedAt)).

(** [labelText]: the title. *)
Definition labelText (c : t) : string :=
  if blackout c then "BLACKOUT"
  else if frozen c then "FROZEN"
  else toUpperCase (dominantShown c).

(** The key of [THEMES] the display picks. *)
Definition theme (c : t) : string :=
  if str_eq (dominantShown c) "glitch" then "glitch"
  else if str_eq (dominantShown c) "override" then "override"
  else "stable".

End Builtins.

End Performer.

(** ** Vocabulary of the further properties *)

(** Timer handles are positive and handed out in increasing order: the next
    handle is not 0 and every armed timer has a handle below it. *)
Definition fresh_handles (c : Stage.t) : Prop :=
  (0 < c.(Stage.nextHandle))%nat /\
  Forall (fun tm => (tm.(Stage.handle) < c.(Stage.nextHandle))%nat) c.(Stage.pending).

(** The handle is one of those [timersRef.current] holds. *)
Definition known_handle (r : Stage.TimersRef) (h : nat) : Prop :=
  r.(Stage.autoStart) = Some h \/ r.(Stage.lock) = Some h \/ r.(Stage.unlock) = Some h.

(** The stored stability, when there is one, is within [0, 100]. *)
Definition stability_in_range (d : Store.t) : Prop :=
  match d.(Store.world).(World.stability) with
  | Some v => 0 <= v <= 100
  | None => True
  end.

(** The audience's listeners deliver the current snapshot. *)
Definition audience_listen : M Audience.t unit :=
  (Audience.on_director ;; Audience.on_session)%handler.

(** The performer's listeners deliver the current snapshot. *)
Definition performer_listen : M Performer.t unit :=
  (Performer.on_director ;; Performer.on_session ;; Performer.on_world)%handler.

(** The type an ability vote carries for a role. *)
Definition ability_type (role : string) : string :=
  if str_eq role "Observer" then "stable"
  else if str_eq role "Glitch" then "glitch"
  else "override".

(** The component after [slot = setTimeout(cb, due - now)]: a new armed
    timer under the next handle, which [store_handle] records in
    [timersRef.current]. *)
Definition armed (cb : Stage.Callback) (due : Z)
    (store_handle : nat -> Stage.TimersRef -> Stage.TimersRef) (c : Stage.t) : Stage.t :=
  Stage.mk c.(Stage.stageId) c.(Stage.session) c.(Stage.director) c.(Stage.scores)
           c.(Stage.total) (store_handle c.(Stage.nextHandle) c.(Stage.timersRef))
           (c.(Stage.pending) ++ [Stage.mkTimer c.(Stage.nextHandle) due cb])%list
           (S c.(Stage.nextHandle)).

Definition store_lock (h : nat) (r : Stage.TimersRef) : Stage.TimersRef :=
  Stage.mkRef r.(Stage.autoStart) (Some h) r.(Stage.unlock).

Definition store_unlock (h : nat) (r : Stage.TimersRef) : Stage.TimersRef :=
  Stage.mkRef r.(Stage.autoStart) r.(Stage.lock) (Some h).

Definition store_autoStart (h : nat) (r : Stage.TimersRef) : Stage.TimersRef :=
  Stage.mkRef (Some h) r.(Stage.lock) r.(Stage.unlock).

(** The armed timers left by [if (h) clearTimeout(h)]. *)
Definition cancel (h : option nat) (l : list Stage.Timer) : list Stage.Timer :=
  match h with
  | Some h => filter (fun tm => tm.(Stage.handle) <> h) l
  | None => l
  end.

(** The component with its list of armed timers replaced. *)
Definition with_pending (l : list Stage.Timer) (c : Stage.t) : Stage.t :=
  Stage.mk c.(Stage.stageId) c.(Stage.session) c.(Stage.director) c.(Stage.scores)
           c.(Stage.total) c.(Stage.timersRef) l c.(Stage.nextHandle).

(** The component after [clearTimers()]. *)
Definition cleared (c : Stage.t) : Stage.t :=
  let r := c.(Stage.timersRef) in
  Stage.mk c.(Stage.stageId) c.(Stage.session) c.(Stage.director) c.(Stage.scores)
           c.(Stage.total) Stage.noTimers
           (cancel r.(Stage.unlock) (cancel r.(Stage.lock)
              (cancel r.(Stage.autoStart) c.(Stage.pending))))
           c.(Stage.nextHandle).

(** The controls of the console that run without any controller guard and
    write the console's own id into [session.controllerId]. *)
Definition takes_control (op : Stage.Operation) : bool :=
  match op with
  | Stage.OpFreeze | Stage.OpBlackout | Stage.OpResume | Stage.OpRestart => true
  | _ => false
  end.

(** The operations after which the stored session is not [active]. *)
Definition closes_round (op : Stage.Operation) : bool :=
  match op with
  | Stage.OpFreeze | Stage.OpBlackout | Stage.OpResume | Stage.OpRestart
  | Stage.OpSetAutoRun true => true
  | _ => false
  end.

(** The instant at which the scheduler effect, evaluated at [now], lets the
    next round start: a new one [WAIT_SECONDS] ahead, or the one the session
    already carries. *)
Definition start_due (c : Stage.t) (now : Z) : Z :=
  if need_new c now then now + WAIT_SECONDS * 1000
  else num_or c.(Stage.session).(Session.nextStartsAt) 0.

(** One delivery to the performer display: the listeners, then the effect
    on [world.updatedAt] and [dominant]. *)
Definition performer_update (toLowerCase : string -> string) : M Performer.t unit :=
  (performer_listen ;; Performer.pulseEffect toLowerCase)%handler.

(** The world view the performer's listener builds from a stored record. *)
Definition world_view (w : World.t) : Performer.WorldView :=
  Performer.mkWorld (match w.(World.stability) with Some v => v | None => 70 end)
                    (str_or w.(World.dominant) "stable")
                    (num_or w.(World.updatedAt) 0).

(** ** Persistent ids *)

(** [getOrCreateStageId] and [getOrCreateDeviceId] share their body; [key]
    is "sx_stage_id" or "sx_device_id", [ls] is the browser's [localStorage]
    and [fresh] the value of
    [crypto?.randomUUID?.() || `..._${Math.random()...}_${Date.now()}`],
    read only when no id is stored. *)
Definition getOrCreateId (key fresh : string) (ls : gmap string string)
  : string * gmap string string :=
  match ls !! key with
  | Some id => if str_eq id "" then (fresh, <[key := fresh]> ls) else (id, ls)
  | None => (fresh, <[key := fresh]> ls)
  end.

Definition getOrCreateStageId : string -> gmap string string -> string * gmap string string :=
  getOrCreateId "sx_stage_id".

Definition getOrCreateDeviceId : string -> gmap string string -> string * gmap string string :=
  getOrCreateId "sx_device_id".

(** ** Concrete scenarios *)

(** A round of four [stable] votes of power 1 and two [override] ability
    votes of power 3, on a world of stability 70. *)
Definition scenario_votes : list Vote :=
  let n := mkVote (Some "stable") (Some 1) "normal" "Observer" "dev" 0 in
  let a := mkVote (Some "override") (Some 3) "ability" "Hacker" "dev" 0 in
  [n; a; n; n; a; n].

Definition scenario_state : St Stage.t :=
  mkSt (Stage.mount "stage_a")
       (Store.mk (Director.mk (Some "normal") (Some false))
                 (Session.mk (Some "active") (Some 1) (Some 20000) (Some 0)
                             (Some "stage_a") (Some "manual") (Some 0))
                 (World.mk (Some 70) (Some "stable") (Some 0) (Some 0) None None)
                 {[ 1 := scenario_votes ]})
       [].

(** The round of [scenario_state] on a world of another stability and with
    another ledger. *)
Definition scenario_with (stability : Z) (votes : list Vote) : St Stage.t :=
  mkSt (Stage.mount "stage_a")
       (Store.mk scenario_state.(db).(Store.director)
                 scenario_state.(db).(Store.session)
                 (World.mk (Some stability) (Some "stable") (Some 0) (Some 0) None None)
                 {[ 1 := votes ]})
       [].

(** A world close to collapse: stability 10 before the votes of
    [scenario_votes], whose delta is -14. *)
Definition fragile_state : St Stage.t := scenario_with 10 scenario_votes.

(** A world close to the top: stability 98 before four [stable] votes. *)
Definition saturated_state : St Stage.t :=
  scenario_with 98 (replicate 4 (mkVote (Some "stable") (Some 1) "normal" "Observer"
                                        "dev" 0)).

Definition empty_round_state : St Stage.t :=
  mkSt (Stage.mount "stage_a")
       (Store.mk (Director.mk (Some "normal") (Some false))
                 (Session.mk (Some "active") (Some 1) (Some 20000) (Some 0)
                             (Some "stage_a") (Some "manual") (Some 0))
                 (World.mk (Some 70) (Some "stable") (Some 0) (Some 0) None None)
                 ∅)
       [].

(** A frozen show: the operator pressed Freeze during round 2. *)
Definition frozen_state : St Stage.t :=
  mkSt (Stage.mk "stage_a"
          (Session.mk (Some "frozen") (Some 2) (Some 0) (Some 0) (Some "stage_a")
                      None (Some 4000))
          (DirectorView.mk "freeze" false)
          (mkScores 0 0 0) 0 Stage.noTimers [] 1%nat)
       (Store.mk (Director.mk (Some "freeze") (Some false))
                 (Session.mk (Some "frozen") (Some 2) (Some 0) (Some 0)
                             (Some "stage_a") None (Some 4000))
                 (World.mk (Some 70) (Some "stable") (Some 0) (Some 0) None None)
                 ∅)
       [].

(** A controller waiting for an auto-started round due at 9000. *)
Definition waiting_state : St Stage.t :=
  let ses := Session.mk (Some "waiting") (Some 1) (Some 0) (Some 9000)
                        (Some "stage_a") None (Some 1000) in
  mkSt (Stage.mk "stage_a" ses (DirectorView.mk "normal" true)
                 (mkScores 0 0 0) 0 Stage.noTimers [] 1%nat)
       (Store.mk (Director.mk (Some "normal") (Some true)) ses
                 (World.mk (Some 70) (Some "stable") (Some 0) (Some 0) None None)
                 ∅)
       [].

(** A device in round 3, which ends at 20000; it has not voted yet. *)
Definition voter_state : St Audience.t :=
  let ses := Session.mk (Some "active") (Some 3) (Some 20000) (Some 0)
                        (Some "stage_a") (Some "manual") (Some 0) in
  mkSt (Audience.mk "sx_device" ses (DirectorView.mk "normal" false) 5000 "" 0 2 2)
       (Store.mk (Director.mk (Some "normal") (Some false)) ses
                 (World.mk (Some 70) (Some "stable") (Some 0) (Some 0) None None)
                 ∅)
       [].

(** The console right after an accepted manual start from [waiting_state]:
    the lock timer of round 2 is armed under handle 1. *)
Definition started_state : St Stage.t :=
  exec (Stage.startRoundManual 9000) waiting_state.

(** The session record with its [controllerId] replaced. *)
Definition with_controller (id : string) (x : Session.t) : Session.t :=
  Session.mk x.(Session.state) x.(Session.roundId) x.(Session.endsAt)
             x.(Session.nextStartsAt) (Some id) x.(Session.startedBy)
             x.(Session.updatedAt).

(** A second console, mounted on the store that [waiting_state] shows:
    "stage_a" is the controller there. *)
Definition second_console : St Stage.t :=
  mkSt (Stage.mount "stage_b") waiting_state.(db) [].

(** The store during round 2 of [started_state], once the votes of
    [scenario_votes] have arrived. *)
Definition voted_store : Store.t :=
  Store.mk started_state.(db).(Store.director) started_state.(db).(Store.session)
           started_state.(db).(Store.world) {[ 2 := scenario_votes ]}.

(** A device that last voted in round 1, long ago; its ticker reads 9500. *)
Definition idle_voter : Audience.t :=
  Audience.mk "sx_device" waiting_state.(db).(Store.session)
              (DirectorView.mk "normal" true) 9500 "" 2000 1 1.

(** Two entries a misbehaving client could leave in the ledger. *)
Definition no_power_vote : Vote :=
  mkVote (Some "glitch") None "normal" "Glitch" "dev" 0.

Definition odd_type_vote : Vote :=
  mkVote (Some "chaos") (Some 3) "ability" "Hacker" "dev" 0.

(** * Proofs *)

(** ** Strings and small arithmetic *)

Lemma str_eq_spec (a b : string) : reflect (a = b) (str_eq a b).
Proof. unfold str_eq. apply String.eqb_spec. Qed.

Lemma str_eq_refl (a : string) : str_eq a a = true.
Proof. unfold str_eq. apply String.eqb_refl. Qed.

Lemma str_eq_true (a b : string) : str_eq a b = true <-> a = b.
Proof. unfold str_eq. apply String.eqb_eq. Qed.

Lemma str_eq_false (a b : string) : str_eq a b = false <-> a <> b.
Proof. unfold str_eq. apply String.eqb_neq. Qed.

Lemma is_str_true (x : option string) (lit : string) :
  is_str x lit = true <-> x = Some lit.
Proof.
  destruct x as [s|]; simpl.
  - rewrite str_eq_true. split; congruence.
  - split; discriminate.
Qed.

Lemma ceil_div_1000_pos (ms : Z) : 0 < ceil_div_1000 ms <-> 0 < ms.
Proof.
  unfold ceil_div_1000. split; intros H.
  - destruct (Z_le_gt_dec ms 0) as [Hle|Hgt]; [|lia].
    assert (0 <= (- ms) / 1000) by (apply Z.div_pos; lia). lia.
  - assert ((- ms) / 1000 < 0) by (apply Z.div_lt_upper_bound; lia). lia.
Qed.

Lemma clamp_range (n lo hi : Z) : lo <= hi -> lo <= clamp n lo hi <= hi.
Proof. unfold clamp. lia. Qed.

Lemma clamp_id (n lo hi : Z) : lo <= n <= hi -> clamp n lo hi = n.
Proof. unfold clamp. lia. Qed.

(** ** The aggregation loop *)

Lemma tally_step_known (acc : Scores) (v : Vote) :
  tally_step acc v =
  mkScores
    (acc.(stable) + (if is_str v.(type) "stable" then num_or v.(power) 1 else 0))
    (acc.(glitch) + (if is_str v.(type) "glitch" then num_or v.(power) 1 else 0))
    (acc.(override) + (if is_str v.(type) "override" then num_or v.(power) 1 else 0)).
Proof.
  unfold tally_step.
  destruct (is_str (type v) "stable"), (is_str (type v) "glitch"),
    (is_str (type v) "override"); f_equal; lia.
Qed.

Lemma fold_tally_step (data : list Vote) (acc : Scores) :
  fold_left tally_step data acc =
  mkScores (acc.(stable) + counted "stable" data)
           (acc.(glitch) + counted "glitch" data)
           (acc.(override) + counted "override" data).
Proof.
  revert acc. induction data as [|v data IH]; intros acc; simpl.
  - destruct acc; simpl; f_equal; lia.
  - rewrite IH, tally_step_known. simpl. f_equal; lia.
Qed.

Lemma tally_counted (data : list Vote) :
  tally data =
  mkScores (counted "stable" data) (counted "glitch" data) (counted "override" data).
Proof. unfold tally. rewrite fold_tally_step. reflexivity. Qed.

Lemma tally_app (l1 l2 : list Vote) :
  tally (l1 ++ l2)%list =
  mkScores ((tally l1).(stable) + (tally l2).(stable))
           ((tally l1).(glitch) + (tally l2).(glitch))
           ((tally l1).(override) + (tally l2).(override)).
Proof.
  unfold tally at 1. rewrite fold_left_app. fold (tally l1).
  rewrite fold_tally_step, (tally_counted l2). reflexivity.
Qed.

Lemma num_or_truthy (x : option Z) (d : Z) :
  truthy_num x = true -> num_or x d = match x with Some p => p | None => 0 end.
Proof.
  destruct x as [p|]; simpl; [|discriminate].
  destruct (Z.eqb_spec p 0); simpl; [discriminate|reflexivity].
Qed.

Lemma counted_well_formed (ty : string) (data : list Vote) :
  forallb well_formed data = true -> counted ty data = sum_power_where ty data.
Proof.
  induction data as [|v data IH]; simpl; [reflexivity|].
  intros H. apply andb_prop in H as [Hv Hrest].
  rewrite (IH Hrest). unfold well_formed in Hv. apply andb_prop in Hv as [_ Hp].
  unfold entry_power. rewrite (num_or_truthy _ 1 Hp).
  destruct (is_str (type v) ty); lia.
Qed.

Lemma known_type_cases (v : Vote) :
  known_type v = true ->
  (if is_str v.(type) "stable" then 1 else 0)
  + (if is_str v.(type) "glitch" then 1 else 0)
  + (if is_str v.(type) "override" then 1 else 0) = 1.
Proof.
  unfold known_type. destruct (type v) as [s|]; simpl; [|discriminate].
  destruct (str_eq_spec s "stable") as [->|]; [reflexivity|].
  destruct (str_eq_spec s "glitch") as [->|]; [reflexivity|].
  destruct (str_eq_spec s "override") as [->|]; [reflexivity|discriminate].
Qed.

Lemma sums_cover_total (data : list Vote) :
  forallb well_formed data = true ->
  sum_power_where "stable" data + sum_power_where "glitch" data
  + sum_power_where "override" data = total_power data.
Proof.
  induction data as [|v data IH]; simpl; [reflexivity|].
  intros H. apply andb_prop in H as [Hv Hrest]. specialize (IH Hrest).
  unfold well_formed in Hv. apply andb_prop in Hv as [Hk _].
  pose proof (known_type_cases v Hk) as Hc.
  destruct (is_str (type v) "stable"), (is_str (type v) "glitch"),
    (is_str (type v) "override"); lia.
Qed.

(** ** Running handlers *)

Lemma drop_own_log (l ws : list Write) : skipn (length l) (l ++ ws)%list = ws.
Proof. apply drop_app_length. Qed.

Lemma drop_own_log_nil (l : list Write) : skipn (length l) l = [].
Proof. apply drop_all. Qed.

(** Unfolds the handler combinators in the goal. *)
Ltac unfold_handler :=
  unfold writes_of in *; unfold exec, bind, ret, read, write, local, modify in *.

(** Brings the log of a finished run into the shape [old ++ new]. *)
Ltac normalise_log :=
  repeat rewrite <- app_assoc; simpl app;
  rewrite ?drop_own_log, ?drop_own_log_nil.

Lemma lockHandler_run (r now : Z) (s : St Stage.t) :
  let sc := tally (Store.round_votes s.(db) r) in
  let delta := calcDelta sc in
  let w := World.mk (Some (clamp (current_stability s.(db) + delta) 0 100))
                    (Some (dominantFromScores sc)) (Some now) (Some r)
                    (Some delta) (Some sc) in
  let ses := Session.mk (Some "locked") (Some r) (Some (now + LOCKED_SECONDS * 1000))
                        (Some 0) (Some s.(loc).(Stage.stageId)) None (Some now) in
  (exec (Stage.lockHandler r now) s).(db)
    = Store.mk s.(db).(Store.director) ses w s.(db).(Store.votes)
  /\ writes_of (Stage.lockHandler r now) s = [SetWorld w; SetSession ses].
Proof.
  unfold Stage.lockHandler, Stage.setTimeout, current_stability.
  unfold_handler. simpl. normalise_log. split; reflexivity.
Qed.

(** ** Vote aggregation and the world update *)

(** C1. When the lock timer of round [r] fires, the world record it writes
    carries [lastScores] equal to the per-type sums of [power] over the
    round's entries, these three sum to the total power of the round,
    [lastDelta = stable*1 + glitch*(-2) + override*(-3)], and the new
    stability is [clamp(current + delta, 0, 100)]: it lies between 0 and 100,
    it is [current + delta] when that is within the range, 0 when that is
    below 0 and 100 when it is above 100.  The two statements about sums are
    for entries of the data model (known type, power present and non-zero);
    the delta and the clamp hold for any ledger. *)
Theorem lock_timer_aggregates_round (s : St Stage.t) (r now : Z) :
  let data := Store.round_votes s.(db) r in
  let cur := current_stability s.(db) in
  let w := (exec (Stage.lockHandler r now) s).(db).(Store.world) in
  In (SetWorld w) (writes_of (Stage.lockHandler r now) s) /\
  exists sc delta st,
    w.(World.lastScores) = Some sc /\
    w.(World.lastDelta) = Some delta /\
    delta = sc.(stable) * 1 + sc.(glitch) * (-2) + sc.(override) * (-3) /\
    w.(World.stability) = Some st /\
    st = clamp (cur + delta) 0 100 /\
    0 <= st <= 100 /\
    (cur + delta < 0 -> st = 0) /\
    (0 <= cur + delta <= 100 -> st = cur + delta) /\
    (100 < cur + delta -> st = 100) /\
    (forallb well_formed data = true ->
       sc.(stable) = sum_power_where "stable" data /\
       sc.(glitch) = sum_power_where "glitch" data /\
       sc.(override) = sum_power_where "override" data /\
       sc.(stable) + sc.(glitch) + sc.(override) = total_power data).
Proof.
  intros data cur w.
  destruct (lockHandler_run r now s) as [Hdb Hlog].
  subst w. rewrite Hdb, Hlog. cbn [Store.world]. split; [left; reflexivity|].
  exists (tally data), (calcDelta (tally data)),
    (clamp (cur + calcDelta (tally data)) 0 100).
  cbn [World.lastScores World.lastDelta World.stability].
  split; [reflexivity|]. split; [reflexivity|]. split; [reflexivity|].
  split; [reflexivity|]. split; [reflexivity|].
  split; [apply clamp_range; lia|].
  split; [unfold clamp; lia|]. split; [apply clamp_id|]. split; [unfold clamp; lia|].
  intros Hwf. rewrite tally_counted. cbn [stable glitch override].
  rewrite !counted_well_formed by assumption.
  split; [reflexivity|]. split; [reflexivity|]. split; [reflexivity|].
  now apply sums_cover_total.
Qed.

Lemma lock_timer_aggregates_round_witness :
  let data := Store.round_votes scenario_state.(db) 1 in
  let world_after (s : St Stage.t) :=
    (exec (Stage.lockHandler 1 20000) s).(db).(Store.world) in
  forallb well_formed data = true /\
  total_power data = 10 /\
  (world_after scenario_state).(World.lastScores) = Some (mkScores 4 0 6) /\
  (world_after scenario_state).(World.lastDelta) = Some (-14) /\
  (world_after scenario_state).(World.stability) = Some 56 /\
  (world_after fragile_state).(World.lastDelta) = Some (-14) /\
  (world_after fragile_state).(World.stability) = Some 0 /\
  (world_after saturated_state).(World.lastDelta) = Some 4 /\
  (world_after saturated_state).(World.stability) = Some 100.
Proof.
  intros data world_after.
  assert (Hwf : forallb well_formed data = true) by reflexivity.
  destruct (lock_timer_aggregates_round scenario_state 1 20000)
    as [_ (sc & delta & st & Hsc & Hd & Hdelta & Hst & _ & _ & _ & Hin & _ & Hsum)].
  destruct (Hsum Hwf) as (Hs & Hg & Ho & Htot).
  change (sum_power_where "stable" data) with 4 in Hs.
  change (sum_power_where "glitch" data) with 0 in Hg.
  change (sum_power_where "override" data) with 6 in Ho.
  assert (Esc : sc = mkScores 4 0 6).
  { clear - Hs Hg Ho. destruct sc as [a b c]. cbn [stable glitch override] in *.
    now subst. }
  assert (Edelta : delta = -14) by (rewrite Hdelta, Hs, Hg, Ho; reflexivity).
  assert (Est : st = 56).
  { rewrite Hin; rewrite Edelta; change (current_stability (db scenario_state)) with 70;
      [reflexivity | lia]. }
  destruct (lock_timer_aggregates_round fragile_state 1 20000)
    as [_ (sc1 & d1 & st1 & Hsc1 & Hd1 & Hdelta1 & Hst1 & _ & _ & Hlow & _ & _ & Hsum1)].
  destruct (Hsum1 eq_refl) as (Hs1 & Hg1 & Ho1 & _).
  assert (Ed1 : d1 = -14) by (rewrite Hdelta1, Hs1, Hg1, Ho1; reflexivity).
  assert (Est1 : st1 = 0).
  { apply Hlow. rewrite Ed1. change (current_stability (db fragile_state)) with 10. lia. }
  destruct (lock_timer_aggregates_round saturated_state 1 20000)
    as [_ (sc2 & d2 & st2 & Hsc2 & Hd2 & Hdelta2 & Hst2 & _ & _ & _ & _ & Hhigh & Hsum2)].
  destruct (Hsum2 eq_refl) as (Hs2 & Hg2 & Ho2 & _).
  assert (Ed2 : d2 = 4) by (rewrite Hdelta2, Hs2, Hg2, Ho2; reflexivity).
  assert (Est2 : st2 = 100).
  { apply Hhigh. rewrite Ed2. change (current_stability (db saturated_state)) with 98.
    lia. }
  split; [exact Hwf|]. split; [reflexivity|].
  rewrite Esc in Hsc. rewrite Edelta in Hd. rewrite Est in Hst.
  rewrite Ed1 in Hd1. rewrite Est1 in Hst1. rewrite Ed2 in Hd2. rewrite Est2 in Hst2.
  subst world_after. cbn beta.
  split; [exact Hsc|]. split; [exact Hd|]. split; [exact Hst|].
  split; [exact Hd1|]. split; [exact Hst1|]. split; [exact Hd2 | exact Hst2].
Defined.

(** C2. The dominant outcome is an argmax of the three scores; the ties go
    to [glitch] first, then to [override], and [stable] is returned only when
    it is strictly above both. *)
Theorem dominant_argmax_tiebreak (s : Scores) :
  let m := max3 s.(stable) s.(glitch) s.(override) in
  let d := dominantFromScores s in
  (s.(stable) <= m /\ s.(glitch) <= m /\ s.(override) <= m) /\
  score_named d s = m /\
  (d = "glitch" <-> s.(glitch) = m) /\
  (d = "override" <-> s.(glitch) <> m /\ s.(override) = m) /\
  (d = "stable" <-> s.(glitch) < s.(stable) /\ s.(override) < s.(stable)) /\
  dominantFromScores (mkScores 5 5 5) = "glitch" /\
  dominantFromScores (mkScores 5 0 5) = "override" /\
  dominantFromScores (mkScores 5 0 0) = "stable".
Proof.
  destruct s as [a b c]. unfold dominantFromScores, max3, score_named. simpl.
  split; [lia|].
  destruct (Z.eqb_spec b (Z.max (Z.max a b) c)) as [Hb|Hb].
  - simpl. repeat split; try reflexivity; try discriminate; try lia;
      intros; try tauto; try lia.
  - destruct (Z.eqb_spec c (Z.max (Z.max a b) c)) as [Hc|Hc]; simpl.
    + repeat split; try reflexivity; try discriminate; try lia;
        intros; try tauto; try lia.
    + repeat split; try reflexivity; try discriminate; try lia;
        intros; try tauto; try lia.
Qed.

(** C3 (behaviour of the code).  When the lock timer fires on a round
    without entries the aggregator still runs: the world record is written
    with scores 0/0/0, [lastDelta = 0] and the clamped current stability,
    and its [dominant] is "glitch": all three scores equal the maximum 0 and
    the tie goes to glitch. *)
Theorem lock_timer_empty_round (s : St Stage.t) (r now : Z) :
  Store.round_votes s.(db) r = [] ->
  let w := (exec (Stage.lockHandler r now) s).(db).(Store.world) in
  In (SetWorld w) (writes_of (Stage.lockHandler r now) s) /\
  w.(World.lastScores) = Some (mkScores 0 0 0) /\
  w.(World.lastDelta) = Some 0 /\
  w.(World.stability) = Some (clamp (current_stability s.(db)) 0 100) /\
  w.(World.dominant) = Some "glitch".
Proof.
  intros Hempty w.
  destruct (lockHandler_run r now s) as [Hdb Hlog].
  subst w. rewrite Hdb, Hlog, Hempty. simpl.
  rewrite Z.add_0_r. repeat split; try reflexivity. left; reflexivity.
Qed.

Lemma lock_timer_empty_round_witness :
  Store.round_votes empty_round_state.(db) 1 = [] /\
  let w := (exec (Stage.lockHandler 1 20000) empty_round_state).(db).(Store.world) in
  w.(World.stability) = Some 70 /\
  w.(World.lastDelta) = Some 0 /\
  w.(World.dominant) = Some "glitch" /\
  w.(World.dominant) <> Some "stable".
Proof.
  split; [reflexivity|].
  destruct (lock_timer_empty_round empty_round_state 1 20000 eq_refl)
    as (_ & _ & Hd & Hst & Hdom).
  repeat split; try assumption.
  rewrite Hdom. discriminate.
Defined.

Lemma tally_cons_middle (l1 l2 : list Vote) (v : Vote) :
  tally (l1 ++ v :: l2)%list =
  mkScores
    ((tally (l1 ++ l2)%list).(stable)
     + (if is_str v.(type) "stable" then num_or v.(power) 1 else 0))
    ((tally (l1 ++ l2)%list).(glitch)
     + (if is_str v.(type) "glitch" then num_or v.(power) 1 else 0))
    ((tally (l1 ++ l2)%list).(override)
     + (if is_str v.(type) "override" then num_or v.(power) 1 else 0)).
Proof.
  rewrite !tally_app. rewrite (tally_counted (v :: l2)), (tally_counted l2).
  simpl. f_equal; lia.
Qed.

Lemma unknown_type_matches_none (v : Vote) :
  known_type v = false ->
  is_str v.(type) "stable" = false /\ is_str v.(type) "glitch" = false
  /\ is_str v.(type) "override" = false.
Proof.
  unfold known_type. intros H.
  apply orb_false_elim in H as [H Ho]. apply orb_false_elim in H as [Hs Hg].
  auto.
Qed.

Lemma on_votes_run (s : St Stage.t) :
  truthy_num s.(loc).(Stage.session).(Session.roundId) = true ->
  let data := Store.round_votes s.(db) (current_round s.(loc)) in
  (exec Stage.on_votes s).(loc).(Stage.scores) = tally data /\
  (exec Stage.on_votes s).(loc).(Stage.total) = scores_total (tally data) /\
  writes_of Stage.on_votes s = [].
Proof.
  intros H. unfold Stage.on_votes, current_round. unfold_handler.
  simpl. rewrite H. simpl. normalise_log. repeat split; reflexivity.
Qed.

Lemma lockHandler_session (r now : Z) (s : St Stage.t) :
  (exec (Stage.lockHandler r now) s).(db).(Store.session)
  = Session.mk (Some "locked") (Some r) (Some (now + LOCKED_SECONDS * 1000))
               (Some 0) (Some s.(loc).(Stage.stageId)) None (Some now).
Proof. destruct (lockHandler_run r now s) as [Hdb _]. now rewrite Hdb. Qed.

(** C10. The aggregation loop starts from 0/0/0 and takes the entries one
    by one.  An entry whose [power] is absent or 0 adds exactly 1 to the
    score of its [type] and nothing to the other two; an entry with a power
    [p] other than 0 adds [p] there; an entry whose [type] is absent or none
    of "stable", "glitch", "override" adds to no score, hence not to the
    total.  The loop needs nothing else of an entry: whatever the ledger
    holds, the lock handler writes the world with this tally, its delta and
    a stability within 0..100 and moves the session to [locked], and the
    live listener stores the tally and its total. *)
Theorem aggregation_tolerates_malformed_entries :
  tally [] = mkScores 0 0 0 /\
  (forall (l1 l2 : list Vote) (v : Vote) (p : Z),
      (v.(power) = None \/ v.(power) = Some 0) /\ p = 1
      \/ v.(power) = Some p /\ p <> 0 ->
      let before := tally (l1 ++ l2)%list in
      let after := tally (l1 ++ v :: l2)%list in
      (v.(type) = Some "stable" ->
       after = mkScores (before.(stable) + p) before.(glitch) before.(override)) /\
      (v.(type) = Some "glitch" ->
       after = mkScores before.(stable) (before.(glitch) + p) before.(override)) /\
      (v.(type) = Some "override" ->
       after = mkScores before.(stable) before.(glitch) (before.(override) + p)) /\
      (known_type v = true -> scores_total after = scores_total before + p)) /\
  (forall (l1 l2 : list Vote) (v : Vote),
      known_type v = false ->
      tally (l1 ++ v :: l2)%list = tally (l1 ++ l2)%list /\
      scores_total (tally (l1 ++ v :: l2)%list) = scores_total (tally (l1 ++ l2)%list)) /\
  (forall (s : St Stage.t) (r now : Z),
      let sc := tally (Store.round_votes s.(db) r) in
      let s1 := exec (Stage.lockHandler r now) s in
      exists w ses st,
        writes_of (Stage.lockHandler r now) s = [SetWorld w; SetSession ses] /\
        w.(World.lastScores) = Some sc /\
        w.(World.lastDelta) = Some (sc.(stable) - 2 * sc.(glitch) - 3 * sc.(override)) /\
        w.(World.stability) = Some st /\ 0 <= st <= 100 /\
        s1.(db).(Store.world) = w /\
        s1.(db).(Store.session).(Session.state) = Some "locked" /\
        s1.(db).(Store.session).(Session.roundId) = Some r) /\
  (forall s : St Stage.t,
      truthy_num s.(loc).(Stage.session).(Session.roundId) = true ->
      let sc := tally (Store.round_votes s.(db) (current_round s.(loc))) in
      (exec Stage.on_votes s).(loc).(Stage.scores) = sc /\
      (exec Stage.on_votes s).(loc).(Stage.total)
      = sc.(stable) + sc.(glitch) + sc.(override)).
Proof.
  split; [reflexivity|]. split; [|split; [|split]].
  - intros l1 l2 v p Hp before after.
    assert (Hn : num_or v.(power) 1 = p).
    { destruct Hp as [[[Hp|Hp] ->] | [Hp Hne]]; rewrite Hp; simpl; try reflexivity.
      destruct (Z.eqb_spec p 0); [contradiction|reflexivity]. }
    assert (E : after = mkScores
                  (before.(stable) + (if is_str v.(type) "stable" then p else 0))
                  (before.(glitch) + (if is_str v.(type) "glitch" then p else 0))
                  (before.(override) + (if is_str v.(type) "override" then p else 0))).
    { subst after before. rewrite tally_cons_middle, Hn. reflexivity. }
    split; [|split; [|split]].
    + intros Ht. rewrite E, Ht. simpl. now rewrite !Z.add_0_r.
    + intros Ht. rewrite E, Ht. simpl. now rewrite !Z.add_0_r.
    + intros Ht. rewrite E, Ht. simpl. now rewrite !Z.add_0_r.
    + intros Hk. pose proof (known_type_cases v Hk) as Hc.
      rewrite E. unfold scores_total. cbn [stable glitch override].
      destruct (is_str (type v) "stable"), (is_str (type v) "glitch"),
        (is_str (type v) "override"); lia.
  - intros l1 l2 v H. rewrite tally_cons_middle.
    destruct (unknown_type_matches_none v H) as (-> & -> & ->).
    rewrite !Z.add_0_r. now destruct (tally (l1 ++ l2)).
  - intros s r now sc s1. destruct (lockHandler_run r now s) as [Hdb Hlog].
    rewrite Hlog. eexists _, _, _.
    split; [reflexivity|]. cbn [World.lastScores World.lastDelta World.stability].
    split; [reflexivity|].
    split; [unfold calcDelta; fold sc; f_equal; lia|].
    split; [reflexivity|]. split; [apply clamp_range; lia|].
    subst s1. rewrite Hdb. cbn [Store.world Store.session Session.state Session.roundId].
    split; [reflexivity|]. split; reflexivity.
  - intros s H sc. destruct (on_votes_run s H) as (Hs & Ht & _).
    split; [exact Hs | exact Ht].
Qed.

(** ** [ensureWorldInit] and [startRound] *)

Lemma ensureWorldInit_run (now : Z) (s : St Stage.t) :
  Stage.ensureWorldInit now s
  = (tt, mkSt s.(loc) (apply_writes (ensure_writes now s.(db)) s.(db))
              (s.(log) ++ ensure_writes now s.(db))%list).
Proof.
  unfold Stage.ensureWorldInit, ensure_writes. unfold_handler.
  destruct s as [c d l]. simpl.
  destruct (World.stability (Store.world d)); simpl;
    destruct (Director.exists_ (Store.director d)); simpl;
    rewrite <- ?app_assoc, ?app_nil_r; reflexivity.
Qed.

Lemma ensure_keeps_session (now : Z) (d : Store.t) :
  (apply_writes (ensure_writes now d) d).(Store.session) = d.(Store.session).
Proof.
  unfold ensure_writes.
  destruct (World.stability (Store.world d));
    destruct (Director.exists_ (Store.director d)); reflexivity.
Qed.

Lemma ensure_keeps_votes (now : Z) (d : Store.t) :
  (apply_writes (ensure_writes now d) d).(Store.votes) = d.(Store.votes).
Proof.
  unfold ensure_writes.
  destruct (World.stability (Store.world d));
    destruct (Director.exists_ (Store.director d)); reflexivity.
Qed.

Lemma ensure_keeps_mode (now : Z) (d : Store.t) :
  stored_mode (apply_writes (ensure_writes now d) d) = stored_mode d.
Proof.
  unfold ensure_writes, stored_mode.
  destruct d as [[[m|] [a|]] ses wo vs]; simpl;
    destruct (World.stability wo); reflexivity.
Qed.

Lemma ensure_keeps_director (now : Z) (d : Store.t) :
  Director.exists_ d.(Store.director) = true ->
  (apply_writes (ensure_writes now d) d).(Store.director) = d.(Store.director).
Proof.
  unfold ensure_writes. intros ->.
  destruct (World.stability (Store.world d)); reflexivity.
Qed.

Lemma ensure_keeps_controller (now : Z) (d : Store.t) :
  stored_controller (apply_writes (ensure_writes now d) d) = stored_controller d.
Proof. unfold stored_controller. now rewrite ensure_keeps_session. Qed.

Lemma ensure_writes_no_session (now : Z) (d : Store.t) :
  filter (fun w => is_session_write w = true) (ensure_writes now d) = [].
Proof.
  unfold ensure_writes.
  destruct (World.stability (Store.world d));
    destruct (Director.exists_ (Store.director d)); reflexivity.
Qed.

(** A rejected [startRound] stops after [ensureWorldInit]. *)
Lemma startRound_rejected_run (reason : string) (now : Z) (s : St Stage.t) :
  mode_blocks s.(db) || other_controller s.(loc).(Stage.stageId) s.(db) = true ->
  exec (Stage.startRound reason now) s
  = mkSt s.(loc) (apply_writes (ensure_writes now s.(db)) s.(db))
         (s.(log) ++ ensure_writes now s.(db))%list.
Proof.
  intros H. unfold exec, Stage.startRound, bind at 1.
  rewrite ensureWorldInit_run. unfold mode_blocks, other_controller in H.
  unfold_handler. cbn [db loc log].
  fold (stored_mode (apply_writes (ensure_writes now (db s)) (db s))).
  rewrite ensure_keeps_mode.
  destruct (negb (str_eq (stored_mode (db s)) "normal")); [reflexivity|].
  cbn beta. cbn [db loc log].
  fold (stored_controller (apply_writes (ensure_writes now (db s)) (db s))).
  rewrite ensure_keeps_controller.
  simpl in H. rewrite H. reflexivity.
Qed.

(** An accepted [startRound]: clear the next round's votes, write the
    session, arm the lock timer. *)
Lemma startRound_accepted_run (reason : string) (now : Z) (s : St Stage.t) :
  mode_blocks s.(db) || other_controller s.(loc).(Stage.stageId) s.(db) = false ->
  let id := s.(loc).(Stage.stageId) in
  let next := current_round s.(loc) + 1 in
  let ws := [RemoveVotes next; SetSession (active_session id reason next now)] in
  let db1 := apply_writes (ensure_writes now s.(db)) s.(db) in
  exists c',
    exec (Stage.startRound reason now) s
    = mkSt c' (apply_writes ws db1) (s.(log) ++ ensure_writes now s.(db) ++ ws)%list
    /\ c'.(Stage.stageId) = id
    /\ c'.(Stage.session) = s.(loc).(Stage.session)
    /\ c'.(Stage.director) = s.(loc).(Stage.director)
    /\ c'.(Stage.pending)
       = (s.(loc).(Stage.pending)
          ++ [Stage.mkTimer s.(loc).(Stage.nextHandle)
                            (now + ACTIVE_SECONDS * 1000) (Stage.Lock next)])%list.
Proof.
  intros H. unfold exec, Stage.startRound, bind at 1.
  rewrite ensureWorldInit_run. unfold mode_blocks, other_controller in H.
  apply orb_false_elim in H as [Hm Hc].
  unfold_handler. cbn [db loc log].
  fold (stored_mode (apply_writes (ensure_writes now (db s)) (db s))).
  rewrite ensure_keeps_mode, Hm.
  cbn beta. cbn [db loc log].
  fold (stored_controller (apply_writes (ensure_writes now (db s)) (db s))).
  rewrite ensure_keeps_controller, Hc.
  unfold Stage.setTimeout, current_round, active_session. simpl.
  rewrite <- ?app_assoc. eexists. split; [reflexivity|]. simpl. auto.
Qed.

Lemma guards_reject (id : string) (d : Store.t) :
  stored_mode d <> "normal"
  \/ (stored_controller d <> "" /\ stored_controller d <> id) ->
  mode_blocks d || other_controller id d = true.
Proof.
  unfold mode_blocks, other_controller. intros [H|[H1 H2]].
  - apply str_eq_false in H. now rewrite H.
  - apply str_eq_false in H1, H2. rewrite H1, H2. apply orb_true_r.
Qed.

Lemma guards_pass (id : string) (d : Store.t) :
  stored_mode d = "normal" ->
  stored_controller d = "" \/ stored_controller d = id ->
  mode_blocks d || other_controller id d = false.
Proof.
  unfold mode_blocks, other_controller. intros Hm Hc.
  rewrite Hm. simpl. destruct Hc as [-> | ->].
  - reflexivity.
  - rewrite (str_eq_refl id). simpl. apply andb_false_r.
Qed.

Lemma filter_session_app (l1 l2 : list Write) :
  filter (fun w => is_session_write w = true) (l1 ++ l2)%list
  = (filter (fun w => is_session_write w = true) l1
     ++ filter (fun w => is_session_write w = true) l2)%list.
Proof. apply filter_app. Qed.

Lemma startRound_rejected_writes (reason : string) (now : Z) (s : St Stage.t) :
  mode_blocks s.(db) || other_controller s.(loc).(Stage.stageId) s.(db) = true ->
  writes_of (Stage.startRound reason now) s = ensure_writes now s.(db).
Proof.
  intros H. unfold writes_of. rewrite (startRound_rejected_run _ _ _ H).
  simpl. apply drop_own_log.
Qed.

(** C5. A [startRound] issued while the director mode is not [normal], or
    while the session's controller field is non-empty and names another
    stage, writes nothing to the session record; a second such call right
    after it is rejected in the same way, and the session record is the one
    the first call found. *)
Theorem startRound_rejected_is_noop_on_session
    (s : St Stage.t) (reason reason' : string) (now now' : Z) :
  stored_mode s.(db) <> "normal"
  \/ (stored_controller s.(db) <> ""
      /\ stored_controller s.(db) <> s.(loc).(Stage.stageId)) ->
  let s1 := exec (Stage.startRound reason now) s in
  let s2 := exec (Stage.startRound reason' now') s1 in
  filter (fun w => is_session_write w = true)
         (writes_of (Stage.startRound reason now) s) = [] /\
  s1.(db).(Store.session) = s.(db).(Store.session) /\
  filter (fun w => is_session_write w = true)
         (writes_of (Stage.startRound reason' now') s1) = [] /\
  s2.(db).(Store.session) = s.(db).(Store.session) /\
  s2.(db).(Store.votes) = s.(db).(Store.votes) /\
  s2.(loc) = s.(loc).
Proof.
  intros Hg s1 s2.
  pose proof (guards_reject _ _ Hg) as H.
  pose proof (startRound_rejected_run reason now s H) as E1.
  assert (H' : mode_blocks s1.(db)
               || other_controller s1.(loc).(Stage.stageId) s1.(db) = true).
  { subst s1. rewrite E1. cbn [db loc].
    unfold mode_blocks, other_controller in *.
    now rewrite ensure_keeps_mode, ensure_keeps_controller. }
  pose proof (startRound_rejected_run reason' now' s1 H') as E2.
  rewrite (startRound_rejected_writes _ _ _ H).
  rewrite (startRound_rejected_writes _ _ _ H').
  rewrite !ensure_writes_no_session.
  subst s2. rewrite E2. cbn [db loc].
  rewrite !ensure_keeps_session, ensure_keeps_votes.
  subst s1. rewrite E1. cbn [db loc].
  rewrite ensure_keeps_session, ensure_keeps_votes. repeat split; reflexivity.
Qed.

Lemma num_or_of_store_round (x : Session.t) :
  num_or (Session.of_store x).(Session.roundId) 0 = num_or x.(Session.roundId) 0.
Proof.
  unfold Session.of_store. destruct (Session.exists_ x) eqn:E; [reflexivity|].
  destruct x as [[?|] [?|] [?|] [?|] [?|] [?|] [?|]]; try discriminate.
  reflexivity.
Qed.

(** C6. When the guards of [startRound] pass, its store writes after
    [ensureWorldInit] are, in this order, the removal of [votes/{next}] and
    the [set] of the session to state [active], round id [next], [endsAt =
    now + 20 s], [nextStartsAt = 0], [startedBy = reason] and [controllerId =
    stageId], where [next] is the component's current round id plus one (the
    stored round id plus one when the component mirrors the store).  The
    auto and manual entry points pass the reasons "auto" and "manual". *)
Theorem startRound_clears_then_writes_session
    (s : St Stage.t) (reason : string) (now : Z) :
  stored_mode s.(db) = "normal" ->
  stored_controller s.(db) = ""
  \/ stored_controller s.(db) = s.(loc).(Stage.stageId) ->
  let id := s.(loc).(Stage.stageId) in
  let next := current_round s.(loc) + 1 in
  let ses := Session.mk (Some "active") (Some next)
                        (Some (now + ACTIVE_SECONDS * 1000)) (Some 0) (Some id)
                        (Some reason) (Some now) in
  let s1 := exec (Stage.startRound reason now) s in
  writes_of (Stage.startRound reason now) s
    = (writes_of (Stage.ensureWorldInit now) s
       ++ [RemoveVotes next; SetSession ses])%list /\
  filter (fun w => is_session_write w = true)
         (writes_of (Stage.ensureWorldInit now) s) = [] /\
  s1.(db).(Store.session) = ses /\
  s1.(db).(Store.votes) = delete next s.(db).(Store.votes) /\
  Store.round_votes s1.(db) next = [] /\
  ACTIVE_SECONDS * 1000 = 20000 /\
  (in_sync s -> next = num_or s.(db).(Store.session).(Session.roundId) 0 + 1) /\
  Stage.startRoundAuto now = Stage.startRound "auto" now /\
  Stage.startRoundManual now = Stage.startRound "manual" now.
Proof.
  intros Hm Hc id next ses s1.
  pose proof (guards_pass _ _ Hm Hc) as H.
  destruct (startRound_accepted_run reason now s H) as (c' & E & _).
  assert (Hens : writes_of (Stage.ensureWorldInit now) s = ensure_writes now s.(db)).
  { unfold writes_of, exec. rewrite ensureWorldInit_run. simpl. apply drop_own_log. }
  rewrite Hens. unfold writes_of. subst s1. rewrite E. cbn [db loc log].
  rewrite drop_own_log, ensure_writes_no_session.
  unfold Store.round_votes. simpl.
  rewrite ensure_keeps_votes, lookup_delete_eq.
  repeat split; try reflexivity.
  intros [Hs _]. subst next. unfold current_round. rewrite Hs.
  now rewrite num_or_of_store_round.
Qed.

(** ** Timers *)

Lemma clearTimeout_run (h : nat) (s : St Stage.t) :
  exists c',
    Stage.clearTimeout h s = (tt, mkSt c' s.(db) s.(log))
    /\ c'.(Stage.stageId) = s.(loc).(Stage.stageId)
    /\ c'.(Stage.session) = s.(loc).(Stage.session)
    /\ c'.(Stage.director) = s.(loc).(Stage.director)
    /\ c'.(Stage.timersRef) = s.(loc).(Stage.timersRef).
Proof.
  unfold Stage.clearTimeout, modify. eexists. split; [reflexivity|].
  simpl. auto.
Qed.

Lemma clear_if_set_run (h : option nat) (s : St Stage.t) :
  exists c',
    Stage.clear_if_set h s = (tt, mkSt c' s.(db) s.(log))
    /\ c'.(Stage.stageId) = s.(loc).(Stage.stageId)
    /\ c'.(Stage.session) = s.(loc).(Stage.session)
    /\ c'.(Stage.director) = s.(loc).(Stage.director)
    /\ c'.(Stage.timersRef) = s.(loc).(Stage.timersRef).
Proof.
  destruct h as [h|]; simpl.
  - apply clearTimeout_run.
  - exists s.(loc). destruct s. unfold ret. simpl. auto.
Qed.

Lemma clearTimers_run (s : St Stage.t) :
  exists c',
    Stage.clearTimers s = (tt, mkSt c' s.(db) s.(log))
    /\ c'.(Stage.stageId) = s.(loc).(Stage.stageId)
    /\ c'.(Stage.session) = s.(loc).(Stage.session)
    /\ c'.(Stage.director) = s.(loc).(Stage.director)
    /\ c'.(Stage.timersRef) = Stage.noTimers.
Proof.
  unfold Stage.clearTimers. unfold bind at 1. unfold local at 1.
  unfold bind at 1.
  destruct (clear_if_set_run (Stage.autoStart (Stage.timersRef (loc s))) s)
    as (c1 & E1 & I1 & S1 & D1 & T1).
  rewrite E1. unfold bind at 1.
  destruct (clear_if_set_run (Stage.lock (Stage.timersRef (loc s))) (mkSt c1 (db s) (log s)))
    as (c2 & E2 & I2 & S2 & D2 & T2).
  rewrite E2. unfold bind at 1. cbn [db log loc] in *.
  destruct (clear_if_set_run (Stage.unlock (Stage.timersRef (loc s))) (mkSt c2 (db s) (log s)))
    as (c3 & E3 & I3 & S3 & D3 & T3).
  rewrite E3. cbn [db log loc] in *.
  unfold modify. eexists. split; [reflexivity|]. simpl.
  repeat split; congruence.
Qed.

(** ** Restart *)

Lemma restart_run (now : Z) (s : St Stage.t) :
  let id := s.(loc).(Stage.stageId) in
  let wo := World.mk (Some 70) (Some "stable") (Some now) (Some 0) None None in
  let d := Director.mk (Some "normal")
             (Some (s.(loc).(Stage.director).(DirectorView.autoRun) || false)) in
  let ses := Session.mk (Some "waiting") (Some 0) (Some 0) (Some 0) (Some id) None
                        (Some now) in
  exists c',
    exec (Stage.restart now) s
    = mkSt c' (Store.mk d ses wo ∅)
           (s.(log) ++ [RemoveAllVotes; SetWorld wo; SetDirector d; SetSession ses])%list
    /\ c'.(Stage.timersRef) = Stage.noTimers.
Proof.
  unfold exec, Stage.restart. unfold bind at 1.
  destruct (clearTimers_run s) as (c' & E & I & S & D & T).
  rewrite E. unfold_handler. simpl. rewrite I, D, <- ?app_assoc. simpl.
  exists c'. split; [reflexivity|assumption].
Qed.

Lemma of_store_autoRun (d : Director.t) :
  (DirectorView.of_store d).(DirectorView.autoRun) = truthy_bool d.(Director.autoRun).
Proof. destruct d as [[m|] [a|]]; reflexivity. Qed.

(** C7. Whatever the state before, [restart] leaves the store with
    session [{state: waiting, roundId: 0, endsAt: 0, nextStartsAt: 0,
    controllerId: stageId}], world [{stability: 70, dominant: stable,
    roundId: 0}], no vote at all, and director [{mode: normal, autoRun}]
    where [autoRun] is the component's current value, that is the stored one
    when the component mirrors the store. *)
Theorem restart_resets_show (s : St Stage.t) (now : Z) :
  let s1 := exec (Stage.restart now) s in
  s1.(db).(Store.session)
    = Session.mk (Some "waiting") (Some 0) (Some 0) (Some 0)
                 (Some s.(loc).(Stage.stageId)) None (Some now) /\
  s1.(db).(Store.world)
    = World.mk (Some 70) (Some "stable") (Some now) (Some 0) None None /\
  s1.(db).(Store.votes) = ∅ /\
  (forall r, Store.round_votes s1.(db) r = []) /\
  s1.(db).(Store.director).(Director.mode) = Some "normal" /\
  s1.(db).(Store.director).(Director.autoRun)
    = Some s.(loc).(Stage.director).(DirectorView.autoRun) /\
  (in_sync s ->
   s1.(db).(Store.director).(Director.autoRun)
     = Some (truthy_bool s.(db).(Store.director).(Director.autoRun))) /\
  s1.(loc).(Stage.timersRef) = Stage.noTimers.
Proof.
  intros s1. destruct (restart_run now s) as (c' & E & T).
  subst s1. rewrite E. cbn [db loc Store.session Store.world Store.votes
    Store.director Director.mode Director.autoRun].
  rewrite orb_false_r. repeat split; try reflexivity; try assumption.
  intros [_ Hd]. rewrite Hd, of_store_autoRun. reflexivity.
Qed.

(** ** Director controls *)

Lemma setAutoRun_run (value : bool) (now : Z) (s : St Stage.t) :
  let ws := (UpdateDirector (Director.mk None (Some value))
             :: (if value
                 then [UpdateSession
                         (Session.mk (Some "waiting") None None None None None None)]
                 else []))%list in
  exec (Stage.setAutoRun value now) s
  = mkSt s.(loc) (apply_writes ws (apply_writes (ensure_writes now s.(db)) s.(db)))
         (s.(log) ++ ensure_writes now s.(db) ++ ws)%list.
Proof.
  unfold exec, Stage.setAutoRun. unfold bind at 1.
  rewrite ensureWorldInit_run. unfold_handler.
  destruct value; simpl; rewrite <- ?app_assoc; reflexivity.
Qed.

(** [freeze] and [blackout]: director mode, then the frozen session patch. *)
Lemma freeze_like_run (mode : string) (h : Z -> M Stage.t unit) (now : Z)
    (s : St Stage.t) :
  (h = Stage.freeze /\ mode = "freeze") \/ (h = Stage.blackout /\ mode = "blackout") ->
  let ws := [SetDirector (Stage.with_mode s.(loc).(Stage.director) mode);
             UpdateSession (Stage.control_patch "frozen" s.(loc).(Stage.stageId) now)] in
  exists c',
    exec (h now) s
    = mkSt c' (apply_writes ws (apply_writes (ensure_writes now s.(db)) s.(db)))
           (s.(log) ++ ensure_writes now s.(db) ++ ws)%list
    /\ c'.(Stage.timersRef) = Stage.noTimers.
Proof.
  intros Hh.
  destruct (clearTimers_run
              (mkSt s.(loc) (apply_writes (ensure_writes now s.(db)) s.(db))
                    (s.(log) ++ ensure_writes now s.(db))%list))
    as (c' & E & I & S & D & T).
  exists c'. split; [|assumption].
  destruct Hh as [[-> ->]|[-> ->]].
  - unfold exec, Stage.freeze. unfold bind at 1. rewrite ensureWorldInit_run.
    unfold bind at 1. rewrite E. unfold_handler. cbn [db loc log] in *.
    unfold id. rewrite I, D, <- ?app_assoc. reflexivity.
  - unfold exec, Stage.blackout. unfold bind at 1. rewrite ensureWorldInit_run.
    unfold bind at 1. rewrite E. unfold_handler. cbn [db loc log] in *.
    unfold id. rewrite I, D, <- ?app_assoc. reflexivity.
Qed.

Lemma resume_run (now : Z) (s : St Stage.t) :
  let ws := [SetDirector (Stage.with_mode s.(loc).(Stage.director) "normal");
             UpdateSession (Stage.control_patch "waiting" s.(loc).(Stage.stageId) now)] in
  exec (Stage.resume now) s
  = mkSt s.(loc) (apply_writes ws (apply_writes (ensure_writes now s.(db)) s.(db)))
         (s.(log) ++ ensure_writes now s.(db) ++ ws)%list.
Proof.
  unfold exec, Stage.resume. unfold bind at 1. rewrite ensureWorldInit_run.
  unfold_handler. cbn [db loc log]. rewrite <- ?app_assoc. reflexivity.
Qed.

Lemma resetCurrentVotes_keeps_session (s : St Stage.t) :
  (exec Stage.resetCurrentVotes s).(db).(Store.session) = s.(db).(Store.session)
  /\ (exec Stage.resetCurrentVotes s).(db).(Store.director) = s.(db).(Store.director).
Proof.
  unfold Stage.resetCurrentVotes. unfold_handler. simpl.
  destruct (negb (truthy_num (Session.roundId (Stage.session (loc s)))));
    split; reflexivity.
Qed.

Lemma stored_mode_merge_autoRun (v : bool) (d : Store.t) :
  stored_mode (apply_write (UpdateDirector (Director.mk None (Some v))) d)
  = stored_mode d.
Proof. reflexivity. Qed.

(** C8 (amended).  While the stored session is [frozen] under a director
    mode other than [normal] (as freeze and blackout leave it), the operator
    operations split as follows: [resume] writes mode [normal] and state
    [waiting]; [restart] writes mode [normal] and state [waiting]; turning
    auto-run on writes state [waiting] and leaves the director mode as it
    is; every other operation (auto-run off, manual start, freeze, blackout,
    reset of the round's votes) leaves the state [frozen]. *)
Theorem frozen_left_by_resume_restart_or_autorun_on
    (s : St Stage.t) (op : Stage.Operation) (now : Z) :
  s.(db).(Store.session).(Session.state) = Some "frozen" ->
  stored_mode s.(db) <> "normal" ->
  let s1 := exec (Stage.perform op now) s in
  let state1 := s1.(db).(Store.session).(Session.state) in
  match op with
  | Stage.OpResume | Stage.OpRestart =>
      state1 = Some "waiting"
      /\ s1.(db).(Store.director).(Director.mode) = Some "normal"
  | Stage.OpSetAutoRun true =>
      state1 = Some "waiting" /\ stored_mode s1.(db) = stored_mode s.(db)
  | Stage.OpSetAutoRun false
  | Stage.OpStartRoundManual
  | Stage.OpFreeze
  | Stage.OpBlackout
  | Stage.OpResetCurrentVotes => state1 = Some "frozen"
  end.
Proof.
  intros Hf Hm s1 state1. subst state1 s1.
  destruct op as [[|]| | | | | |]; cbn [Stage.perform].
  - rewrite setAutoRun_run. cbn [db]. split; [reflexivity|].
    cbn [apply_writes fold_left]. unfold stored_mode at 1. simpl.
    fold (stored_mode (apply_writes (ensure_writes now (db s)) (db s))).
    apply ensure_keeps_mode.
  - rewrite setAutoRun_run. cbn [db apply_writes fold_left]. simpl.
    now rewrite ensure_keeps_session.
  - unfold Stage.startRoundManual.
    rewrite startRound_rejected_run by (apply guards_reject; now left).
    cbn [db]. now rewrite ensure_keeps_session.
  - destruct (freeze_like_run "freeze" Stage.freeze now s) as (c' & E & _);
      [now left|]. rewrite E. reflexivity.
  - destruct (freeze_like_run "blackout" Stage.blackout now s) as (c' & E & _);
      [now right|]. rewrite E. reflexivity.
  - rewrite resume_run. split; reflexivity.
  - now destruct (resetCurrentVotes_keeps_session s) as [-> _].
  - destruct (restart_run now s) as (c' & E & _). rewrite E. split; reflexivity.
Qed.

(** C8 as stated fails: on a frozen show, turning auto-run on (neither
    resume nor restart) writes the session state to [waiting] while the
    director mode stays [freeze]. *)
Lemma frozen_left_by_autorun_on_counterexample :
  let op := Stage.OpSetAutoRun true in
  let s1 := exec (Stage.perform op 5000) frozen_state in
  frozen_state.(db).(Store.session).(Session.state) = Some "frozen" /\
  frozen_state.(db).(Store.director).(Director.mode) = Some "freeze" /\
  op <> Stage.OpResume /\ op <> Stage.OpRestart /\
  s1.(db).(Store.session).(Session.state) = Some "waiting" /\
  s1.(db).(Store.session).(Session.state) <> Some "frozen" /\
  s1.(db).(Store.director).(Director.mode) = Some "freeze".
Proof.
  repeat split; try reflexivity; try discriminate.
Qed.

Lemma frozen_left_by_resume_restart_or_autorun_on_witness :
  (exec (Stage.perform Stage.OpStartRoundManual 5000) frozen_state)
    .(db).(Store.session).(Session.state) = Some "frozen" /\
  (exec (Stage.perform Stage.OpResume 5000) frozen_state)
    .(db).(Store.session).(Session.state) = Some "waiting".
Proof.
  split.
  - apply (frozen_left_by_resume_restart_or_autorun_on
             frozen_state Stage.OpStartRoundManual 5000);
      [reflexivity | discriminate].
  - apply (frozen_left_by_resume_restart_or_autorun_on
             frozen_state Stage.OpResume 5000);
      [reflexivity | discriminate].
Defined.

(** ** Auto-run scheduler *)

Lemma scheduler_armed_congr (c c' : Stage.t) :
  c'.(Stage.stageId) = c.(Stage.stageId) ->
  c'.(Stage.session) = c.(Stage.session) ->
  c'.(Stage.director) = c.(Stage.director) ->
  scheduler_armed c' = scheduler_armed c /\ forall now, need_new c' now = need_new c now.
Proof.
  intros I S D. unfold scheduler_armed, need_new, Stage.iAmController.
  rewrite I, S, D. split; reflexivity.
Qed.

(** The scheduler effect writes at most the countdown patch, and exactly
    when its gates are open and a new start time is needed. *)
Lemma schedulerEffect_run (now : Z) (s : St Stage.t) :
  let ws := if scheduler_armed s.(loc) && need_new s.(loc) now
            then [UpdateSession (countdown_patch now)] else [] in
  exists c',
    exec (Stage.schedulerEffect now) s
    = mkSt c' (apply_writes ws s.(db)) (s.(log) ++ ws)%list
    /\ c'.(Stage.session) = s.(loc).(Stage.session)
    /\ c'.(Stage.director) = s.(loc).(Stage.director)
    /\ c'.(Stage.stageId) = s.(loc).(Stage.stageId).
Proof.
  unfold exec, Stage.schedulerEffect. unfold bind at 1.
  destruct (clearTimers_run s) as (c' & E & I & S & D & T).
  rewrite E.
  destruct (scheduler_armed_congr s.(loc) c' I S D) as [Ha Hn].
  rewrite <- Ha, <- (Hn now). clear Ha Hn.
  unfold scheduler_armed, need_new. unfold_handler. unfold id.
  cbn [db loc log].
  destruct (DirectorView.autoRun (Stage.director c')); cbn [negb andb];
    [|eexists; rewrite app_nil_r; split; [reflexivity|auto]].
  destruct (str_eq (DirectorView.mode (Stage.director c')) "normal"); cbn [negb andb];
    [|eexists; rewrite app_nil_r; split; [reflexivity|auto]].
  destruct (Stage.iAmController c'); cbn [negb andb];
    [|eexists; rewrite app_nil_r; split; [reflexivity|auto]].
  destruct (is_str (Session.state (Stage.session c')) "waiting"); cbn [negb andb];
    [|eexists; rewrite app_nil_r; split; [reflexivity|auto]].
  destruct (negb (truthy_num (Session.nextStartsAt (Stage.session c')))
            || (num_or (Session.nextStartsAt (Stage.session c')) 0 <=? now));
    unfold Stage.setTimeout, countdown_patch; simpl;
    eexists; rewrite ?app_nil_r; (split; [reflexivity|auto]).
Qed.

Lemma future_start_needs_nothing (c : Stage.t) (now n : Z) :
  0 <= now -> c.(Stage.session).(Session.nextStartsAt) = Some n -> now < n ->
  need_new c now = false.
Proof.
  intros H0 Hn Hlt. unfold need_new. rewrite Hn. simpl.
  destruct (Z.eqb_spec n 0); [lia|]. simpl. apply Z.leb_gt. lia.
Qed.

Lemma setAutoRun_keeps_countdown (value : bool) (now : Z) (s : St Stage.t) :
  (exec (Stage.setAutoRun value now) s).(db).(Store.session).(Session.nextStartsAt)
  = s.(db).(Store.session).(Session.nextStartsAt).
Proof.
  rewrite setAutoRun_run. cbn [db].
  destruct value; cbn [apply_writes fold_left]; simpl;
    now rewrite ensure_keeps_session.
Qed.

Lemma on_listeners_run (s : St Stage.t) :
  exists c',
    exec (bind Stage.on_director (fun _ => Stage.on_session)) s
    = mkSt c' s.(db) s.(log)
    /\ c'.(Stage.session) = Session.of_store s.(db).(Store.session).
Proof.
  unfold Stage.on_director, Stage.on_session. unfold_handler. simpl.
  eexists. split; reflexivity.
Qed.

Lemma of_store_countdown (x : Session.t) (n : Z) :
  x.(Session.nextStartsAt) = Some n ->
  (Session.of_store x).(Session.nextStartsAt) = Some n.
Proof.
  intros H. unfold Session.of_store.
  destruct x as [[?|] [?|] [?|] [?|] [?|] [?|] [?|]]; simpl in *;
    try assumption; discriminate.
Qed.

Lemma exec_seq {L B} (m : M L unit) (k : M L B) (s : St L) :
  exec (bind m (fun _ => k)) s = exec k (exec m s).
Proof. unfold exec, bind. destruct (m s) as [[] s']. reflexivity. Qed.

Lemma scheduler_quiet_on_future_start (now n : Z) (s : St Stage.t) :
  0 <= now -> s.(loc).(Stage.session).(Session.nextStartsAt) = Some n -> now < n ->
  writes_of (Stage.schedulerEffect now) s = []
  /\ (exec (Stage.schedulerEffect now) s).(db) = s.(db).
Proof.
  intros H0 Hn Hlt.
  destruct (schedulerEffect_run now s) as (c' & E & _).
  rewrite (future_start_needs_nothing _ _ _ H0 Hn Hlt), andb_false_r in E.
  unfold writes_of. rewrite E. cbn [db log]. rewrite app_nil_r.
  split; [apply drop_own_log_nil | reflexivity].
Qed.

Lemma toggle_on_keeps_countdown (now now' n : Z) (s : St Stage.t) :
  0 <= now' -> now' < n ->
  s.(db).(Store.session).(Session.nextStartsAt) = Some n ->
  (exec (toggle_on_and_reschedule now now') s)
    .(db).(Store.session).(Session.nextStartsAt) = Some n.
Proof.
  intros H0 Hlt Hn. unfold toggle_on_and_reschedule.
  rewrite exec_seq.
  change (exec (bind Stage.on_director (fun _ => bind Stage.on_session
            (fun _ => Stage.schedulerEffect now'))) (exec (Stage.setAutoRun true now) s))
    with (exec (bind (bind Stage.on_director (fun _ => Stage.on_session))
                     (fun _ => Stage.schedulerEffect now'))
               (exec (Stage.setAutoRun true now) s)).
  rewrite exec_seq.
  pose proof (setAutoRun_keeps_countdown true now s) as Hk.
  destruct (on_listeners_run (exec (Stage.setAutoRun true now) s)) as (c' & E & S).
  rewrite E.
  assert (Hc : c'.(Stage.session).(Session.nextStartsAt) = Some n).
  { rewrite S. apply of_store_countdown. now rewrite Hk. }
  destruct (scheduler_quiet_on_future_start now' n
              (mkSt c' (db (exec (Stage.setAutoRun true now) s))
                    (log (exec (Stage.setAutoRun true now) s))) H0 Hc Hlt)
    as [_ Hdb].
  rewrite Hdb. cbn [db]. now rewrite Hk.
Qed.

Lemma need_new_cases (c : Stage.t) (now : Z) :
  need_new c now = true ->
  c.(Stage.session).(Session.nextStartsAt) = None
  \/ c.(Stage.session).(Session.nextStartsAt) = Some 0
  \/ exists n, c.(Stage.session).(Session.nextStartsAt) = Some n /\ n <= now.
Proof.
  unfold need_new. destruct (Session.nextStartsAt (Stage.session c)) as [n|];
    [|now left].
  simpl. destruct (Z.eqb_spec n 0) as [->|Hn]; simpl; [now (right; left)|].
  intros H. right; right. exists n. split; [reflexivity|]. now apply Z.leb_le.
Qed.

(** C9. Re-evaluating the scheduler effect never overwrites a start time
    that is strictly in the future: it then writes nothing at all.  Its only
    possible write is the patch [{nextStartsAt: now + 8 s, endsAt: 0}], and it
    is issued only when the gates are open and the start time the component
    sees is unset (absent or 0) or not after [now].  Turning auto-run on does
    not touch [nextStartsAt], so turning it on twice in a row, the scheduler
    being re-evaluated each time, leaves a future start time as it was. *)
Theorem scheduler_rearm_is_idempotent (s : St Stage.t) (now : Z) :
  (forall n,
      0 <= now ->
      s.(loc).(Stage.session).(Session.nextStartsAt) = Some n -> now < n ->
      writes_of (Stage.schedulerEffect now) s = []
      /\ (exec (Stage.schedulerEffect now) s).(db) = s.(db)) /\
  (writes_of (Stage.schedulerEffect now) s = []
   \/ (writes_of (Stage.schedulerEffect now) s
       = [UpdateSession
            (Session.mk None None (Some 0) (Some (now + WAIT_SECONDS * 1000))
                        None None None)]
       /\ scheduler_armed s.(loc) = true
       /\ (s.(loc).(Stage.session).(Session.nextStartsAt) = None
           \/ s.(loc).(Stage.session).(Session.nextStartsAt) = Some 0
           \/ exists n, s.(loc).(Stage.session).(Session.nextStartsAt) = Some n
                        /\ n <= now))) /\
  (forall n t1 t1' t2 t2',
      s.(db).(Store.session).(Session.nextStartsAt) = Some n ->
      0 <= t1' < n -> 0 <= t2' < n ->
      (exec (toggle_on_and_reschedule t2 t2') (exec (toggle_on_and_reschedule t1 t1') s))
        .(db).(Store.session).(Session.nextStartsAt) = Some n) /\
  WAIT_SECONDS * 1000 = 8000.
Proof.
  split; [|split; [|split; [|reflexivity]]].
  - intros n H0 Hn Hlt. now apply (scheduler_quiet_on_future_start now n).
  - destruct (schedulerEffect_run now s) as (c' & E & _).
    unfold writes_of. rewrite E. cbn [log].
    destruct (scheduler_armed (loc s)) eqn:Ha; cbn [andb].
    + destruct (need_new (loc s) now) eqn:Hn.
      * right. rewrite drop_own_log. split; [reflexivity|]. split; [reflexivity|].
        now apply need_new_cases.
      * left. rewrite app_nil_r. apply drop_own_log_nil.
    + left. rewrite app_nil_r. apply drop_own_log_nil.
  - intros n t1 t1' t2 t2' Hn [H1 H1'] [H2 H2'].
    apply toggle_on_keeps_countdown; [assumption..|].
    now apply toggle_on_keeps_countdown.
Qed.

Lemma scheduler_rearm_is_idempotent_witness :
  writes_of (Stage.schedulerEffect 3000) waiting_state = [] /\
  (exec (toggle_on_and_reschedule 4200 4200)
        (exec (toggle_on_and_reschedule 4000 4000) waiting_state))
    .(db).(Store.session).(Session.nextStartsAt) = Some 9000.
Proof.
  destruct (scheduler_rearm_is_idempotent waiting_state 3000) as (H1 & _ & H3 & _).
  split.
  - apply (H1 9000); [lia | reflexivity | lia].
  - apply (H3 9000 4000 4000 4200 4200); [reflexivity | lia | lia].
Defined.

(** ** The audience's vote gate *)

Lemma isActive_spec (c : Audience.t) :
  Audience.isActive c = true <->
  c.(Audience.director).(DirectorView.mode) = "normal" /\
  c.(Audience.session).(Session.state) = Some "active" /\
  (exists r, c.(Audience.session).(Session.roundId) = Some r /\ 0 < r) /\
  c.(Audience.now) < num_or c.(Audience.session).(Session.endsAt) 0.
Proof.
  unfold Audience.isActive, Audience.modeBlocksInput, Audience.roundId_positive,
    Audience.secondsLeft.
  rewrite !andb_true_iff, negb_true_iff, orb_false_iff, negb_false_iff.
  rewrite str_eq_true, is_str_true, Z.ltb_lt.
  split.
  - intros [[[[Hm _] Hs] Hr] Hl].
    split; [assumption|]. split; [assumption|]. split.
    + destruct (Session.roundId (Audience.session c)) as [r|]; [|discriminate].
      exists r. split; [reflexivity|]. now apply Z.ltb_lt.
    + assert (0 < ceil_div_1000
                    (num_or (Session.endsAt (Audience.session c)) 0 - Audience.now c))
        by lia.
      apply (proj1 (ceil_div_1000_pos _)) in H. lia.
  - intros (Hm & Hs & (r & Hr & Hpos) & Hl).
    split; [split; [split; [split; [assumption|]|]|]|].
    + rewrite Hs. reflexivity.
    + assumption.
    + rewrite Hr. now apply Z.ltb_lt.
    + assert (0 < ceil_div_1000
                    (num_or (Session.endsAt (Audience.session c)) 0 - Audience.now c))
        by (apply (proj2 (ceil_div_1000_pos _)); lia).
      lia.
Qed.

Lemma cooldown_spec (c : Audience.t) :
  (Audience.cooldownLeft c =? 0) = true <->
  COOLDOWN_MS <= c.(Audience.now) - c.(Audience.lastActionTs).
Proof.
  unfold Audience.cooldownLeft. rewrite Z.eqb_eq.
  pose proof (ceil_div_1000_pos
                (COOLDOWN_MS - (Audience.now c - Audience.lastActionTs c))) as H.
  split; intros; lia.
Qed.

(** The guard of [sendVote] as one boolean. *)
Lemma sendVote_run (type : string) (power : Z) (kind : string) (tnow : Z)
    (s : St Audience.t) :
  let c := s.(loc) in
  let rid := num_or c.(Audience.session).(Session.roundId) 0 in
  let pass :=
    Audience.isActive c && (Audience.cooldownLeft c =? 0)
    && negb (str_eq kind "normal"
             && is_num c.(Audience.session).(Session.roundId) c.(Audience.normalUsedRound))
    && negb (str_eq kind "ability"
             && is_num c.(Audience.session).(Session.roundId) c.(Audience.abilityUsedRound)) in
  Audience.sendVote type power kind tnow s
  = if pass
    then (Some (Audience.mkAwaiting type kind rid),
          mkSt c
               (apply_write (PushVote rid (vote_entry c type power kind tnow)) s.(db))
               (s.(log) ++ [PushVote rid (vote_entry c type power kind tnow)])%list)
    else (None, s).
Proof.
  unfold Audience.sendVote, vote_entry. unfold_handler. unfold id. simpl.
  destruct s as [c d l]. simpl.
  destruct (Audience.isActive c); simpl; [|reflexivity].
  destruct (Audience.cooldownLeft c =? 0); simpl; [|reflexivity].
  destruct (str_eq kind "normal"
            && is_num (Session.roundId (Audience.session c)) (Audience.normalUsedRound c));
    simpl; [reflexivity|].
  destruct (str_eq kind "ability"
            && is_num (Session.roundId (Audience.session c)) (Audience.abilityUsedRound c));
    simpl; reflexivity.
Qed.

Lemma is_num_true (x : option Z) (n : Z) : is_num x n = true <-> x = Some n.
Proof.
  destruct x as [m|]; simpl.
  - rewrite Z.eqb_eq. split; congruence.
  - split; discriminate.
Qed.

Lemma sendVote_pass_spec (c : Audience.t) (kind : string) :
  kind = "normal" \/ kind = "ability" ->
  Audience.isActive c && (Audience.cooldownLeft c =? 0)
  && negb (str_eq kind "normal"
           && is_num c.(Audience.session).(Session.roundId) c.(Audience.normalUsedRound))
  && negb (str_eq kind "ability"
           && is_num c.(Audience.session).(Session.roundId) c.(Audience.abilityUsedRound))
  = true
  <-> vote_allowed c kind.
Proof.
  intros Hk. unfold vote_allowed, used_round.
  rewrite !andb_true_iff, isActive_spec, cooldown_spec, !negb_true_iff.
  destruct Hk as [-> | ->]; simpl; split.
  - intros [[[(Hm & Hs & (r & Hr & Hpos) & He) Hc] Hn] _].
    split; [assumption|]. split; [assumption|]. split; [|split; assumption].
    exists r. split; [assumption|]. split; [assumption|].
    intros Heq. rewrite Heq, Hr in Hn. simpl in Hn. rewrite Z.eqb_refl in Hn.
    discriminate.
  - intros (Hm & Hs & (r & Hr & Hpos & Hu) & He & Hc).
    split; [split; [split|]|reflexivity]; try assumption.
    + split; [assumption|]. split; [assumption|]. split; [now exists r|assumption].
    + rewrite Hr. simpl. apply Z.eqb_neq. congruence.
  - intros [[[(Hm & Hs & (r & Hr & Hpos) & He) Hc] _] Hn].
    split; [assumption|]. split; [assumption|]. split; [|split; assumption].
    exists r. split; [assumption|]. split; [assumption|].
    intros Heq. rewrite Heq, Hr in Hn. simpl in Hn. rewrite Z.eqb_refl in Hn.
    discriminate.
  - intros (Hm & Hs & (r & Hr & Hpos & Hu) & He & Hc).
    split; [split; [split|reflexivity]|]; try assumption.
    + split; [assumption|]. split; [assumption|]. split; [now exists r|assumption].
    + rewrite Hr. simpl. apply Z.eqb_neq. congruence.
Qed.

(** An allowed press: the entry is pushed, the component is as before, and
    the rest of the call is suspended with the round of the render. *)
Lemma sendVote_suspends (type : string) (power : Z) (kind : string) (tnow : Z)
    (s : St Audience.t) (r : Z) :
  kind = "normal" \/ kind = "ability" ->
  vote_allowed s.(loc) kind ->
  s.(loc).(Audience.session).(Session.roundId) = Some r ->
  Audience.sendVote type power kind tnow s
  = (Some (Audience.mkAwaiting type kind r),
     mkSt s.(loc)
          (apply_write (PushVote r (vote_entry s.(loc) type power kind tnow)) s.(db))
          (s.(log) ++ [PushVote r (vote_entry s.(loc) type power kind tnow)])%list).
Proof.
  intros Hk Ha Hr. rewrite sendVote_run.
  rewrite (proj2 (sendVote_pass_spec _ _ Hk) Ha).
  assert (Hrid : num_or (Session.roundId (Audience.session (loc s))) 0 = r).
  { rewrite Hr. simpl. destruct Ha as (_ & _ & (r' & Hr' & Hpos & _) & _).
    assert (r' = r) by congruence. subst r'.
    destruct (Z.eqb_spec r 0); [lia|reflexivity]. }
  rewrite Hrid. reflexivity.
Qed.

Lemma sendVote_allowed (type : string) (power : Z) (kind : string) (tnow : Z)
    (s : St Audience.t) (r : Z) :
  kind = "normal" \/ kind = "ability" ->
  vote_allowed s.(loc) kind ->
  s.(loc).(Audience.session).(Session.roundId) = Some r ->
  exec (Audience.sendVote type power kind tnow) s
  = mkSt s.(loc)
         (apply_write (PushVote r (vote_entry s.(loc) type power kind tnow)) s.(db))
         (s.(log) ++ [PushVote r (vote_entry s.(loc) type power kind tnow)])%list.
Proof.
  intros Hk Ha Hr. unfold exec.
  now rewrite (sendVote_suspends _ _ _ _ _ r Hk Ha Hr).
Qed.

(** An allowed press whose push is acknowledged at [tack] before any other
    event: only now the cooldown stamp and the marker are set. *)
Lemma sendVote_acknowledged (type : string) (power : Z) (kind : string)
    (tnow tack : Z) (s : St Audience.t) (r : Z) :
  kind = "normal" \/ kind = "ability" ->
  vote_allowed s.(loc) kind ->
  s.(loc).(Audience.session).(Session.roundId) = Some r ->
  exec (acknowledged_at (Audience.sendVote type power kind tnow) tack) s
  = mkSt (Audience.mark_voted type kind r tack s.(loc))
         (apply_write (PushVote r (vote_entry s.(loc) type power kind tnow)) s.(db))
         (s.(log) ++ [PushVote r (vote_entry s.(loc) type power kind tnow)])%list.
Proof.
  intros Hk Ha Hr. unfold acknowledged_at. unfold exec, bind.
  rewrite (sendVote_suspends _ _ _ _ _ r Hk Ha Hr).
  reflexivity.
Qed.

Lemma sendVote_refused_run (type : string) (power : Z) (kind : string) (tnow : Z)
    (s : St Audience.t) :
  kind = "normal" \/ kind = "ability" ->
  ~ vote_allowed s.(loc) kind ->
  Audience.sendVote type power kind tnow s = (None, s).
Proof.
  intros Hk Hn. rewrite sendVote_run.
  match goal with |- (if ?b then _ else _) = _ => destruct b eqn:E end;
    [|reflexivity].
  exfalso. apply Hn. now apply (sendVote_pass_spec _ _ Hk).
Qed.

Lemma sendVote_refused (type : string) (power : Z) (kind : string) (tnow : Z)
    (s : St Audience.t) :
  kind = "normal" \/ kind = "ability" ->
  ~ vote_allowed s.(loc) kind ->
  exec (Audience.sendVote type power kind tnow) s = s.
Proof.
  intros Hk Hn. unfold exec. now rewrite (sendVote_refused_run _ _ _ _ _ Hk Hn).
Qed.

Lemma useAbility_is_sendVote (tnow : Z) (s : St Audience.t) :
  exists type,
    exec (Audience.useAbility tnow) s = exec (Audience.sendVote type 3 "ability" tnow) s.
Proof.
  unfold Audience.useAbility. unfold exec, bind, local.
  destruct (str_eq (Audience.role (loc s)) "Observer"); [now exists "stable"|].
  destruct (str_eq (Audience.role (loc s)) "Glitch");
    [now exists "glitch" | now exists "override"].
Qed.

Lemma tick_run (t2 : Z) (s : St Audience.t) :
  exec (Audience.tick t2) s
  = mkSt (Audience.mk s.(loc).(Audience.deviceId) s.(loc).(Audience.session)
            s.(loc).(Audience.director) t2 s.(loc).(Audience.last)
            s.(loc).(Audience.lastActionTs) s.(loc).(Audience.normalUsedRound)
            s.(loc).(Audience.abilityUsedRound))
         s.(db) s.(log).
Proof. reflexivity. Qed.

Lemma round_votes_push (d : Store.t) (r : Z) (v : Vote) :
  Store.round_votes (apply_write (PushVote r v) d) r
  = (Store.round_votes d r ++ [v])%list.
Proof.
  unfold Store.round_votes at 1. unfold apply_write. cbn [Store.votes].
  now rewrite lookup_insert_eq.
Qed.

(** C4 (behaviour of the code).  [sendVote] pushes an entry to the ledger
    exactly when, in the render in which it is called, the director mode is
    [normal], the session is [active] with a positive round id, the round has
    not expired ([endsAt > now]), the marker of this kind of vote is not this
    round, and the cooldown has elapsed; otherwise it changes nothing.  The
    push leaves the component as it is: the cooldown stamp and the marker are
    set when the push is acknowledged.  Once a normal vote of round [r] is
    acknowledged, a second normal vote in that round is refused at any later
    time, while the ability vote is still pushed (with power 3) if the round
    is running, the cooldown since the acknowledgement has elapsed and the
    ability was not used in [r].  Until the acknowledgement the gate does
    not know of the vote: a second press of a normal-vote button, at any tick
    before the round's end, pushes a second normal entry of the same device
    under the same round. *)
Theorem vote_gate_forgets_unacknowledged_vote
    (s : St Audience.t) (vtype : string) (vpower : Z) (vkind : string) (tnow : Z) :
  vkind = "normal" \/ vkind = "ability" ->
  (vote_allowed s.(loc) vkind ->
   exists r,
     s.(loc).(Audience.session).(Session.roundId) = Some r /\
     writes_of (Audience.sendVote vtype vpower vkind tnow) s
     = [PushVote r (vote_entry s.(loc) vtype vpower vkind tnow)] /\
     (exec (Audience.sendVote vtype vpower vkind tnow) s).(loc) = s.(loc)) /\
  (~ vote_allowed s.(loc) vkind ->
   writes_of (Audience.sendVote vtype vpower vkind tnow) s = [] /\
   exec (Audience.sendVote vtype vpower vkind tnow) s = s) /\
  (forall r ty ty2 t1 tack t2 tnow2,
      vote_allowed s.(loc) "normal" ->
      s.(loc).(Audience.session).(Session.roundId) = Some r ->
      let s1 := exec (Audience.tick t2)
                     (exec (acknowledged_at (Audience.voteNormal ty t1) tack) s) in
      writes_of (Audience.voteNormal ty2 tnow2) s1 = [] /\
      (s.(loc).(Audience.abilityUsedRound) <> r ->
       t2 < num_or s.(loc).(Audience.session).(Session.endsAt) 0 ->
       COOLDOWN_MS <= t2 - tack ->
       exists v,
         writes_of (Audience.useAbility tnow2) s1 = [PushVote r v] /\
         v.(power) = Some 3 /\ v.(kind) = "ability")) /\
  (forall r ty ty2 t1 t2 tnow2,
      vote_allowed s.(loc) "normal" ->
      s.(loc).(Audience.session).(Session.roundId) = Some r ->
      s.(loc).(Audience.now) <= t2 ->
      t2 < num_or s.(loc).(Audience.session).(Session.endsAt) 0 ->
      let s1 := exec (Audience.tick t2) (exec (Audience.voteNormal ty t1) s) in
      let v1 := vote_entry s.(loc) ty 1 "normal" t1 in
      let v2 := vote_entry s.(loc) ty2 1 "normal" tnow2 in
      writes_of (Audience.voteNormal ty2 tnow2) s1 = [PushVote r v2] /\
      Store.round_votes (exec (Audience.voteNormal ty2 tnow2) s1).(db) r
      = (Store.round_votes s.(db) r ++ [v1; v2])%list /\
      v1.(deviceId) = v2.(deviceId) /\ v1.(kind) = "normal" /\ v2.(kind) = "normal").
Proof.
  intros Hk. split; [|split; [|split]].
  - intros Ha. pose proof Ha as (_ & _ & (r & Hr & _) & _).
    exists r. split; [assumption|].
    unfold writes_of. rewrite (sendVote_allowed _ _ _ _ _ r Hk Ha Hr).
    split; [apply drop_own_log | reflexivity].
  - intros Hn. unfold writes_of. rewrite (sendVote_refused _ _ _ _ _ Hk Hn).
    split; [apply drop_own_log_nil | reflexivity].
  - intros r ty ty2 t1 tack t2 tnow2 Ha Hr s1.
    assert (E1 : s1 = mkSt
              (Audience.mk s.(loc).(Audience.deviceId) s.(loc).(Audience.session)
                 s.(loc).(Audience.director) t2 (ty ++ " (" ++ "normal" ++ ")")%string
                 tack r s.(loc).(Audience.abilityUsedRound))
              (apply_write (PushVote r (vote_entry s.(loc) ty 1 "normal" t1)) s.(db))
              (s.(log) ++ [PushVote r (vote_entry s.(loc) ty 1 "normal" t1)])%list).
    { subst s1. unfold Audience.voteNormal.
      rewrite (sendVote_acknowledged _ _ _ _ _ _ r (or_introl eq_refl) Ha Hr).
      reflexivity. }
    destruct Ha as (Hm & Hs & (r' & Hr' & Hpos & _) & _ & _).
    assert (r' = r) by congruence. subst r'.
    split.
    + unfold writes_of, Audience.voteNormal. rewrite sendVote_refused.
      * apply drop_own_log_nil.
      * now left.
      * rewrite E1. cbn [loc]. intros (_ & _ & (r' & Hr'' & _ & Hu) & _).
        cbn in Hr'', Hu. apply Hu. congruence.
    + intros Hab Hend Hcool.
      destruct (useAbility_is_sendVote tnow2 s1) as (aty & Eab).
      exists (vote_entry s1.(loc) aty 3 "ability" tnow2).
      split; [|split; reflexivity].
      unfold writes_of. rewrite Eab.
      rewrite (sendVote_allowed _ _ _ _ _ r (or_intror eq_refl)).
      * apply drop_own_log.
      * rewrite E1. unfold vote_allowed. cbn.
        split; [assumption|]. split; [assumption|].
        split; [exists r; auto|]. split; assumption.
      * rewrite E1. assumption.
  - intros r ty ty2 t1 t2 tnow2 Ha Hr Hnow Hend s1 v1 v2.
    assert (E1 : s1 = mkSt
              (Audience.mk s.(loc).(Audience.deviceId) s.(loc).(Audience.session)
                 s.(loc).(Audience.director) t2 s.(loc).(Audience.last)
                 s.(loc).(Audience.lastActionTs) s.(loc).(Audience.normalUsedRound)
                 s.(loc).(Audience.abilityUsedRound))
              (apply_write (PushVote r v1) s.(db))
              (s.(log) ++ [PushVote r v1])%list).
    { subst s1. unfold Audience.voteNormal.
      rewrite (sendVote_allowed _ _ _ _ _ r (or_introl eq_refl) Ha Hr).
      rewrite tick_run. reflexivity. }
    assert (Ha1 : vote_allowed s1.(loc) "normal").
    { destruct Ha as (Hm & Hs & Hround & _ & Hcool).
      rewrite E1. unfold vote_allowed, used_round in *. cbn in *.
      split; [assumption|]. split; [assumption|]. split; [assumption|].
      split; [assumption | lia]. }
    assert (Hr1 : s1.(loc).(Audience.session).(Session.roundId) = Some r)
      by (rewrite E1; assumption).
    assert (Hv2 : vote_entry s1.(loc) ty2 1 "normal" tnow2 = v2)
      by (rewrite E1; reflexivity).
    pose proof (sendVote_allowed ty2 1 "normal" tnow2 s1 r (or_introl eq_refl) Ha1 Hr1)
      as E2.
    rewrite Hv2 in E2. unfold Audience.voteNormal.
    split; [unfold writes_of; rewrite E2; apply drop_own_log|].
    split; [|split; [reflexivity | split; reflexivity]].
    rewrite E2. cbn [db]. rewrite round_votes_push.
    rewrite E1. cbn [db]. rewrite round_votes_push.
    now rewrite <- app_assoc.
Qed.

(** ** Instances *)

Lemma vote_gate_forgets_unacknowledged_vote_witness :
  let s := voter_state in
  let pressed := exec (Audience.voteNormal "glitch" 5001) s in
  let s1 := exec (Audience.tick 8000)
                 (exec (acknowledged_at (Audience.voteNormal "glitch" 5001) 5300) s) in
  vote_allowed s.(loc) "normal" /\
  writes_of (Audience.voteNormal "stable" 8001) s1 = [] /\
  (exists v,
      writes_of (Audience.useAbility 8001) s1 = [PushVote 3 v] /\
      v.(power) = Some 3 /\ v.(kind) = "ability") /\
  Store.round_votes
    (exec (Audience.voteNormal "glitch" 5002) (exec (Audience.tick 5200) pressed)).(db) 3
  = [mkVote (Some "glitch") (Some 1) "normal" "Observer" "sx_device" 5001;
     mkVote (Some "glitch") (Some 1) "normal" "Observer" "sx_device" 5002].
Proof.
  intros s pressed s1.
  assert (Ha : vote_allowed s.(loc) "normal").
  { unfold vote_allowed. simpl. unfold COOLDOWN_MS.
    split; [reflexivity|]. split; [reflexivity|].
    split; [exists 3; split; [reflexivity|]; split; [lia|discriminate]|].
    split; lia. }
  destruct (vote_gate_forgets_unacknowledged_vote s "glitch" 1 "normal" 5001
              (or_introl eq_refl)) as (_ & _ & H3 & H4).
  split; [exact Ha|].
  destruct (H3 3 "glitch" "stable" 5001 5300 8000 8001 Ha eq_refl) as [Hsecond Hability].
  split; [exact Hsecond|].
  split; [apply Hability; simpl; unfold COOLDOWN_MS; [discriminate | lia | lia]|].
  destruct (H4 3 "glitch" "glitch" 5001 5200 5002 Ha eq_refl
              ltac:(simpl; lia) ltac:(simpl; lia)) as (_ & Hledger & _).
  fold pressed in Hledger. rewrite Hledger. reflexivity.
Defined.

Lemma startRound_rejected_is_noop_on_session_witness :
  let s1 := exec (Stage.startRound "manual" 5000) frozen_state in
  let s2 := exec (Stage.startRound "manual" 5010) s1 in
  stored_mode frozen_state.(db) <> "normal" /\
  filter (fun w => is_session_write w = true)
         (writes_of (Stage.startRound "manual" 5000) frozen_state) = [] /\
  s2.(db).(Store.session) = frozen_state.(db).(Store.session).
Proof.
  intros s1 s2.
  assert (Hm : stored_mode frozen_state.(db) <> "normal") by discriminate.
  destruct (startRound_rejected_is_noop_on_session
              frozen_state "manual" "manual" 5000 5010 (or_introl Hm))
    as (H1 & _ & _ & H4 & _).
  split; [exact Hm|]. split; [exact H1 | exact H4].
Defined.

Lemma startRound_clears_then_writes_session_witness :
  let s1 := exec (Stage.startRound "auto" 9000) waiting_state in
  in_sync waiting_state /\
  s1.(db).(Store.session)
    = Session.mk (Some "active") (Some 2) (Some 29000) (Some 0) (Some "stage_a")
                 (Some "auto") (Some 9000) /\
  writes_of (Stage.startRound "auto" 9000) waiting_state
    = [RemoveVotes 2;
       SetSession (Session.mk (Some "active") (Some 2) (Some 29000) (Some 0)
                              (Some "stage_a") (Some "auto") (Some 9000))] /\
  2 = num_or waiting_state.(db).(Store.session).(Session.roundId) 0 + 1.
Proof.
  intros s1.
  assert (Hsync : in_sync waiting_state) by (split; reflexivity).
  destruct (startRound_clears_then_writes_session waiting_state "auto" 9000
              eq_refl (or_intror eq_refl))
    as (Hw & _ & Hs & _ & _ & _ & Hnext & _).
  split; [exact Hsync|]. split; [exact Hs|]. split; [exact Hw|].
  exact (Hnext Hsync).
Defined.

Lemma restart_resets_show_witness :
  let s1 := exec (Stage.restart 30000) waiting_state in
  in_sync waiting_state /\
  s1.(db).(Store.session).(Session.roundId) = Some 0 /\
  s1.(db).(Store.director)
    = Director.mk (Some "normal")
                  (Some (truthy_bool waiting_state.(db).(Store.director).(Director.autoRun))).
Proof.
  intros s1.
  assert (Hsync : in_sync waiting_state) by (split; reflexivity).
  destruct (restart_resets_show waiting_state 30000)
    as (Hs & _ & _ & _ & Hm & _ & Ha & _).
  split; [exact Hsync|]. split.
  - fold s1 in Hs. rewrite Hs. reflexivity.
  - specialize (Ha Hsync). fold s1 in Hm, Ha.
    destruct (Store.director (db s1)) as [m a]. simpl in *. congruence.
Defined.

Lemma aggregation_tolerates_malformed_entries_witness :
  tally (scenario_votes ++ scenario_votes)%list = mkScores 8 0 12 /\
  tally (scenario_votes ++ no_power_vote :: scenario_votes)%list = mkScores 8 1 12 /\
  tally (scenario_votes ++ with_power 0 no_power_vote :: scenario_votes)%list
    = mkScores 8 1 12 /\
  tally (scenario_votes ++ with_power 3 no_power_vote :: scenario_votes)%list
    = mkScores 8 3 12 /\
  tally (scenario_votes ++ odd_type_vote :: scenario_votes)%list = mkScores 8 0 12.
Proof.
  destruct aggregation_tolerates_malformed_entries as (_ & Hp & Ht & _).
  assert (Hbase : tally (scenario_votes ++ scenario_votes)%list = mkScores 8 0 12)
    by (vm_compute; reflexivity).
  pose proof (Hp scenario_votes scenario_votes no_power_vote 1
                (or_introl (conj (or_introl eq_refl) eq_refl))) as H1.
  pose proof (Hp scenario_votes scenario_votes (with_power 0 no_power_vote) 1
                (or_introl (conj (or_intror eq_refl) eq_refl))) as H0.
  assert (Hthree : 3 <> 0) by discriminate.
  pose proof (Hp scenario_votes scenario_votes (with_power 3 no_power_vote) 3
                (or_intror (conj eq_refl Hthree))) as H3.
  cbv zeta in H1, H0, H3.
  destruct H1 as (_ & H1 & _). specialize (H1 eq_refl). rewrite Hbase in H1.
  destruct H0 as (_ & H0 & _). specialize (H0 eq_refl). rewrite Hbase in H0.
  destruct H3 as (_ & H3 & _). specialize (H3 eq_refl). rewrite Hbase in H3.
  destruct (Ht scenario_votes scenario_votes odd_type_vote eq_refl) as [He _].
  rewrite Hbase in He.
  split; [exact Hbase|]. split; [exact H1|]. split; [exact H0|].
  split; [exact H3 | exact He].
Defined.

(** ** Supporting facts and the scenarios of the specification *)

(** X18. The operator console keeps a frozen session under a director mode
    other than [normal]: the situation in which the frozen state is analysed
    above is the one every operation re-establishes. *)
Lemma perform_keeps_overlay (s : St Stage.t) (op : Stage.Operation) (now : Z) :
  frozen_under_overlay s.(db) ->
  frozen_under_overlay (exec (Stage.perform op now) s).(db).
Proof.
  unfold frozen_under_overlay. intros Hinv.
  destruct op as [[|]| | | | | |]; cbn [Stage.perform].
  - rewrite setAutoRun_run. cbn [db apply_writes fold_left]. simpl. discriminate.
  - rewrite setAutoRun_run. cbn [db apply_writes fold_left].
    rewrite stored_mode_merge_autoRun, ensure_keeps_mode. simpl.
    now rewrite ensure_keeps_session.
  - unfold Stage.startRoundManual.
    destruct (mode_blocks (db s) || other_controller (Stage.stageId (loc s)) (db s))
      eqn:G.
    + rewrite (startRound_rejected_run _ _ _ G). cbn [db].
      now rewrite ensure_keeps_mode, ensure_keeps_session.
    + destruct (startRound_accepted_run "manual" now s G) as (c' & E & _).
      rewrite E. simpl. discriminate.
  - destruct (freeze_like_run "freeze" Stage.freeze now s) as (c' & E & _);
      [now left|]. rewrite E. intros _. discriminate.
  - destruct (freeze_like_run "blackout" Stage.blackout now s) as (c' & E & _);
      [now right|]. rewrite E. intros _. discriminate.
  - rewrite resume_run. simpl. discriminate.
  - destruct (resetCurrentVotes_keeps_session s) as [Hs Hd].
    rewrite Hs. unfold stored_mode. now rewrite Hd.
  - destruct (restart_run now s) as (c' & E & _). rewrite E. simpl. discriminate.
Qed.

(** The stability the lock handler writes is within [0, 100]. *)
Lemma lock_timer_keeps_stability_in_range (s : St Stage.t) (r now : Z) :
  exists v,
    (exec (Stage.lockHandler r now) s).(db).(Store.world).(World.stability) = Some v
    /\ 0 <= v <= 100.
Proof.
  destruct (lockHandler_run r now s) as [Hdb _]. rewrite Hdb. simpl.
  eexists. split; [reflexivity|]. apply clamp_range. lia.
Qed.

(** After the lock timer the round is [locked] for 6 s under the same round
    id, and the unlock timer returns it to [waiting], round id kept. *)
Lemma lock_then_unlock (s : St Stage.t) (r now now' : Z) :
  let s1 := exec (Stage.lockHandler r now) s in
  let s2 := exec (Stage.unlockHandler r now') s1 in
  s1.(db).(Store.session)
    = Session.mk (Some "locked") (Some r) (Some (now + 6000)) (Some 0)
                 (Some s.(loc).(Stage.stageId)) None (Some now) /\
  s2.(db).(Store.session).(Session.state) = Some "waiting" /\
  s2.(db).(Store.session).(Session.roundId) = Some r /\
  s2.(db).(Store.session).(Session.endsAt) = Some 0 /\
  s2.(db).(Store.world) = s1.(db).(Store.world).
Proof.
  intros s1 s2. subst s2 s1.
  unfold Stage.unlockHandler, Stage.lockHandler, Stage.setTimeout.
  unfold_handler. simpl. repeat split; reflexivity.
Qed.

(** End-to-end scenario: stability 70, four stable votes of power 1 and two
    override votes of power 3 give scores 4/0/6, delta -14, stability 56 and
    dominant override. *)
Example end_to_end_round :
  (exec (Stage.lockHandler 1 20000) scenario_state).(db).(Store.world)
  = World.mk (Some 56) (Some "override") (Some 20000) (Some 1) (Some (-14))
             (Some (mkScores 4 0 6)).
Proof. vm_compute. reflexivity. Qed.

(** Freeze scenario: a freeze during the active round cancels the pending
    lock timer, so that its due time passes without a world write, and the
    session is frozen at once. *)
Example freeze_cancels_lock_timer :
  let s1 := exec (Stage.startRoundManual 9000) waiting_state in
  let s2 := exec (Stage.freeze 12000) s1 in
  let s3 := exec (Stage.fire 1 29000) s2 in
  s1.(loc).(Stage.pending) = [Stage.mkTimer 1 29000 (Stage.Lock 2)] /\
  s2.(loc).(Stage.pending) = [] /\
  s2.(db).(Store.session).(Session.state) = Some "frozen" /\
  writes_of (Stage.fire 1 29000) s2 = [] /\
  s3.(db).(Store.world) = waiting_state.(db).(Store.world).
Proof. vm_compute. repeat split; reflexivity. Qed.

(** * Further properties of the console, the audience client and the
      performer display *)

(** ** Timers, exactly *)

Lemma clear_if_set_exact (h : option nat) (s : St Stage.t) :
  Stage.clear_if_set h s
  = (tt, mkSt (with_pending (cancel h s.(loc).(Stage.pending)) s.(loc)) s.(db) s.(log)).
Proof.
  destruct s as [c d l]. destruct h as [h|]; simpl.
  - reflexivity.
  - unfold ret, with_pending. destruct c. reflexivity.
Qed.

Lemma clearTimers_exact (s : St Stage.t) :
  Stage.clearTimers s = (tt, mkSt (cleared s.(loc)) s.(db) s.(log)).
Proof.
  unfold Stage.clearTimers. unfold bind at 1. unfold local at 1.
  unfold bind at 1. rewrite clear_if_set_exact.
  unfold bind at 1. rewrite clear_if_set_exact.
  unfold bind at 1. rewrite clear_if_set_exact.
  unfold modify. reflexivity.
Qed.

Lemma cancel_subset (h : option nat) (l : list Stage.Timer) (tm : Stage.Timer) :
  tm ∈ cancel h l <-> tm ∈ l /\ h <> Some tm.(Stage.handle).
Proof.
  destruct h as [h|]; simpl.
  - rewrite list_elem_of_filter. split.
    + intros [Hne Hin]. split; [assumption|]. congruence.
    + intros [Hin Hne]. split; [|assumption]. congruence.
  - split; [intros H; split; [assumption|discriminate] | now intros [H _]].
Qed.

Lemma cleared_pending (c : Stage.t) (tm : Stage.Timer) :
  tm ∈ (cleared c).(Stage.pending)
  <-> tm ∈ c.(Stage.pending) /\ ~ known_handle c.(Stage.timersRef) tm.(Stage.handle).
Proof.
  unfold cleared, known_handle. simpl. rewrite !cancel_subset.
  split.
  - intros [[[Hin Ha] Hl] Hu]. split; [assumption|]. intros [H|[H|H]]; auto.
  - intros [Hin Hn]. repeat split; try assumption; intros H; apply Hn; auto.
Qed.

Lemma fire_unknown (h : nat) (now : Z) (s : St Stage.t) :
  (forall tm, tm ∈ s.(loc).(Stage.pending) -> tm.(Stage.handle) <> h) ->
  Stage.fire h now s = (tt, s).
Proof.
  intros Hno. unfold Stage.fire. unfold bind, local.
  assert (E : filter (fun tm => Stage.handle tm = h) (Stage.pending (loc s)) = []).
  { destruct (filter (fun tm => Stage.handle tm = h) (Stage.pending (loc s)))
      as [|tm l] eqn:E; [reflexivity|].
    assert (Hin : tm ∈ filter (fun tm => Stage.handle tm = h) (Stage.pending (loc s)))
      by (rewrite E; left).
    apply list_elem_of_filter in Hin as [Hh Hin]. now destruct (Hno tm Hin). }
  rewrite E. reflexivity.
Qed.

Lemma filter_none {A} (P : A -> Prop) `{forall x, Decision (P x)} (l : list A) :
  Forall (fun x => ~ P x) l -> filter P l = [].
Proof.
  induction 1 as [|x l Hx _ IH]; [reflexivity|].
  rewrite filter_cons_False by assumption. exact IH.
Qed.

Lemma filter_all {A} (P : A -> Prop) `{forall x, Decision (P x)} (l : list A) :
  Forall P l -> filter P l = l.
Proof.
  induction 1 as [|x l Hx _ IH]; [reflexivity|].
  rewrite filter_cons_True by assumption. now rewrite IH.
Qed.

(** The timer armed last, under a handle above all others, fires when due:
    it leaves the list and its callback runs; before that nothing happens. *)
Lemma fire_last_armed (h : nat) (due now : Z) (cb : Stage.Callback)
    (old : list Stage.Timer) (s : St Stage.t) :
  s.(loc).(Stage.pending) = (old ++ [Stage.mkTimer h due cb])%list ->
  Forall (fun tm => (tm.(Stage.handle) < h)%nat) old ->
  Stage.fire h now s
  = if due <=? now
    then Stage.run_callback cb now (mkSt (with_pending old s.(loc)) s.(db) s.(log))
    else (tt, s).
Proof.
  intros Hp Hold. unfold Stage.fire. unfold bind at 1. unfold local at 1.
  rewrite Hp, filter_app.
  rewrite (filter_none (fun tm => Stage.handle tm = h) old)
    by (eapply Forall_impl; [exact Hold|]; simpl; intros; lia).
  rewrite filter_cons_True by reflexivity. rewrite filter_nil. simpl.
  destruct (due <=? now); [|reflexivity].
  unfold bind, Stage.clearTimeout, modify. simpl. rewrite Hp, filter_app.
  rewrite (filter_all (fun tm => Stage.handle tm <> h) old)
    by (eapply Forall_impl; [exact Hold|]; simpl; intros; lia).
  rewrite filter_cons_False by (simpl; tauto). rewrite filter_nil, app_nil_r.
  reflexivity.
Qed.

(** X1. [clearTimers] cancels every timer whose handle [timersRef.current]
    holds (handles are positive numbers): afterwards such a handle never fires (firing it changes nothing
    and writes nothing), the three slots are empty, the store is untouched,
    and exactly the timers under other handles stay armed. *)
Theorem clearTimers_cancels_known_timers (s : St Stage.t) (h : nat) (now : Z) :
  h <> 0%nat ->
  known_handle s.(loc).(Stage.timersRef) h ->
  let s1 := exec Stage.clearTimers s in
  exec (Stage.fire h now) s1 = s1 /\
  writes_of (Stage.fire h now) s1 = [] /\
  s1.(loc).(Stage.timersRef) = Stage.noTimers /\
  s1.(db) = s.(db) /\
  (forall tm,
      tm ∈ s1.(loc).(Stage.pending)
      <-> tm ∈ s.(loc).(Stage.pending)
          /\ ~ known_handle s.(loc).(Stage.timersRef) tm.(Stage.handle)).
Proof.
  intros _ Hk s1.
  assert (E : s1 = mkSt (cleared s.(loc)) s.(db) s.(log)).
  { subst s1. unfold exec. now rewrite clearTimers_exact. }
  assert (Hf : Stage.fire h now s1 = (tt, s1)).
  { apply fire_unknown. intros tm Hin Hh. rewrite E in Hin. cbn [loc] in Hin.
    apply cleared_pending in Hin as [_ Hn]. apply Hn. now rewrite Hh. }
  split; [unfold exec; now rewrite Hf|].
  split; [unfold writes_of, exec; rewrite Hf; apply drop_own_log_nil|].
  rewrite E. cbn [loc db]. split; [reflexivity|]. split; [reflexivity|].
  intros tm. apply cleared_pending.
Qed.

Lemma clearTimers_cancels_known_timers_witness :
  let s1 := exec Stage.clearTimers started_state in
  known_handle started_state.(loc).(Stage.timersRef) 1%nat /\
  started_state.(loc).(Stage.pending) = [Stage.mkTimer 1 29000 (Stage.Lock 2)] /\
  exec (Stage.fire 1 29000) s1 = s1 /\
  writes_of (Stage.fire 1 29000) s1 = [].
Proof.
  intros s1.
  assert (Hk : known_handle started_state.(loc).(Stage.timersRef) 1%nat)
    by (right; left; reflexivity).
  destruct (clearTimers_cancels_known_timers started_state 1%nat 29000
              ltac:(lia) Hk)
    as (H1 & H2 & _).
  split; [exact Hk|]. split; [reflexivity|]. split; [exact H1 | exact H2].
Defined.

(** ** The audience client, further *)



Lemma useAbility_by_role (tnow : Z) (s : St Audience.t) :
  Audience.useAbility tnow s
  = Audience.sendVote (ability_type (Audience.role s.(loc))) 3 "ability" tnow s.
Proof.
  unfold Audience.useAbility, ability_type. unfold bind, local.
  destruct (str_eq (Audience.role (loc s)) "Observer"); [reflexivity|].
  destruct (str_eq (Audience.role (loc s)) "Glitch"); reflexivity.
Qed.

Lemma vote_allowed_dec (c : Audience.t) (vkind : string) :
  vkind = "normal" \/ vkind = "ability" ->
  vote_allowed c vkind \/ ~ vote_allowed c vkind.
Proof.
  intros Hk. pose proof (sendVote_pass_spec c vkind Hk) as H.
  match type of H with ?b = true <-> _ => destruct b end.
  - left. now apply H.
  - right. intros Ha. apply H in Ha. discriminate.
Qed.




Lemma sendVote_writes_iff (vtype : string) (vpower : Z) (vkind : string) (tnow : Z)
    (s : St Audience.t) :
  vkind = "normal" \/ vkind = "ability" ->
  writes_of (Audience.sendVote vtype vpower vkind tnow) s <> []
  <-> vote_allowed s.(loc) vkind.
Proof.
  intros Hk. split.
  - intros Hw. destruct (vote_allowed_dec s.(loc) vkind Hk) as [Ha|Hn]; [assumption|].
    exfalso. apply Hw. unfold writes_of.
    rewrite (sendVote_refused _ _ _ _ _ Hk Hn). apply drop_own_log_nil.
  - intros Ha. pose proof Ha as (_ & _ & (r & Hr & _) & _).
    unfold writes_of. rewrite (sendVote_allowed _ _ _ _ _ r Hk Ha Hr).
    cbn [log]. rewrite drop_own_log. discriminate.
Qed.

Lemma available_spec (c : Audience.t) :
  (Audience.normalAvailable c = true <-> vote_allowed c "normal")
  /\ (Audience.abilityAvailable c = true <-> vote_allowed c "ability").
Proof.
  split.
  - rewrite <- (sendVote_pass_spec c "normal" (or_introl eq_refl)).
    unfold Audience.normalAvailable. simpl.
    destruct (Audience.isActive c), (Audience.cooldownLeft c =? 0),
      (is_num (Session.roundId (Audience.session c)) (Audience.normalUsedRound c));
      simpl; split; congruence.
  - rewrite <- (sendVote_pass_spec c "ability" (or_intror eq_refl)).
    unfold Audience.abilityAvailable. simpl.
    destruct (Audience.isActive c), (Audience.cooldownLeft c =? 0),
      (is_num (Session.roundId (Audience.session c)) (Audience.abilityUsedRound c));
      simpl; split; congruence.
Qed.

(** X3. The buttons agree with the handler: the three normal-vote buttons
    are enabled ([normalAvailable]) exactly when [voteNormal] would write its
    entry, and the ability button ([abilityAvailable]) exactly when
    [useAbility] would; a press on a disabled button's handler changes
    nothing. *)
Theorem vote_buttons_match_handler (s : St Audience.t) (ty : string) (tnow : Z) :
  (Audience.normalAvailable s.(loc) = true
   <-> writes_of (Audience.voteNormal ty tnow) s <> []) /\
  (Audience.abilityAvailable s.(loc) = true
   <-> writes_of (Audience.useAbility tnow) s <> []) /\
  (Audience.normalAvailable s.(loc) = false ->
   exec (Audience.voteNormal ty tnow) s = s) /\
  (Audience.abilityAvailable s.(loc) = false ->
   exec (Audience.useAbility tnow) s = s).
Proof.
  destruct (available_spec s.(loc)) as [Hn Ha].
  split; [|split; [|split]].
  - rewrite Hn. unfold Audience.voteNormal. symmetry.
    apply sendVote_writes_iff. now left.
  - rewrite Ha. unfold writes_of, exec. rewrite useAbility_by_role.
    symmetry. apply (sendVote_writes_iff _ 3 "ability" tnow s). now right.
  - intros Hf. unfold Audience.voteNormal. apply sendVote_refused; [now left|].
    intros H. apply Hn in H. congruence.
  - intros Hf. unfold exec. rewrite useAbility_by_role.
    apply (sendVote_refused _ 3 "ability" tnow s); [now right|].
    intros H. apply Ha in H. congruence.
Qed.

Lemma vote_buttons_match_handler_witness :
  let voted := exec (acknowledged_at (Audience.voteNormal "glitch" 5001) 5300)
                    voter_state in
  Audience.normalAvailable voter_state.(loc) = true /\
  writes_of (Audience.voteNormal "glitch" 5001) voter_state <> [] /\
  Audience.normalAvailable voted.(loc) = false /\
  exec (Audience.voteNormal "stable" 5302) voted = voted.
Proof.
  intros voted.
  destruct (vote_buttons_match_handler voter_state "glitch" 5001) as (H1 & _).
  destruct (vote_buttons_match_handler voted "stable" 5302) as (_ & _ & H3 & _).
  split; [reflexivity|]. split; [apply H1; reflexivity|].
  split; [reflexivity|]. apply H3. reflexivity.
Defined.

Lemma mark_voted_ts (ty k : string) (r ts0 : Z) (c : Audience.t) :
  (Audience.mark_voted ty k r ts0 c).(Audience.lastActionTs) = ts0.
Proof. unfold Audience.mark_voted. destruct (str_eq k "normal"); reflexivity. Qed.

(** X4. The cooldown is shared by both kinds of vote and runs from the
    acknowledgement of the push.  The press itself leaves the component as it
    is; once an accepted vote has been acknowledged at [tack], as long as the
    ticker's reading is less than 2000 ms past [tack], [sendVote] writes
    nothing and changes nothing, whatever the type, the power and the kind,
    and however long ago the entry was pushed. *)
Theorem cooldown_blocks_every_vote
    (s : St Audience.t) (ty : string) (pw : Z) (k : string) (tnow tack t2 : Z) :
  k = "normal" \/ k = "ability" ->
  vote_allowed s.(loc) k ->
  t2 - tack < COOLDOWN_MS ->
  let s1 := exec (Audience.tick t2)
                 (exec (acknowledged_at (Audience.sendVote ty pw k tnow) tack) s) in
  (exec (Audience.sendVote ty pw k tnow) s).(loc) = s.(loc) /\
  s1.(loc).(Audience.lastActionTs) = tack /\
  Audience.cooldownLeft s1.(loc) = ceil_div_1000 (COOLDOWN_MS - (t2 - tack)) /\
  0 < Audience.cooldownLeft s1.(loc) /\
  forall ty' pw' k' tnow',
    writes_of (Audience.sendVote ty' pw' k' tnow') s1 = [] /\
    exec (Audience.sendVote ty' pw' k' tnow') s1 = s1.
Proof.
  intros Hk Ha Hlt s1.
  pose proof Ha as (_ & _ & (r & Hr & _) & _).
  assert (Hts : s1.(loc).(Audience.lastActionTs) = tack).
  { subst s1. rewrite (sendVote_acknowledged _ _ _ _ _ _ r Hk Ha Hr).
    rewrite tick_run. cbn [loc Audience.lastActionTs]. apply mark_voted_ts. }
  assert (Hnow : s1.(loc).(Audience.now) = t2) by reflexivity.
  assert (Hpos : 0 < ceil_div_1000 (COOLDOWN_MS - (t2 - tack)))
    by (apply (proj2 (ceil_div_1000_pos _)); lia).
  assert (Hleft : Audience.cooldownLeft s1.(loc)
                  = ceil_div_1000 (COOLDOWN_MS - (t2 - tack))).
  { unfold Audience.cooldownLeft. rewrite Hts, Hnow. lia. }
  split; [now rewrite (sendVote_allowed _ _ _ _ _ r Hk Ha Hr)|].
  split; [exact Hts|]. split; [exact Hleft|]. split; [lia|].
  intros ty' pw' k' tnow'.
  assert (Hc : (Audience.cooldownLeft s1.(loc) =? 0) = false)
    by (apply Z.eqb_neq; lia).
  assert (E : exec (Audience.sendVote ty' pw' k' tnow') s1 = s1).
  { unfold exec. rewrite sendVote_run. rewrite Hc, andb_false_r. reflexivity. }
  split; [|exact E]. unfold writes_of. rewrite E. apply drop_own_log_nil.
Qed.

Lemma cooldown_blocks_every_vote_witness :
  let s1 := exec (Audience.tick 7200)
                 (exec (acknowledged_at (Audience.sendVote "glitch" 1 "normal" 5001) 5300)
                       voter_state) in
  vote_allowed voter_state.(loc) "normal" /\
  Audience.cooldownLeft s1.(loc) = 1 /\
  writes_of (Audience.sendVote "override" 3 "ability" 7201) s1 = [].
Proof.
  intros s1.
  assert (Ha : vote_allowed voter_state.(loc) "normal").
  { unfold vote_allowed. simpl. unfold COOLDOWN_MS.
    split; [reflexivity|]. split; [reflexivity|].
    split; [exists 3; split; [reflexivity|]; split; [lia|discriminate]|].
    split; lia. }
  destruct (cooldown_blocks_every_vote voter_state "glitch" 1 "normal" 5001 5300 7200
              (or_introl eq_refl) Ha ltac:(unfold COOLDOWN_MS; lia))
    as (_ & _ & Hleft & _ & Hblock).
  split; [exact Ha|]. split; [exact Hleft|]. apply Hblock.
Defined.

(** ** Countdowns *)

Lemma ceil_div_1000_bounds (ms : Z) :
  1000 * (ceil_div_1000 ms - 1) < ms <= 1000 * ceil_div_1000 ms.
Proof.
  unfold ceil_div_1000.
  pose proof (Z.div_mod (- ms) 1000 ltac:(lia)) as Hd.
  pose proof (Z.mod_pos_bound (- ms) 1000 ltac:(lia)) as Hm.
  lia.
Qed.

Lemma countdown_spec (target : option Z) (t : Z) :
  0 <= countdown target t /\
  (countdown target t = 0 <-> num_or target 0 <= t) /\
  (t < num_or target 0 ->
   1000 * (countdown target t - 1) < num_or target 0 - t <= 1000 * countdown target t).
Proof.
  unfold countdown.
  pose proof (ceil_div_1000_bounds (num_or target 0 - t)) as Hb.
  split; [lia|]. split; [split; intros; lia|]. intros Hlt. lia.
Qed.

(** X5. The countdowns show the number of started seconds that remain:
    [secondsLeft] (console and audience) and [startsIn] are never negative,
    are 0 exactly when the target time is unset or not after the ticker's
    reading, and otherwise are the least [n] with [target - now <= 1000 n].
    The audience's [cooldownLeft] is 0 exactly when 2000 ms have passed since
    the last vote and never exceeds 2 while the ticker is not before that
    vote. *)
Theorem countdowns_count_started_seconds (c : Audience.t) (cs : Stage.t) (now : Z) :
  (0 <= Audience.secondsLeft c /\
   (Audience.secondsLeft c = 0
    <-> num_or c.(Audience.session).(Session.endsAt) 0 <= c.(Audience.now)) /\
   (c.(Audience.now) < num_or c.(Audience.session).(Session.endsAt) 0 ->
    1000 * (Audience.secondsLeft c - 1)
    < num_or c.(Audience.session).(Session.endsAt) 0 - c.(Audience.now)
    <= 1000 * Audience.secondsLeft c)) /\
  (0 <= Console.secondsLeft cs now /\
   (Console.secondsLeft cs now = 0
    <-> num_or cs.(Stage.session).(Session.endsAt) 0 <= now) /\
   (now < num_or cs.(Stage.session).(Session.endsAt) 0 ->
    1000 * (Console.secondsLeft cs now - 1)
    < num_or cs.(Stage.session).(Session.endsAt) 0 - now
    <= 1000 * Console.secondsLeft cs now)) /\
  (0 <= Console.startsIn cs now /\
   (Console.startsIn cs now = 0
    <-> num_or cs.(Stage.session).(Session.nextStartsAt) 0 <= now) /\
   (now < num_or cs.(Stage.session).(Session.nextStartsAt) 0 ->
    1000 * (Console.startsIn cs now - 1)
    < num_or cs.(Stage.session).(Session.nextStartsAt) 0 - now
    <= 1000 * Console.startsIn cs now)) /\
  (0 <= Audience.cooldownLeft c /\
   (Audience.cooldownLeft c = 0
    <-> COOLDOWN_MS <= c.(Audience.now) - c.(Audience.lastActionTs)) /\
   (c.(Audience.lastActionTs) <= c.(Audience.now) -> Audience.cooldownLeft c <= 2)).
Proof.
  split; [apply (countdown_spec (Session.endsAt (Audience.session c)) (Audience.now c))|].
  split; [apply (countdown_spec (Session.endsAt (Stage.session cs)) now)|].
  split; [apply (countdown_spec (Session.nextStartsAt (Stage.session cs)) now)|].
  unfold Audience.cooldownLeft, COOLDOWN_MS.
  pose proof (ceil_div_1000_bounds
                (2000 - (Audience.now c - Audience.lastActionTs c))) as Hb.
  split; [lia|]. split; [split; intros; lia|]. intros Hle. lia.
Qed.

Lemma countdowns_count_started_seconds_witness :
  Audience.secondsLeft voter_state.(loc) = 15 /\
  1000 * (15 - 1) < 20000 - 5000 <= 1000 * 15 /\
  Console.startsIn waiting_state.(loc) 3500 = 6 /\
  Audience.cooldownLeft voter_state.(loc) <= 2.
Proof.
  destruct (countdowns_count_started_seconds
              voter_state.(loc) waiting_state.(loc) 3500)
    as ((_ & _ & Hs) & _ & _ & (_ & _ & Hc)).
  split; [reflexivity|]. split; [lia|]. split; [reflexivity|].
  apply Hc. simpl. lia.
Defined.

(** ** Controller election *)

Lemma str_or_empty (x : option string) :
  str_or x "" = match x with Some c => c | None => "" end.
Proof.
  destruct x as [c|]; simpl; [|reflexivity].
  destruct (str_eq_spec c "") as [->|]; reflexivity.
Qed.

Lemma controllerClaim_run (s : St Stage.t) :
  exec Stage.controllerClaim s
  = if str_eq (stored_controller s.(db)) ""
    then mkSt s.(loc)
              (apply_write
                 (UpdateSession (Session.mk None None None None
                                            (Some s.(loc).(Stage.stageId)) None None))
                 s.(db))
              (s.(log) ++ [UpdateSession
                             (Session.mk None None None None
                                         (Some s.(loc).(Stage.stageId)) None None)])%list
    else s.
Proof.
  unfold Stage.controllerClaim. unfold_handler. cbn beta.
  rewrite str_or_empty. fold (stored_controller (db s)).
  destruct (str_eq (stored_controller (db s)) ""); destruct s; reflexivity.
Qed.

Lemma iAmController_of_view (c : Stage.t) (x : Session.t) :
  c.(Stage.session) = Session.of_store x ->
  Stage.iAmController c
  = negb (negb (str_eq (match x.(Session.controllerId) with Some i => i | None => "" end) "")
          && negb (str_eq (match x.(Session.controllerId) with Some i => i | None => "" end)
                          c.(Stage.stageId))).
Proof.
  intros Hv. unfold Stage.iAmController. rewrite Hv, str_or_empty.
  unfold Session.of_store.
  destruct (Session.exists_ x) eqn:E.
  - destruct (Session.controllerId x) as [i|]; simpl.
    + destruct (str_eq i (Stage.stageId c)), (str_eq i ""); reflexivity.
    + reflexivity.
  - destruct x as [[?|] [?|] [?|] [?|] [?|] [?|] [?|]]; try discriminate.
    simpl. apply orb_true_r.
Qed.

(** X6. The controller claim on mount fills the controller field only when
    it is empty or absent: then it writes the console's own id and nothing
    else of the session; a non-empty controller field is never overwritten
    (the claim changes nothing).  Once the session listener has delivered,
    the console regards itself as controller exactly when the field, as it
    stood before the claim, was empty or its own id. *)
Theorem controllerClaim_fills_only_empty (s : St Stage.t) :
  let id := s.(loc).(Stage.stageId) in
  let s1 := exec Stage.controllerClaim s in
  let s2 := exec Stage.on_session s1 in
  (stored_controller s.(db) <> "" -> s1 = s) /\
  (stored_controller s.(db) = "" ->
   writes_of Stage.controllerClaim s
   = [UpdateSession (Session.mk None None None None (Some id) None None)] /\
   s1.(db) = Store.mk s.(db).(Store.director)
                      (with_controller id s.(db).(Store.session))
                      s.(db).(Store.world) s.(db).(Store.votes)) /\
  Stage.iAmController s2.(loc) = negb (other_controller id s.(db)).
Proof.
  intros id s1 s2. subst s2 s1. rewrite controllerClaim_run.
  split; [|split].
  - intros Hne. apply str_eq_false in Hne. now rewrite Hne.
  - intros He. unfold writes_of. rewrite controllerClaim_run, He. simpl.
    rewrite drop_own_log. split; [reflexivity|].
    unfold with_controller. reflexivity.
  - unfold other_controller.
    destruct (str_eq_spec (stored_controller (db s)) "") as [He|Hne].
    + rewrite He. simpl.
      match goal with
      | |- Stage.iAmController ?c = _ =>
          rewrite (iAmController_of_view c
                     (Session.merge
                        (Session.mk None None None None
                                    (Some (Stage.stageId (loc s))) None None)
                        (Store.session (db s)))) by reflexivity
      end.
      simpl. rewrite str_eq_refl. simpl. now rewrite andb_false_r.
    + rewrite (iAmController_of_view
                 (loc (exec Stage.on_session s)) (Store.session (db s)))
        by reflexivity.
      fold (stored_controller (db s)). apply str_eq_false in Hne.
      rewrite Hne. reflexivity.
Qed.

Lemma controllerClaim_fills_only_empty_witness :
  stored_controller second_console.(db) <> "" /\
  exec Stage.controllerClaim second_console = second_console /\
  stored_controller (mkSt (Stage.mount "stage_b") Store.empty []).(db) = "" /\
  writes_of Stage.controllerClaim (mkSt (Stage.mount "stage_b") Store.empty [])
  = [UpdateSession (Session.mk None None None None (Some "stage_b") None None)].
Proof.
  destruct (controllerClaim_fills_only_empty second_console) as (H1 & _).
  destruct (controllerClaim_fills_only_empty
              (mkSt (Stage.mount "stage_b") Store.empty [])) as (_ & H2 & _).
  assert (Hne : stored_controller second_console.(db) <> "") by discriminate.
  split; [exact Hne|]. split; [exact (H1 Hne)|].
  split; [reflexivity|]. exact (proj1 (H2 eq_refl)).
Defined.

Lemma of_store_mode (d : Director.t) :
  d.(Director.mode) <> Some "" ->
  (DirectorView.of_store d).(DirectorView.mode)
  = match d.(Director.mode) with Some m => m | None => "normal" end.
Proof.
  intros Hne. destruct d as [[m|] [a|]]; simpl in *; try reflexivity.
  - destruct (str_eq_spec m "") as [E|]; [subst m; congruence|reflexivity].
  - destruct (str_eq_spec m "") as [E|]; [subst m; congruence|reflexivity].
Qed.

Lemma manualStartDisabled_in_sync (s : St Stage.t) :
  in_sync s ->
  s.(db).(Store.director).(Director.mode) <> Some "" ->
  Console.manualStartDisabled s.(loc)
  = mode_blocks s.(db) || other_controller s.(loc).(Stage.stageId) s.(db).
Proof.
  intros [Hs Hd] Hne. unfold Console.manualStartDisabled.
  rewrite (iAmController_of_view _ _ Hs), negb_involutive.
  rewrite Hd, (of_store_mode _ Hne).
  unfold mode_blocks, other_controller, stored_mode, stored_controller.
  apply orb_comm.
Qed.

(** X7. When the console mirrors the store (and the stored mode is not the
    empty string), the button "Manual Start Round" is disabled exactly when
    [startRound] would be rejected by its guards: a press on the enabled
    button starts round [current + 1], and the handler behind the disabled
    button would leave the session as it is. *)
Theorem manual_start_button_matches_guards (s : St Stage.t) (now : Z) :
  in_sync s ->
  s.(db).(Store.director).(Director.mode) <> Some "" ->
  let s1 := exec (Stage.startRoundManual now) s in
  (Console.manualStartDisabled s.(loc) = false ->
   s1.(db).(Store.session)
   = Session.mk (Some "active") (Some (current_round s.(loc) + 1))
                (Some (now + ACTIVE_SECONDS * 1000)) (Some 0)
                (Some s.(loc).(Stage.stageId)) (Some "manual") (Some now)) /\
  (Console.manualStartDisabled s.(loc) = true ->
   s1.(db).(Store.session) = s.(db).(Store.session) /\
   s1.(db).(Store.votes) = s.(db).(Store.votes)).
Proof.
  intros Hsync Hne s1. subst s1.
  rewrite (manualStartDisabled_in_sync s Hsync Hne). unfold Stage.startRoundManual.
  split; intros G.
  - destruct (startRound_accepted_run "manual" now s G) as (c' & E & _).
    rewrite E. reflexivity.
  - rewrite (startRound_rejected_run "manual" now s G). cbn [db].
    now rewrite ensure_keeps_session, ensure_keeps_votes.
Qed.

Lemma manual_start_button_matches_guards_witness :
  in_sync waiting_state /\
  Console.manualStartDisabled waiting_state.(loc) = false /\
  (exec (Stage.startRoundManual 9000) waiting_state)
    .(db).(Store.session).(Session.roundId) = Some 2 /\
  in_sync frozen_state /\
  Console.manualStartDisabled frozen_state.(loc) = true /\
  (exec (Stage.startRoundManual 9000) frozen_state).(db).(Store.session)
  = frozen_state.(db).(Store.session).
Proof.
  assert (Hw : in_sync waiting_state) by (split; reflexivity).
  assert (Hf : in_sync frozen_state) by (split; reflexivity).
  destruct (manual_start_button_matches_guards waiting_state 9000 Hw
              ltac:(discriminate)) as [H1 _].
  destruct (manual_start_button_matches_guards frozen_state 9000 Hf
              ltac:(discriminate)) as [_ H2].
  split; [exact Hw|]. split; [reflexivity|].
  split; [rewrite (H1 eq_refl); reflexivity|].
  split; [exact Hf|]. split; [reflexivity|]. exact (proj1 (H2 eq_refl)).
Defined.

(** ** The live tally and the reset of the round's votes *)

Lemma on_votes_idle (s : St Stage.t) :
  truthy_num s.(loc).(Stage.session).(Session.roundId) = false ->
  (exec Stage.on_votes s).(loc).(Stage.scores) = mkScores 0 0 0 /\
  (exec Stage.on_votes s).(loc).(Stage.total) = 0.
Proof.
  intros H. unfold Stage.on_votes. unfold_handler. cbn beta. rewrite H.
  split; reflexivity.
Qed.

(** X8. The live view and the lock handler agree: for the round the console
    shows, the scores of the votes listener are the [lastScores] the lock
    handler would persist from the same ledger, [total] is their sum, and
    whenever the total is not 0 the live dominant is the [dominant] that
    would be persisted.  With a total of 0, or before the first round, the
    live view shows "waiting". *)
Theorem live_tally_matches_lock (s : St Stage.t) (now : Z) :
  let r := current_round s.(loc) in
  let live := (exec Stage.on_votes s).(loc) in
  let w := (exec (Stage.lockHandler r now) s).(db).(Store.world) in
  live.(Stage.total) = scores_total live.(Stage.scores) /\
  (live.(Stage.total) = 0 -> Stage.dominantLive live = "waiting") /\
  (truthy_num s.(loc).(Stage.session).(Session.roundId) = true ->
   w.(World.lastScores) = Some live.(Stage.scores) /\
   (live.(Stage.total) <> 0 -> w.(World.dominant) = Some (Stage.dominantLive live))) /\
  (truthy_num s.(loc).(Stage.session).(Session.roundId) = false ->
   live.(Stage.scores) = mkScores 0 0 0 /\ Stage.dominantLive live = "waiting").
Proof.
  intros r live w.
  assert (Hzero : live.(Stage.total) = 0 -> Stage.dominantLive live = "waiting").
  { intros H. unfold Stage.dominantLive. now rewrite H. }
  destruct (truthy_num (Session.roundId (Stage.session (loc s)))) eqn:T.
  - destruct (on_votes_run s T) as (Hsc & Htot & _). fold live in Hsc, Htot.
    fold r in Hsc, Htot.
    destruct (lockHandler_run r now s) as [Hdb _]. subst w. rewrite Hdb. simpl.
    split; [now rewrite Htot, Hsc|]. split; [exact Hzero|].
    split; [|discriminate]. intros _. split; [now rewrite Hsc|].
    intros Hnz. unfold Stage.dominantLive.
    destruct (Z.eqb_spec (Stage.total live) 0); [contradiction|]. now rewrite Hsc.
  - destruct (on_votes_idle s T) as [Hsc Htot]. fold live in Hsc, Htot.
    split; [now rewrite Htot, Hsc|]. split; [exact Hzero|].
    split; [discriminate|]. intros _. split; [exact Hsc|]. now apply Hzero.
Qed.

Lemma live_tally_matches_lock_witness :
  let s := exec Stage.on_session scenario_state in
  let live := (exec Stage.on_votes s).(loc) in
  truthy_num s.(loc).(Stage.session).(Session.roundId) = true /\
  live.(Stage.total) = 10 /\
  (exec (Stage.lockHandler (current_round s.(loc)) 20000) s)
    .(db).(Store.world).(World.dominant) = Some (Stage.dominantLive live) /\
  Stage.dominantLive live = "override".
Proof.
  intros s live.
  destruct (live_tally_matches_lock s 20000) as (_ & _ & H & _).
  destruct (H eq_refl) as [_ Hd].
  split; [reflexivity|]. split; [reflexivity|].
  split; [apply Hd; discriminate | reflexivity].
Defined.

Lemma resetCurrentVotes_run (s : St Stage.t) :
  exec Stage.resetCurrentVotes s
  = if truthy_num s.(loc).(Stage.session).(Session.roundId)
    then mkSt s.(loc) (apply_write (RemoveVotes (current_round s.(loc))) s.(db))
              (s.(log) ++ [RemoveVotes (current_round s.(loc))])%list
    else s.
Proof.
  unfold Stage.resetCurrentVotes, current_round. unfold_handler. cbn beta.
  destruct (truthy_num (Session.roundId (Stage.session (loc s))));
    destruct s; reflexivity.
Qed.

(** X9. "Reset Current Round Votes" removes the entries of the round the
    console shows and of no other round, and touches neither session, world
    nor director; before the first round (round id 0 or absent) it does
    nothing.  Afterwards the live tally of the console is 0 and its live
    dominant is "waiting". *)
Theorem resetCurrentVotes_clears_shown_round (s : St Stage.t) :
  let r := current_round s.(loc) in
  let s1 := exec Stage.resetCurrentVotes s in
  let live := (exec Stage.on_votes s1).(loc) in
  (truthy_num s.(loc).(Stage.session).(Session.roundId) = true ->
   writes_of Stage.resetCurrentVotes s = [RemoveVotes r] /\
   Store.round_votes s1.(db) r = [] /\
   (forall r', r' <> r -> Store.round_votes s1.(db) r' = Store.round_votes s.(db) r')) /\
  (truthy_num s.(loc).(Stage.session).(Session.roundId) = false -> s1 = s) /\
  s1.(db).(Store.session) = s.(db).(Store.session) /\
  s1.(db).(Store.world) = s.(db).(Store.world) /\
  s1.(db).(Store.director) = s.(db).(Store.director) /\
  live.(Stage.total) = 0 /\ Stage.dominantLive live = "waiting".
Proof.
  intros r s1 live.
  assert (E := resetCurrentVotes_run s). fold s1 in E. fold r in E.
  assert (Hlive : live.(Stage.total) = 0).
  { subst live. destruct (truthy_num (Session.roundId (Stage.session (loc s)))) eqn:T.
    - assert (T1 : truthy_num (Session.roundId (Stage.session (loc s1))) = true)
        by (rewrite E; exact T).
      destruct (on_votes_run s1 T1) as (_ & Htot & _). rewrite Htot.
      rewrite E. unfold current_round, Store.round_votes. simpl.
      fold r. unfold r, current_round. now rewrite lookup_delete_eq.
    - assert (T1 : truthy_num (Session.roundId (Stage.session (loc s1))) = false)
        by (rewrite E; exact T).
      now destruct (on_votes_idle s1 T1). }
  split; [|split].
  - intros T. rewrite T in E. unfold writes_of. fold s1. rewrite E. cbn [log db].
    rewrite drop_own_log. split; [reflexivity|]. unfold Store.round_votes. simpl.
    rewrite lookup_delete_eq. split; [reflexivity|].
    intros r' Hne. now rewrite lookup_delete_ne by congruence.
  - intros T. now rewrite T in E.
  - rewrite E.
    destruct (truthy_num (Session.roundId (Stage.session (loc s))));
      repeat split; try reflexivity; try assumption;
      unfold Stage.dominantLive; now rewrite Hlive.
Qed.

Lemma resetCurrentVotes_clears_shown_round_witness :
  let s := exec Stage.on_session scenario_state in
  truthy_num s.(loc).(Stage.session).(Session.roundId) = true /\
  Store.round_votes s.(db) 1 = scenario_votes /\
  writes_of Stage.resetCurrentVotes s = [RemoveVotes 1] /\
  Store.round_votes (exec Stage.resetCurrentVotes s).(db) 1 = [].
Proof.
  intros s.
  destruct (resetCurrentVotes_clears_shown_round s) as (H & _).
  destruct (H eq_refl) as (Hw & He & _).
  split; [reflexivity|]. split; [reflexivity|]. split; [exact Hw | exact He].
Defined.

(** ** Stability stays within its range *)

Lemma ensure_stability (now : Z) (d : Store.t) :
  (apply_writes (ensure_writes now d) d).(Store.world).(World.stability)
  = Some (current_stability d).
Proof.
  unfold ensure_writes, current_stability.
  destruct (World.stability (Store.world d)) eqn:E;
    destruct (Director.exists_ (Store.director d)); simpl; now rewrite ?E.
Qed.

Lemma ensure_in_range (now : Z) (d : Store.t) :
  stability_in_range d -> stability_in_range (apply_writes (ensure_writes now d) d).
Proof.
  unfold stability_in_range. rewrite ensure_stability. unfold current_stability.
  destruct (World.stability (Store.world d)); [auto|lia].
Qed.

Lemma same_world_in_range (d d' : Store.t) :
  d'.(Store.world) = d.(Store.world) -> stability_in_range d -> stability_in_range d'.
Proof. unfold stability_in_range. now intros ->. Qed.

Lemma startRound_in_range (reason : string) (now : Z) (s : St Stage.t) :
  stability_in_range s.(db) ->
  stability_in_range (exec (Stage.startRound reason now) s).(db).
Proof.
  intros H.
  destruct (mode_blocks (db s) || other_controller (Stage.stageId (loc s)) (db s))
    eqn:G.
  - rewrite (startRound_rejected_run _ _ _ G). now apply ensure_in_range.
  - destruct (startRound_accepted_run reason now s G) as (c' & E & _).
    rewrite E. cbn [db].
    apply (same_world_in_range (apply_writes (ensure_writes now (db s)) (db s)));
      [reflexivity | now apply ensure_in_range].
Qed.

Lemma perform_in_range (op : Stage.Operation) (now : Z) (s : St Stage.t) :
  stability_in_range s.(db) ->
  stability_in_range (exec (Stage.perform op now) s).(db).
Proof.
  intros H. destruct op as [v| | | | | |]; cbn [Stage.perform].
  - rewrite setAutoRun_run. cbn [db].
    apply (same_world_in_range (apply_writes (ensure_writes now (db s)) (db s)));
      [destruct v; reflexivity | now apply ensure_in_range].
  - now apply startRound_in_range.
  - destruct (freeze_like_run "freeze" Stage.freeze now s) as (c' & E & _);
      [now left|]. rewrite E. cbn [db].
    apply (same_world_in_range (apply_writes (ensure_writes now (db s)) (db s)));
      [reflexivity | now apply ensure_in_range].
  - destruct (freeze_like_run "blackout" Stage.blackout now s) as (c' & E & _);
      [now right|]. rewrite E. cbn [db].
    apply (same_world_in_range (apply_writes (ensure_writes now (db s)) (db s)));
      [reflexivity | now apply ensure_in_range].
  - rewrite resume_run. cbn [db].
    apply (same_world_in_range (apply_writes (ensure_writes now (db s)) (db s)));
      [reflexivity | now apply ensure_in_range].
  - rewrite resetCurrentVotes_run.
    destruct (truthy_num (Session.roundId (Stage.session (loc s)))); [|assumption].
    now apply (same_world_in_range (db s)).
  - destruct (restart_run now s) as (c' & E & _). rewrite E.
    unfold stability_in_range. simpl. lia.
Qed.

Lemma run_callback_in_range (cb : Stage.Callback) (now : Z) (s : St Stage.t) :
  stability_in_range s.(db) ->
  stability_in_range (exec (Stage.run_callback cb now) s).(db).
Proof.
  intros H. destruct cb as [|r|r]; cbn [Stage.run_callback].
  - now apply startRound_in_range.
  - destruct (lockHandler_run r now s) as [Hdb _]. rewrite Hdb.
    unfold stability_in_range. simpl. apply clamp_range. lia.
  - apply (same_world_in_range (db s)); [|assumption].
    unfold Stage.unlockHandler. unfold_handler. reflexivity.
Qed.

Lemma fire_cases (h : nat) (now : Z) (s : St Stage.t) :
  exec (Stage.fire h now) s = s
  \/ exists cb c',
       exec (Stage.fire h now) s
       = exec (Stage.run_callback cb now) (mkSt c' s.(db) s.(log)).
Proof.
  unfold Stage.fire, exec, bind, local, Stage.clearTimeout, modify. cbn beta.
  destruct (head (filter (fun tm => Stage.handle tm = h) (Stage.pending (loc s))))
    as [tm|]; [|now left].
  destruct (Stage.due tm <=? now); [|now left].
  right. exists (Stage.callback tm). eexists. reflexivity.
Qed.

(** X10. The stored stability never leaves [0, 100]: if it is absent or
    within the range, it is so after every operation of the console, after
    every timer that fires (auto-start, lock, unlock), after the scheduler
    effect and after the controller claim; and the lock handler writes a
    stability within the range whatever it found. *)
Theorem stability_stays_in_range (s : St Stage.t) (now : Z) :
  (forall r, exists v,
      (exec (Stage.lockHandler r now) s).(db).(Store.world).(World.stability) = Some v
      /\ 0 <= v <= 100) /\
  (stability_in_range s.(db) ->
   (forall op, stability_in_range (exec (Stage.perform op now) s).(db)) /\
   (forall h, stability_in_range (exec (Stage.fire h now) s).(db)) /\
   stability_in_range (exec (Stage.schedulerEffect now) s).(db) /\
   stability_in_range (exec Stage.controllerClaim s).(db)).
Proof.
  split.
  - intros r. destruct (lockHandler_run r now s) as [Hdb _]. rewrite Hdb. simpl.
    eexists. split; [reflexivity|]. apply clamp_range. lia.
  - intros H. split; [|split; [|split]].
    + intros op. now apply perform_in_range.
    + intros h. destruct (fire_cases h now s) as [E|(cb & c' & E)]; rewrite E.
      * assumption.
      * now apply (run_callback_in_range cb now (mkSt c' (db s) (log s))).
    + destruct (schedulerEffect_run now s) as (c' & E & _). rewrite E. cbn [db].
      apply (same_world_in_range (db s)); [|assumption].
      destruct (scheduler_armed (loc s) && need_new (loc s) now); reflexivity.
    + rewrite controllerClaim_run.
      destruct (str_eq (stored_controller (db s)) ""); [|assumption].
      now apply (same_world_in_range (db s)).
Qed.

Lemma stability_stays_in_range_witness :
  stability_in_range scenario_state.(db) /\
  stability_in_range (exec (Stage.perform Stage.OpFreeze 12000) scenario_state).(db) /\
  stability_in_range (exec (Stage.fire 1 29000) started_state).(db).
Proof.
  assert (H : stability_in_range scenario_state.(db))
    by (unfold stability_in_range; simpl; lia).
  assert (H' : stability_in_range started_state.(db))
    by (unfold stability_in_range; simpl; lia).
  split; [exact H|]. split.
  - apply (stability_stays_in_range scenario_state 12000). exact H.
  - apply (stability_stays_in_range started_state 29000). exact H'.
Defined.

(** ** Controls without a controller guard *)

Lemma perform_control_session (op : Stage.Operation) (now : Z) (s : St Stage.t) :
  takes_control op = true ->
  let ses := (exec (Stage.perform op now) s).(db).(Store.session) in
  ses.(Session.controllerId) = Some s.(loc).(Stage.stageId) /\
  ses.(Session.endsAt) = Some 0 /\
  ses.(Session.nextStartsAt) = Some 0 /\
  (op <> Stage.OpRestart ->
   ses.(Session.roundId) = s.(db).(Store.session).(Session.roundId) /\
   (exec (Stage.perform op now) s).(db).(Store.votes) = s.(db).(Store.votes)).
Proof.
  intros Ht. destruct op as [v| | | | | |]; try discriminate; cbn [Stage.perform].
  - destruct (freeze_like_run "freeze" Stage.freeze now s) as (c' & E & _);
      [now left|]. rewrite E. cbn [db apply_writes fold_left]. simpl.
    rewrite ensure_keeps_session, ensure_keeps_votes. auto.
  - destruct (freeze_like_run "blackout" Stage.blackout now s) as (c' & E & _);
      [now right|]. rewrite E. cbn [db apply_writes fold_left]. simpl.
    rewrite ensure_keeps_session, ensure_keeps_votes. auto.
  - rewrite resume_run. cbn [db apply_writes fold_left]. simpl.
    rewrite ensure_keeps_session, ensure_keeps_votes. auto.
  - destruct (restart_run now s) as (c' & E & _). rewrite E. simpl.
    split; [reflexivity|]. split; [reflexivity|]. split; [reflexivity|].
    intros Hne. now destruct Hne.
Qed.

(** X11. Freeze, blackout, resume and restart run without a controller
    guard and write the issuing console's id into [session.controllerId]
    (with [endsAt] and [nextStartsAt] set to 0; freeze, blackout and resume
    keep the round id and the ledger).  From then on [startRound] of any
    other console is rejected: it leaves session and ledger as they are. *)
Theorem unguarded_controls_take_over
    (s : St Stage.t) (op : Stage.Operation) (now : Z) :
  takes_control op = true ->
  s.(loc).(Stage.stageId) <> "" ->
  let d1 := (exec (Stage.perform op now) s).(db) in
  d1.(Store.session).(Session.controllerId) = Some s.(loc).(Stage.stageId) /\
  d1.(Store.session).(Session.endsAt) = Some 0 /\
  d1.(Store.session).(Session.nextStartsAt) = Some 0 /\
  (op <> Stage.OpRestart ->
   d1.(Store.session).(Session.roundId) = s.(db).(Store.session).(Session.roundId) /\
   d1.(Store.votes) = s.(db).(Store.votes)) /\
  (forall (other : Stage.t) (l : list Write) (reason : string) (t : Z),
      other.(Stage.stageId) <> s.(loc).(Stage.stageId) ->
      let s2 := exec (Stage.startRound reason t) (mkSt other d1 l) in
      s2.(db).(Store.session) = d1.(Store.session) /\
      s2.(db).(Store.votes) = d1.(Store.votes) /\
      filter (fun w => is_session_write w = true)
             (writes_of (Stage.startRound reason t) (mkSt other d1 l)) = []).
Proof.
  intros Ht Hid d1.
  destruct (perform_control_session op now s Ht) as (Hc & He & Hn & Hr).
  fold d1 in Hc, He, Hn, Hr.
  split; [exact Hc|]. split; [exact He|]. split; [exact Hn|]. split; [exact Hr|].
  intros other l reason t Hne s2.
  assert (G : mode_blocks d1 || other_controller other.(Stage.stageId) d1 = true).
  { apply guards_reject. right. unfold stored_controller. rewrite Hc.
    split; congruence. }
  subst s2.
  rewrite (startRound_rejected_writes reason t (mkSt other d1 l) G).
  rewrite (startRound_rejected_run reason t (mkSt other d1 l) G). cbn [db].
  rewrite ensure_keeps_session, ensure_keeps_votes, ensure_writes_no_session.
  auto.
Qed.

Lemma unguarded_controls_take_over_witness :
  let d1 := (exec (Stage.perform Stage.OpResume 12000) second_console).(db) in
  stored_controller second_console.(db) = "stage_a" /\
  d1.(Store.session).(Session.controllerId) = Some "stage_b" /\
  (exec (Stage.startRound "manual" 13000) (mkSt waiting_state.(loc) d1 []))
    .(db).(Store.session) = d1.(Store.session).
Proof.
  intros d1.
  destruct (unguarded_controls_take_over second_console Stage.OpResume 12000
              eq_refl ltac:(discriminate)) as (Hc & _ & _ & _ & Hs).
  split; [reflexivity|]. split; [exact Hc|].
  apply (Hs waiting_state.(loc) [] "manual" 13000). discriminate.
Defined.

(** ** A round and its timers *)

Lemma startRound_accepted_exact (reason : string) (now : Z) (s : St Stage.t) :
  mode_blocks s.(db) || other_controller s.(loc).(Stage.stageId) s.(db) = false ->
  let next := current_round s.(loc) + 1 in
  let ws := [RemoveVotes next;
             SetSession (active_session s.(loc).(Stage.stageId) reason next now)] in
  exec (Stage.startRound reason now) s
  = mkSt (armed (Stage.Lock next) (now + ACTIVE_SECONDS * 1000) store_lock s.(loc))
         (apply_writes ws (apply_writes (ensure_writes now s.(db)) s.(db)))
         (s.(log) ++ ensure_writes now s.(db) ++ ws)%list.
Proof.
  intros H. unfold exec, Stage.startRound, bind at 1.
  rewrite ensureWorldInit_run. unfold mode_blocks, other_controller in H.
  apply orb_false_elim in H as [Hm Hc].
  unfold_handler. cbn [db loc log].
  fold (stored_mode (apply_writes (ensure_writes now (db s)) (db s))).
  rewrite ensure_keeps_mode, Hm.
  cbn beta. cbn [db loc log].
  fold (stored_controller (apply_writes (ensure_writes now (db s)) (db s))).
  rewrite ensure_keeps_controller, Hc.
  unfold Stage.setTimeout, current_round, active_session, armed, store_lock.
  simpl. rewrite <- ?app_assoc. reflexivity.
Qed.

Lemma lockHandler_exact (r now : Z) (s : St Stage.t) :
  let sc := tally (Store.round_votes s.(db) r) in
  let delta := calcDelta sc in
  let w := World.mk (Some (clamp (current_stability s.(db) + delta) 0 100))
                    (Some (dominantFromScores sc)) (Some now) (Some r)
                    (Some delta) (Some sc) in
  let ses := Session.mk (Some "locked") (Some r) (Some (now + LOCKED_SECONDS * 1000))
                        (Some 0) (Some s.(loc).(Stage.stageId)) None (Some now) in
  exec (Stage.lockHandler r now) s
  = mkSt (armed (Stage.Unlock r) (now + LOCKED_SECONDS * 1000) store_unlock s.(loc))
         (Store.mk s.(db).(Store.director) ses w s.(db).(Store.votes))
         (s.(log) ++ [SetWorld w; SetSession ses])%list.
Proof.
  unfold Stage.lockHandler, Stage.setTimeout, current_stability, armed, store_unlock.
  unfold_handler. simpl. rewrite <- ?app_assoc. reflexivity.
Qed.

Lemma unlockHandler_exact (r now : Z) (s : St Stage.t) :
  let ses := Session.mk (Some "waiting") (Some r) (Some 0) (Some 0)
                        (Some s.(loc).(Stage.stageId)) None (Some now) in
  exec (Stage.unlockHandler r now) s
  = mkSt s.(loc)
         (Store.mk s.(db).(Store.director) ses s.(db).(Store.world) s.(db).(Store.votes))
         (s.(log) ++ [SetSession ses])%list.
Proof. unfold Stage.unlockHandler. unfold_handler. reflexivity. Qed.

Lemma fresh_below_next (old : list Stage.Timer) (h : nat) :
  Forall (fun tm => (Stage.handle tm < h)%nat) old ->
  Forall (fun tm => (Stage.handle tm < S h)%nat) old.
Proof.
  intros H. eapply Forall_impl; [exact H|]. intros tm Hlt. simpl in *. lia.
Qed.

(** X12. A round runs through the timers [startRound] arms.  Started at
    [now] from a console whose handles are fresh, the round stays active
    until the lock timer is due: fired before [now + 20 s] it does nothing.
    Fired at [t >= now + 20 s], on whatever the store holds by then, it
    tallies the ledger of the round, writes the world for this round id and
    sets the session to [locked] until [t + 6 s].  The unlock timer armed then
    does nothing before [t + 6 s] and afterwards returns the session to
    [waiting] with the round id kept and the world untouched.  Each timer
    fires once, and the armed timers are then those that were armed before
    the round. *)
Theorem round_runs_through_its_timers
    (s : St Stage.t) (reason : string) (now t t' : Z)
    (d d' : Store.t) (l l' : list Write) :
  stored_mode s.(db) = "normal" ->
  stored_controller s.(db) = ""
  \/ stored_controller s.(db) = s.(loc).(Stage.stageId) ->
  fresh_handles s.(loc) ->
  now + 20000 <= t -> t + 6000 <= t' ->
  let h := s.(loc).(Stage.nextHandle) in
  let id := s.(loc).(Stage.stageId) in
  let next := current_round s.(loc) + 1 in
  let s1 := exec (Stage.startRound reason now) s in
  let s2 := exec (Stage.fire h t) (mkSt s1.(loc) d l) in
  let s3 := exec (Stage.fire (S h) t') (mkSt s2.(loc) d' l') in
  (forall u, u < now + 20000 ->
             exec (Stage.fire h u) (mkSt s1.(loc) d l) = mkSt s1.(loc) d l) /\
  s2.(db).(Store.session)
    = Session.mk (Some "locked") (Some next) (Some (t + 6000)) (Some 0) (Some id)
                 None (Some t) /\
  s2.(db).(Store.world).(World.roundId) = Some next /\
  s2.(db).(Store.world).(World.lastScores) = Some (tally (Store.round_votes d next)) /\
  s2.(db).(Store.world).(World.stability)
    = Some (clamp (current_stability d + calcDelta (tally (Store.round_votes d next)))
                  0 100) /\
  (forall u, u < t + 6000 ->
             exec (Stage.fire (S h) u) (mkSt s2.(loc) d' l') = mkSt s2.(loc) d' l') /\
  exec (Stage.fire h t') (mkSt s2.(loc) d' l') = mkSt s2.(loc) d' l' /\
  s3.(db).(Store.session)
    = Session.mk (Some "waiting") (Some next) (Some 0) (Some 0) (Some id) None
                 (Some t') /\
  s3.(db).(Store.world) = d'.(Store.world) /\
  s3.(db).(Store.votes) = d'.(Store.votes) /\
  s3.(loc).(Stage.pending) = s.(loc).(Stage.pending).
Proof.
  intros Hm Hc Hfresh Ht Ht' h id next s1 s2 s3.
  pose proof (guards_pass _ _ Hm Hc) as G.
  assert (E1 : s1.(loc)
               = armed (Stage.Lock next) (now + ACTIVE_SECONDS * 1000) store_lock s.(loc)).
  { subst s1. now rewrite (startRound_accepted_exact reason now s G). }
  assert (F1 : forall u st lg,
             Stage.fire h u (mkSt s1.(loc) st lg)
             = if now + 20000 <=? u
               then Stage.run_callback (Stage.Lock next) u
                      (mkSt (with_pending s.(loc).(Stage.pending) s1.(loc)) st lg)
               else (tt, mkSt s1.(loc) st lg)).
  { intros u st lg.
    apply (fire_last_armed h (now + 20000) u (Stage.Lock next)
             s.(loc).(Stage.pending) (mkSt s1.(loc) st lg)).
    - rewrite E1. reflexivity.
    - exact (proj2 Hfresh). }
  assert (E2 : s2 = exec (Stage.lockHandler next t)
                         (mkSt (with_pending s.(loc).(Stage.pending) s1.(loc)) d l)).
  { subst s2. unfold exec at 1. rewrite F1.
    destruct (Z.leb_spec (now + 20000) t); [reflexivity|lia]. }
  rewrite lockHandler_exact in E2. cbn [loc db log] in E2.
  assert (L2 : s2.(loc)
               = armed (Stage.Unlock next) (t + LOCKED_SECONDS * 1000) store_unlock
                       (with_pending s.(loc).(Stage.pending) s1.(loc)))
    by (rewrite E2; reflexivity).
  assert (F2 : forall u st lg,
             Stage.fire (S h) u (mkSt s2.(loc) st lg)
             = if t + 6000 <=? u
               then Stage.run_callback (Stage.Unlock next) u
                      (mkSt (with_pending s.(loc).(Stage.pending) s2.(loc)) st lg)
               else (tt, mkSt s2.(loc) st lg)).
  { intros u st lg.
    apply (fire_last_armed (S h) (t + 6000) u (Stage.Unlock next)
             s.(loc).(Stage.pending) (mkSt s2.(loc) st lg)).
    - rewrite L2, E1. reflexivity.
    - apply fresh_below_next. exact (proj2 Hfresh). }
  assert (E3 : s3 = exec (Stage.unlockHandler next t')
                         (mkSt (with_pending s.(loc).(Stage.pending) s2.(loc)) d' l')).
  { subst s3. unfold exec at 1. rewrite F2.
    destruct (Z.leb_spec (t + 6000) t'); [reflexivity|lia]. }
  rewrite unlockHandler_exact in E3. cbn [loc db log] in E3.
  split.
  { intros u Hu. unfold exec. rewrite F1.
    destruct (Z.leb_spec (now + 20000) u); [lia|reflexivity]. }
  rewrite E2 at 1 2 3 4. cbn [db Store.session Store.world World.roundId
    World.lastScores World.stability].
  rewrite E1. cbn [with_pending armed Stage.stageId].
  split; [reflexivity|]. split; [reflexivity|]. split; [reflexivity|].
  split; [reflexivity|].
  split.
  { intros u Hu. unfold exec. rewrite F2.
    destruct (Z.leb_spec (t + 6000) u); [lia|reflexivity]. }
  split.
  { unfold exec. rewrite fire_unknown; [reflexivity|].
    intros tm Hin. cbn [loc] in Hin. rewrite L2, E1 in Hin.
    cbn [armed with_pending Stage.pending Stage.nextHandle] in Hin.
    apply elem_of_app in Hin as [Hin|Hin].
    - destruct Hfresh as [_ Hfresh]. rewrite Forall_forall in Hfresh.
      specialize (Hfresh tm Hin). fold h in Hfresh. simpl in Hfresh. lia.
    - apply list_elem_of_singleton in Hin. subst tm. simpl. fold h. lia. }
  rewrite E3. cbn [db loc Store.session Store.world Store.votes].
  rewrite L2, E1. cbn [with_pending armed Stage.stageId Stage.pending].
  repeat split; reflexivity.
Qed.

Lemma round_runs_through_its_timers_witness :
  let s2 := exec (Stage.fire 1 29000) (mkSt started_state.(loc) voted_store []) in
  let s3 := exec (Stage.fire 2 35000) (mkSt s2.(loc) s2.(db) []) in
  fresh_handles waiting_state.(loc) /\
  s2.(db).(Store.session).(Session.state) = Some "locked" /\
  s2.(db).(Store.world).(World.lastScores) = Some (mkScores 4 0 6) /\
  s3.(db).(Store.session).(Session.state) = Some "waiting" /\
  s3.(db).(Store.session).(Session.roundId) = Some 2 /\
  s3.(loc).(Stage.pending) = [].
Proof.
  intros s2 s3.
  assert (Hf : fresh_handles waiting_state.(loc)) by (split; [simpl; lia|constructor]).
  destruct (round_runs_through_its_timers waiting_state "manual" 9000 29000 35000
              voted_store s2.(db) [] [] eq_refl (or_intror eq_refl) Hf
              ltac:(lia) ltac:(lia))
    as (_ & H2 & _ & H4 & _ & _ & _ & H8 & _ & _ & H11).
  split; [exact Hf|].
  split; [exact (f_equal Session.state H2)|].
  split; [exact H4|].
  split; [exact (f_equal Session.state H8)|].
  split; [exact (f_equal Session.roundId H8) | exact H11].
Defined.

(** ** The auto-run cycle *)

Lemma cleared_views (c : Stage.t) :
  (cleared c).(Stage.stageId) = c.(Stage.stageId)
  /\ (cleared c).(Stage.session) = c.(Stage.session)
  /\ (cleared c).(Stage.director) = c.(Stage.director).
Proof. repeat split; reflexivity. Qed.

Lemma start_due_not_before (c : Stage.t) (now : Z) : now <= start_due c now.
Proof.
  unfold start_due, need_new.
  destruct (negb (truthy_num (Session.nextStartsAt (Stage.session c)))); simpl.
  - unfold WAIT_SECONDS. lia.
  - destruct (Z.leb_spec (num_or (Session.nextStartsAt (Stage.session c)) 0) now);
      [unfold WAIT_SECONDS|]; lia.
Qed.

Lemma delay_reaches_due (now due : Z) : now <= due -> now + Z.max 0 (due - now) = due.
Proof. lia. Qed.

Lemma schedulerEffect_exact (now : Z) (s : St Stage.t) :
  exec (Stage.schedulerEffect now) s
  = if scheduler_armed s.(loc)
    then
      let ws := if need_new s.(loc) now
                then [UpdateSession (countdown_patch now)] else [] in
      mkSt (armed Stage.AutoStart (start_due s.(loc) now) store_autoStart
                  (cleared s.(loc)))
           (apply_writes ws s.(db)) (s.(log) ++ ws)%list
    else mkSt (cleared s.(loc)) s.(db) s.(log).
Proof.
  pose proof (start_due_not_before s.(loc) now) as Hdue.
  unfold exec, Stage.schedulerEffect. unfold bind at 1.
  rewrite clearTimers_exact.
  destruct (cleared_views s.(loc)) as (I & S & D).
  destruct (scheduler_armed_congr s.(loc) (cleared s.(loc)) I S D) as [Ha Hn].
  rewrite <- Ha. unfold start_due in *. rewrite <- (Hn now) in *. clear Ha Hn.
  rewrite <- S in Hdue.
  unfold scheduler_armed, need_new in *. unfold_handler. unfold id.
  cbn [db loc log].
  destruct (DirectorView.autoRun (Stage.director (cleared (loc s))));
    cbn [negb andb]; [|reflexivity].
  destruct (str_eq (DirectorView.mode (Stage.director (cleared (loc s)))) "normal");
    cbn [negb andb]; [|reflexivity].
  destruct (Stage.iAmController (cleared (loc s))); cbn [negb andb]; [|reflexivity].
  destruct (is_str (Session.state (Stage.session (cleared (loc s)))) "waiting");
    cbn [negb andb]; [|reflexivity].
  destruct (negb (truthy_num (Session.nextStartsAt (Stage.session (cleared (loc s)))))
            || (num_or (Session.nextStartsAt (Stage.session (cleared (loc s)))) 0
                <=? now));
    unfold Stage.setTimeout, countdown_patch, armed, store_autoStart;
    cbn [fst snd db loc log Stage.nextHandle Stage.pending Stage.timersRef
         Stage.stageId Stage.session Stage.director Stage.scores Stage.total
         Stage.with_timers];
    rewrite ?app_nil_r;
    rewrite (delay_reaches_due _ _ Hdue); reflexivity.
Qed.




(** ** The console and the audience client together *)

Lemma audience_listen_run (a : St Audience.t) :
  exec audience_listen a
  = mkSt (Audience.mk a.(loc).(Audience.deviceId)
            (if Session.exists_ a.(db).(Store.session) then a.(db).(Store.session)
             else Session.mk (Some "waiting") (Some 0) (Some 0) (Some 0) None None None)
            (DirectorView.of_store a.(db).(Store.director))
            a.(loc).(Audience.now) a.(loc).(Audience.last)
            a.(loc).(Audience.lastActionTs) a.(loc).(Audience.normalUsedRound)
            a.(loc).(Audience.abilityUsedRound))
         a.(db) a.(log).
Proof.
  unfold audience_listen, Audience.on_director, Audience.on_session.
  unfold_handler. reflexivity.
Qed.

Lemma exists_of_state (x : Session.t) (st : string) :
  x.(Session.state) = Some st -> Session.exists_ x = true.
Proof. destruct x as [[?|] ? ? ? ? ? ?]; [reflexivity|discriminate]. Qed.

Lemma perform_closes_round (op : Stage.Operation) (now : Z) (s : St Stage.t) :
  closes_round op = true ->
  (exec (Stage.perform op now) s).(db).(Store.session).(Session.state) = Some "frozen"
  \/ (exec (Stage.perform op now) s).(db).(Store.session).(Session.state)
     = Some "waiting".
Proof.
  intros Hc. destruct op as [[|]| | | | | |]; try discriminate; cbn [Stage.perform].
  - right. rewrite setAutoRun_run. reflexivity.
  - left. destruct (freeze_like_run "freeze" Stage.freeze now s) as (c' & E & _);
      [now left|]. now rewrite E.
  - left. destruct (freeze_like_run "blackout" Stage.blackout now s) as (c' & E & _);
      [now right|]. now rewrite E.
  - right. now rewrite resume_run.
  - right. destruct (restart_run now s) as (c' & E & _). now rewrite E.
Qed.

Lemma inactive_refuses (a : St Audience.t) (ty : string) (pw : Z) (k : string)
    (tnow : Z) :
  Audience.isActive a.(loc) = false ->
  exec (Audience.sendVote ty pw k tnow) a = a.
Proof. intros H. unfold exec. rewrite sendVote_run, H. reflexivity. Qed.

(** X14. Freeze, blackout, resume, restart and turning auto-run on all
    close the voting: once a device's listeners have delivered the store
    that such an operation leaves, the device is not active, both kinds of
    buttons are disabled, and [sendVote] changes nothing whatever its
    arguments. *)
Theorem controls_close_voting
    (s : St Stage.t) (op : Stage.Operation) (now : Z)
    (a : Audience.t) (l : list Write) :
  closes_round op = true ->
  let d1 := (exec (Stage.perform op now) s).(db) in
  let a1 := exec audience_listen (mkSt a d1 l) in
  Audience.isActive a1.(loc) = false /\
  Audience.normalAvailable a1.(loc) = false /\
  Audience.abilityAvailable a1.(loc) = false /\
  (forall ty pw k tnow, exec (Audience.sendVote ty pw k tnow) a1 = a1) /\
  (forall tnow, exec (Audience.useAbility tnow) a1 = a1).
Proof.
  intros Hc d1 a1.
  assert (Hi : Audience.isActive a1.(loc) = false).
  { subst a1. rewrite audience_listen_run. cbn [loc db].
    unfold Audience.isActive. cbn [Audience.session].
    destruct (perform_closes_round op now s Hc) as [Hst|Hst]; fold d1 in Hst;
      rewrite (exists_of_state _ _ Hst), Hst; simpl;
      now rewrite ?andb_false_r. }
  split; [exact Hi|].
  split; [unfold Audience.normalAvailable; now rewrite Hi|].
  split; [unfold Audience.abilityAvailable; now rewrite Hi|].
  split.
  - intros ty pw k tnow. now apply inactive_refuses.
  - intros tnow. unfold exec. rewrite useAbility_by_role.
    now apply (inactive_refuses a1 _ 3 "ability" tnow).
Qed.

Lemma controls_close_voting_witness :
  let a0 := exec audience_listen (mkSt voter_state.(loc) started_state.(db) []) in
  let a1 := exec audience_listen
              (mkSt voter_state.(loc)
                    (exec (Stage.perform Stage.OpBlackout 12000) started_state).(db) []) in
  Audience.isActive a0.(loc) = true /\
  Audience.isActive a1.(loc) = false /\
  exec (Audience.sendVote "stable" 1 "normal" 12001) a1 = a1.
Proof.
  intros a0 a1.
  destruct (controls_close_voting started_state Stage.OpBlackout 12000
              voter_state.(loc) [] eq_refl) as (Hi & _ & _ & Hs & _).
  split; [reflexivity|]. split; [exact Hi|]. apply Hs.
Defined.

Lemma ensured_view_mode (now : Z) (d : Store.t) :
  stored_mode d = "normal" ->
  (DirectorView.of_store (apply_writes (ensure_writes now d) d).(Store.director))
    .(DirectorView.mode) = "normal".
Proof.
  unfold stored_mode, ensure_writes. intros Hm.
  destruct d as [[[m|] [b|]] ses wo vs]; simpl in *; subst;
    destruct (World.stability wo); reflexivity.
Qed.

Lemma num_or_zero (x : Z) : num_or (Some x) 0 = x.
Proof. simpl. destruct (Z.eqb_spec x 0); congruence. Qed.

(** X15. A vote cast in a round is what the round's lock counts.  After an
    accepted [startRound] the ledger of the new round is empty, whatever
    stale entries it held.  A device whose listeners have delivered, whose
    ticker is before the round's end, whose cooldown has elapsed and which
    has not used this kind of vote in this round gets its vote written under
    the new round id; the ledger of the round then holds exactly this entry,
    and the lock handler of the round persists its tally and delta. *)
Theorem vote_of_the_round_is_counted
    (s : St Stage.t) (a : Audience.t) (reason ty k : string) (pw now tnow tl : Z) :
  stored_mode s.(db) = "normal" ->
  stored_controller s.(db) = ""
  \/ stored_controller s.(db) = s.(loc).(Stage.stageId) ->
  0 <= current_round s.(loc) ->
  k = "normal" \/ k = "ability" ->
  a.(Audience.now) < now + 20000 ->
  COOLDOWN_MS <= a.(Audience.now) - a.(Audience.lastActionTs) ->
  used_round a k <> current_round s.(loc) + 1 ->
  let next := current_round s.(loc) + 1 in
  let v := vote_entry a ty pw k tnow in
  let s1 := exec (Stage.startRound reason now) s in
  let a1 := exec audience_listen (mkSt a s1.(db) s1.(log)) in
  let a2 := exec (Audience.sendVote ty pw k tnow) a1 in
  let s3 := exec (Stage.lockHandler next tl) (mkSt s1.(loc) a2.(db) a2.(log)) in
  Store.round_votes s1.(db) next = [] /\
  writes_of (Audience.sendVote ty pw k tnow) a1 = [PushVote next v] /\
  Store.round_votes a2.(db) next = [v] /\
  s3.(db).(Store.world).(World.roundId) = Some next /\
  s3.(db).(Store.world).(World.lastScores) = Some (tally [v]) /\
  s3.(db).(Store.world).(World.lastDelta) = Some (calcDelta (tally [v])).
Proof.
  intros Hm Hc Hr Hk Hnow Hcool Hused next v s1 a1 a2 s3.
  pose proof (guards_pass _ _ Hm Hc) as G.
  pose proof (startRound_accepted_exact reason now s G) as E1. fold s1 in E1.
  fold next in E1. cbn zeta in E1.
  assert (Hv1 : Store.round_votes s1.(db) next = []).
  { rewrite E1. unfold Store.round_votes. simpl. now rewrite lookup_delete_eq. }
  assert (Hses : s1.(db).(Store.session)
                 = active_session s.(loc).(Stage.stageId) reason next now)
    by (rewrite E1; reflexivity).
  assert (Hdir : s1.(db).(Store.director)
                 = (apply_writes (ensure_writes now s.(db)) s.(db)).(Store.director))
    by (rewrite E1; reflexivity).
  assert (L1 : a1.(loc)
               = Audience.mk a.(Audience.deviceId)
                   (active_session s.(loc).(Stage.stageId) reason next now)
                   (DirectorView.of_store
                      (apply_writes (ensure_writes now s.(db)) s.(db)).(Store.director))
                   a.(Audience.now) a.(Audience.last) a.(Audience.lastActionTs)
                   a.(Audience.normalUsedRound) a.(Audience.abilityUsedRound)).
  { subst a1. rewrite audience_listen_run. cbn [loc db]. now rewrite Hses, Hdir. }
  assert (D1 : a1.(db) = s1.(db)) by (subst a1; now rewrite audience_listen_run).
  assert (Ha : vote_allowed a1.(loc) k).
  { rewrite L1. unfold vote_allowed, used_round.
    cbn [Audience.director Audience.session Audience.now Audience.lastActionTs
         Audience.normalUsedRound Audience.abilityUsedRound active_session
         Session.state Session.roundId Session.endsAt].
    split; [now apply ensured_view_mode|]. split; [reflexivity|].
    split; [exists next; split; [reflexivity|]; split; [unfold next; lia|exact Hused]|].
    rewrite num_or_zero. unfold ACTIVE_SECONDS. split; [lia|exact Hcool]. }
  assert (Hrid : a1.(loc).(Audience.session).(Session.roundId) = Some next)
    by (rewrite L1; reflexivity).
  assert (Hent : vote_entry a1.(loc) ty pw k tnow = v)
    by (rewrite L1; reflexivity).
  pose proof (sendVote_allowed ty pw k tnow a1 next Hk Ha Hrid) as E2.
  fold a2 in E2. rewrite Hent in E2.
  assert (Hv2 : Store.round_votes a2.(db) next = [v]).
  { rewrite E2. cbn [db]. unfold Store.round_votes at 1.
    unfold apply_write. cbn [Store.votes]. rewrite lookup_insert_eq.
    rewrite D1, Hv1. reflexivity. }
  split; [exact Hv1|].
  split; [unfold writes_of; fold a2; rewrite E2; apply drop_own_log|].
  split; [exact Hv2|].
  subst s3. rewrite lockHandler_exact. cbn [db loc Store.world World.roundId
    World.lastScores World.lastDelta]. rewrite Hv2. auto.
Qed.

Lemma vote_of_the_round_is_counted_witness :
  let s1 := exec (Stage.startRound "auto" 9000) waiting_state in
  let a1 := exec audience_listen (mkSt idle_voter s1.(db) s1.(log)) in
  let a2 := exec (Audience.sendVote "override" 3 "ability" 9700) a1 in
  let s3 := exec (Stage.lockHandler 2 29000) (mkSt s1.(loc) a2.(db) a2.(log)) in
  used_round idle_voter "ability" <> 2 /\
  s3.(db).(Store.world).(World.lastScores) = Some (mkScores 0 0 3) /\
  s3.(db).(Store.world).(World.lastDelta) = Some (-9).
Proof.
  intros s1 a1 a2 s3.
  assert (Hu : used_round idle_voter "ability" <> current_round waiting_state.(loc) + 1).
  { vm_compute. discriminate. }
  destruct (vote_of_the_round_is_counted waiting_state idle_voter
              "auto" "override" "ability" 3 9000 9700 29000
              eq_refl (or_intror eq_refl) ltac:(unfold current_round; simpl; lia)
              (or_intror eq_refl) ltac:(simpl; lia)
              ltac:(simpl; unfold COOLDOWN_MS; lia) Hu)
    as (_ & _ & _ & _ & Hsc & Hd).
  split; [exact Hu|]. split; [exact Hsc | exact Hd].
Defined.

(** ** The performer display *)

Lemma pulseEffect_run (lower : string -> string) (p : St Performer.t) :
  let c := p.(loc) in
  exec (Performer.pulseEffect lower) p
  = if (c.(Performer.world).(Performer.updatedAt) =? 0)
       || (c.(Performer.world).(Performer.updatedAt) =? c.(Performer.lastUpdateRef))
    then p
    else mkSt (Performer.mk c.(Performer.director) c.(Performer.session)
                 c.(Performer.world) (c.(Performer.pulse) + 1)
                 (if str_eq (Performer.dominantShown lower c) "override"
                  then c.(Performer.reflash) + 1 else c.(Performer.reflash))
                 c.(Performer.world).(Performer.updatedAt))
              p.(db) p.(log).
Proof.
  unfold Performer.pulseEffect. unfold_handler. destruct p as [c d l]. simpl.
  destruct (Performer.updatedAt (Performer.world c) =? 0); [reflexivity|].
  destruct (Performer.updatedAt (Performer.world c) =? Performer.lastUpdateRef c);
    reflexivity.
Qed.

(** X16. The performer display pulses once per applied result.  The effect
    on [world.updatedAt] touches nothing while [updatedAt] is 0 or equals the
    time stamp it saw last; otherwise it adds one to [pulse], remembers the
    time stamp, and adds one to [reflash] exactly when the dominant shown is
    "override".  Run again on its own result it changes nothing, and it
    never writes to the store. *)
Theorem performer_pulses_once_per_update (lower : string -> string)
    (p : St Performer.t) :
  let c := p.(loc) in
  let p1 := exec (Performer.pulseEffect lower) p in
  exec (Performer.pulseEffect lower) p1 = p1 /\
  p1.(db) = p.(db) /\ p1.(log) = p.(log) /\
  (c.(Performer.world).(Performer.updatedAt) = 0
   \/ c.(Performer.world).(Performer.updatedAt) = c.(Performer.lastUpdateRef) ->
   p1 = p) /\
  (c.(Performer.world).(Performer.updatedAt) <> 0 ->
   c.(Performer.world).(Performer.updatedAt) <> c.(Performer.lastUpdateRef) ->
   p1.(loc).(Performer.pulse) = c.(Performer.pulse) + 1 /\
   p1.(loc).(Performer.lastUpdateRef) = c.(Performer.world).(Performer.updatedAt) /\
   p1.(loc).(Performer.world) = c.(Performer.world) /\
   p1.(loc).(Performer.reflash)
   = if str_eq (Performer.dominantShown lower c) "override"
     then c.(Performer.reflash) + 1 else c.(Performer.reflash)).
Proof.
  intros c p1. pose proof (pulseEffect_run lower p) as E. fold p1 in E. fold c in E.
  cbn zeta in E.
  destruct (Z.eqb_spec (Performer.updatedAt (Performer.world c)) 0) as [H0|H0];
    [|destruct (Z.eqb_spec (Performer.updatedAt (Performer.world c))
                           (Performer.lastUpdateRef c)) as [H1|H1]];
    cbn [orb] in E.
  - rewrite E. split; [exact E|]. split; [reflexivity|]. split; [reflexivity|].
    split; [reflexivity|]. intros Hn. contradiction.
  - rewrite E. split; [exact E|]. split; [reflexivity|]. split; [reflexivity|].
    split; [reflexivity|]. intros _ Hn. contradiction.
  - split.
    + rewrite pulseEffect_run. rewrite E. cbn [loc Performer.world Performer.lastUpdateRef].
      now rewrite Z.eqb_refl, orb_true_r.
    + rewrite E. cbn [db log loc Performer.pulse Performer.lastUpdateRef
        Performer.world Performer.reflash].
      split; [reflexivity|]. split; [reflexivity|].
      split; [intros [H|H]; contradiction|]. intros _ _. auto.
Qed.

Lemma performer_pulses_once_per_update_witness :
  let p := mkSt (Performer.mk DirectorView.initial Session.initial
                              (Performer.mkWorld 56 "override" 20000) 0 0 0)
                Store.empty [] in
  let p1 := exec (Performer.pulseEffect (fun x => x)) p in
  p1.(loc).(Performer.pulse) = 1 /\
  p1.(loc).(Performer.reflash) = 1 /\
  exec (Performer.pulseEffect (fun x => x)) p1 = p1.
Proof.
  intros p p1.
  destruct (performer_pulses_once_per_update (fun x => x) p)
    as (Hidem & _ & _ & _ & Hpulse).
  destruct (Hpulse ltac:(simpl; lia) ltac:(simpl; lia)) as (Hp & _ & _ & Hr).
  split; [exact Hp|]. split; [exact Hr | exact Hidem].
Defined.

Lemma performer_listen_run (p : St Performer.t) :
  exec performer_listen p
  = mkSt (Performer.mk
            (DirectorView.of_store p.(db).(Store.director))
            (if Session.exists_ p.(db).(Store.session) then p.(db).(Store.session)
             else Session.mk (Some "waiting") (Some 0) None None None None None)
            (if Performer.world_exists p.(db).(Store.world)
             then world_view p.(db).(Store.world) else p.(loc).(Performer.world))
            p.(loc).(Performer.pulse) p.(loc).(Performer.reflash)
            p.(loc).(Performer.lastUpdateRef))
         p.(db) p.(log).
Proof.
  unfold performer_listen, Performer.on_director, Performer.on_session,
    Performer.on_world, world_view.
  unfold_handler. cbn [db loc log fst snd].
  destruct (Performer.world_exists (Store.world (db p))); destruct p as [[] ? ?];
    reflexivity.
Qed.

Lemma dominant_shown_as_written (sc : Scores) :
  str_or (Some (dominantFromScores sc)) "stable" = dominantFromScores sc.
Proof.
  unfold dominantFromScores.
  destruct (glitch sc =? max3 (stable sc) (glitch sc) (override sc)); [reflexivity|].
  destruct (override sc =? max3 (stable sc) (glitch sc) (override sc)); reflexivity.
Qed.

Lemma view_after_control (mode : string) (autoRun : bool) :
  mode <> "" ->
  DirectorView.of_store (Director.mk (Some mode) (Some autoRun))
  = DirectorView.mk mode autoRun.
Proof.
  intros Hne. unfold DirectorView.of_store. simpl.
  destruct (str_eq_spec mode "") as [E|]; [contradiction|reflexivity].
Qed.

(** X17. The performer display follows the console.  After the lock
    handler has run at [tl], one delivery shows the clamped stability, the
    dominant outcome and the time stamp the handler wrote and pulses once; a
    second delivery of the same record changes nothing.  After a freeze the
    title is "FROZEN" and the hint "SYSTEM PAUSED", after a blackout the title
    is "BLACKOUT" and the hint empty, whatever the session and the world
    were; after a resume the hint is "WAITING FOR INPUT". *)
Theorem performer_follows_the_console
    (lower upper : string -> string) (s : St Stage.t) (p : Performer.t)
    (l : list Write) (r tl now : Z) :
  (tl <> 0 -> tl <> p.(Performer.lastUpdateRef) ->
   let sc := tally (Store.round_votes s.(db) r) in
   let d := (exec (Stage.lockHandler r tl) s).(db) in
   let p1 := exec (performer_update lower) (mkSt p d l) in
   p1.(loc).(Performer.world)
   = Performer.mkWorld (clamp (current_stability s.(db) + calcDelta sc) 0 100)
                       (dominantFromScores sc) tl /\
   p1.(loc).(Performer.pulse) = p.(Performer.pulse) + 1 /\
   exec (performer_update lower) p1 = p1) /\
  (let pf := exec performer_listen
                  (mkSt p (exec (Stage.freeze now) s).(db) l) in
   Performer.labelText lower upper pf.(loc) = "FROZEN" /\
   Performer.hint pf.(loc) = "SYSTEM PAUSED") /\
  (let pb := exec performer_listen
                  (mkSt p (exec (Stage.blackout now) s).(db) l) in
   Performer.labelText lower upper pb.(loc) = "BLACKOUT" /\
   Performer.hint pb.(loc) = "") /\
  (let pr := exec performer_listen
                  (mkSt p (exec (Stage.resume now) s).(db) l) in
   Performer.hint pr.(loc) = "WAITING FOR INPUT" /\
   Performer.labelText lower upper pr.(loc)
   = upper (Performer.dominantShown lower pr.(loc))).
Proof.
  split; [|split; [|split]].
  - intros H0 Hne sc d p1.
    assert (Ed : d = Store.mk s.(db).(Store.director)
                   (Session.mk (Some "locked") (Some r) (Some (tl + LOCKED_SECONDS * 1000))
                               (Some 0) (Some s.(loc).(Stage.stageId)) None (Some tl))
                   (World.mk (Some (clamp (current_stability s.(db) + calcDelta sc) 0 100))
                             (Some (dominantFromScores sc)) (Some tl) (Some r)
                             (Some (calcDelta sc)) (Some sc))
                   s.(db).(Store.votes)).
    { subst d. now rewrite lockHandler_exact. }
    assert (E1 : p1 = mkSt
                   (Performer.mk (DirectorView.of_store s.(db).(Store.director))
                      (Session.mk (Some "locked") (Some r)
                                  (Some (tl + LOCKED_SECONDS * 1000)) (Some 0)
                                  (Some s.(loc).(Stage.stageId)) None (Some tl))
                      (Performer.mkWorld
                         (clamp (current_stability s.(db) + calcDelta sc) 0 100)
                         (dominantFromScores sc) tl)
                      (p.(Performer.pulse) + 1)
                      (if str_eq (lower (dominantFromScores sc)) "override"
                       then p.(Performer.reflash) + 1 else p.(Performer.reflash))
                      tl)
                   d l).
    { subst p1. unfold performer_update. rewrite exec_seq, performer_listen_run.
      rewrite pulseEffect_run. cbn [loc db log]. rewrite Ed.
      unfold world_view.
      cbn [Store.world Store.session Store.director Performer.world_exists
           Session.exists_ World.stability World.dominant World.updatedAt
           Performer.world Performer.updatedAt Performer.lastUpdateRef
           Performer.director Performer.session Performer.pulse Performer.reflash].
      rewrite dominant_shown_as_written, num_or_zero.
      destruct (Z.eqb_spec tl 0); [contradiction|].
      destruct (Z.eqb_spec tl (Performer.lastUpdateRef p)); [contradiction|].
      cbn [orb]. unfold Performer.dominantShown. cbn [Performer.world Performer.dominant].
      now rewrite dominant_shown_as_written. }
    split; [now rewrite E1|]. split; [now rewrite E1|].
    unfold performer_update. rewrite exec_seq, performer_listen_run, pulseEffect_run.
    rewrite E1. cbn [loc db log]. rewrite Ed.
    unfold world_view.
    cbn [Store.world Store.session Store.director Performer.world_exists
         Session.exists_ World.stability World.dominant World.updatedAt
         Performer.world Performer.updatedAt Performer.lastUpdateRef
         Performer.director Performer.session Performer.pulse Performer.reflash].
    rewrite dominant_shown_as_written, num_or_zero, Z.eqb_refl, orb_true_r.
    reflexivity.
  - intros pf. subst pf. rewrite performer_listen_run. cbn [loc db].
    destruct (freeze_like_run "freeze" Stage.freeze now s) as (c' & E & _);
      [now left|]. rewrite E. cbn [db apply_writes fold_left].
    unfold Performer.labelText, Performer.hint, Performer.blackout, Performer.frozen.
    cbn [Performer.director Performer.session]. simpl Store.director.
    unfold Stage.with_mode. rewrite view_after_control by discriminate. split; reflexivity.
  - intros pb. subst pb. rewrite performer_listen_run. cbn [loc db].
    destruct (freeze_like_run "blackout" Stage.blackout now s) as (c' & E & _);
      [now right|]. rewrite E. cbn [db apply_writes fold_left].
    unfold Performer.labelText, Performer.hint, Performer.blackout, Performer.frozen.
    cbn [Performer.director Performer.session]. simpl Store.director.
    unfold Stage.with_mode. rewrite view_after_control by discriminate. split; reflexivity.
  - intros pr. subst pr. rewrite performer_listen_run. cbn [loc db].
    rewrite resume_run. cbn [db apply_writes fold_left].
    unfold Performer.labelText, Performer.hint, Performer.blackout, Performer.frozen,
      Performer.active, Performer.locked.
    cbn [Performer.director Performer.session]. simpl Store.director.
    simpl Store.session.
    unfold Stage.with_mode. rewrite view_after_control by discriminate.
    split; reflexivity.
Qed.

Lemma performer_follows_the_console_witness :
  let d := (exec (Stage.lockHandler 1 20000) scenario_state).(db) in
  let p1 := exec (performer_update (fun x => x)) (mkSt Performer.mount d []) in
  p1.(loc).(Performer.world) = Performer.mkWorld 56 "override" 20000 /\
  p1.(loc).(Performer.pulse) = 1 /\
  exec (performer_update (fun x => x)) p1 = p1.
Proof.
  intros d p1.
  destruct (performer_follows_the_console (fun x => x) (fun x => x) scenario_state
              Performer.mount [] 1 20000 0) as (H & _).
  exact (H ltac:(lia) ltac:(simpl; lia)).
Defined.

Lemma perform_keeps_overlay_witness :
  frozen_under_overlay frozen_state.(db) /\
  frozen_under_overlay
    (exec (Stage.perform (Stage.OpSetAutoRun true) 5000) frozen_state).(db) /\
  frozen_under_overlay
    (exec (Stage.perform Stage.OpBlackout 5000) frozen_state).(db).
Proof.
  assert (H : frozen_under_overlay frozen_state.(db)).
  { intros _. discriminate. }
  split; [exact H|]. split.
  - exact (perform_keeps_overlay frozen_state (Stage.OpSetAutoRun true) 5000 H).
  - exact (perform_keeps_overlay frozen_state Stage.OpBlackout 5000 H).
Defined.

(** ** The scheduler effect and a running round *)

(** X19. Every evaluation of the scheduler effect begins with
    [clearTimers], so it also cancels the lock timer of a round in progress:
    if the effect is evaluated after [startRound] has armed that timer, the
    timer never fires, whatever the store holds and whenever it is tried, and
    the console no longer knows a lock handle. *)
Theorem scheduler_evaluation_cancels_lock_timer
    (s : St Stage.t) (reason : string) (now t : Z) (d : Store.t) (l : list Write) :
  stored_mode s.(db) = "normal" ->
  stored_controller s.(db) = ""
  \/ stored_controller s.(db) = s.(loc).(Stage.stageId) ->
  fresh_handles s.(loc) ->
  let h := s.(loc).(Stage.nextHandle) in
  let s1 := exec (Stage.startRound reason now) s in
  let s2 := exec (Stage.schedulerEffect t) (mkSt s1.(loc) d l) in
  s1.(loc).(Stage.timersRef).(Stage.lock) = Some h /\
  (exists tm, tm ∈ s1.(loc).(Stage.pending) /\ tm.(Stage.handle) = h
              /\ tm.(Stage.callback) = Stage.Lock (current_round s.(loc) + 1)) /\
  s2.(loc).(Stage.timersRef).(Stage.lock) = None /\
  (forall u d' l',
      exec (Stage.fire h u) (mkSt s2.(loc) d' l') = mkSt s2.(loc) d' l').
Proof.
  intros Hm Hc Hfresh h s1 s2.
  pose proof (guards_pass _ _ Hm Hc) as G.
  assert (E1 : s1.(loc)
               = armed (Stage.Lock (current_round s.(loc) + 1))
                       (now + ACTIVE_SECONDS * 1000) store_lock s.(loc)).
  { subst s1. now rewrite (startRound_accepted_exact reason now s G). }
  assert (Hk : known_handle s1.(loc).(Stage.timersRef) h)
    by (rewrite E1; right; left; reflexivity).
  assert (Hnext : s1.(loc).(Stage.nextHandle) = S h) by (rewrite E1; reflexivity).
  split; [rewrite E1; reflexivity|].
  split.
  { eexists. rewrite E1. cbn [armed Stage.pending]. split.
    - apply elem_of_app. right. apply list_elem_of_singleton. reflexivity.
    - split; reflexivity. }
  pose proof (schedulerEffect_exact t (mkSt s1.(loc) d l)) as E2. fold s2 in E2.
  cbn [loc db log] in E2.
  assert (Hgone : forall tm, tm ∈ s2.(loc).(Stage.pending) -> tm.(Stage.handle) <> h).
  { intros tm Hin Hh. rewrite E2 in Hin.
    destruct (scheduler_armed (loc s1)); cbn [loc armed Stage.pending] in Hin.
    - apply elem_of_app in Hin as [Hin|Hin].
      + apply cleared_pending in Hin as [_ Hn]. apply Hn. now rewrite Hh.
      + apply list_elem_of_singleton in Hin. subst tm. simpl in Hh.
        change (Stage.nextHandle (cleared (loc s1)))
          with (Stage.nextHandle (loc s1)) in Hh. lia.
    - apply cleared_pending in Hin as [_ Hn]. apply Hn. now rewrite Hh. }
  split.
  { rewrite E2. destruct (scheduler_armed (loc s1)); reflexivity. }
  intros u d' l'. unfold exec. rewrite fire_unknown; [reflexivity|]. exact Hgone.
Qed.

Lemma scheduler_evaluation_cancels_lock_timer_witness :
  let s2 := exec (Stage.schedulerEffect 12000) started_state in
  fresh_handles waiting_state.(loc) /\
  started_state.(loc).(Stage.timersRef).(Stage.lock) = Some 1%nat /\
  s2.(loc).(Stage.timersRef).(Stage.lock) = None /\
  exec (Stage.fire 1 29000) s2 = s2.
Proof.
  intros s2.
  assert (Hf : fresh_handles waiting_state.(loc)) by (split; [simpl; lia|constructor]).
  destruct (scheduler_evaluation_cancels_lock_timer waiting_state "manual" 9000 12000
              started_state.(db) started_state.(log)
              eq_refl (or_intror eq_refl) Hf) as (H1 & _ & H3 & H4).
  split; [exact Hf|]. split; [exact H1|]. split; [exact H3|].
  exact (H4 29000 s2.(db) s2.(log)).
Defined.

(** ** The auto-run button *)

Lemma toggleAutoRun_run (now : Z) (s : St Stage.t) :
  exec (Stage.toggleAutoRun now) s
  = exec (Stage.setAutoRun (negb s.(loc).(Stage.director).(DirectorView.autoRun)) now) s.
Proof. unfold Stage.toggleAutoRun. unfold exec, bind, local. reflexivity. Qed.

(** X20. The button "Auto-run: Turn ON / Turn OFF" writes the negation of
    the [autoRun] the console shows and leaves the director mode alone.
    Turning it off never touches the session; turning it on writes
    [state = waiting] and keeps every other session field.  It never writes
    the ledger.  With the director listener delivering in between, a second
    press restores the value the console showed first. *)
Theorem autorun_button_toggles (s : St Stage.t) (now now' : Z) :
  let shown := s.(loc).(Stage.director).(DirectorView.autoRun) in
  let s1 := exec (Stage.toggleAutoRun now) s in
  let s2 := exec (Stage.toggleAutoRun now') (exec Stage.on_director s1) in
  s1.(db).(Store.director).(Director.autoRun) = Some (negb shown) /\
  stored_mode s1.(db) = stored_mode s.(db) /\
  s1.(db).(Store.votes) = s.(db).(Store.votes) /\
  (shown = true -> s1.(db).(Store.session) = s.(db).(Store.session)) /\
  (shown = false ->
   s1.(db).(Store.session)
   = Session.mk (Some "waiting") s.(db).(Store.session).(Session.roundId)
                s.(db).(Store.session).(Session.endsAt)
                s.(db).(Store.session).(Session.nextStartsAt)
                s.(db).(Store.session).(Session.controllerId)
                s.(db).(Store.session).(Session.startedBy)
                s.(db).(Store.session).(Session.updatedAt)) /\
  s2.(db).(Store.director).(Director.autoRun) = Some shown.
Proof.
  intros shown s1 s2.
  assert (E1 : s1 = exec (Stage.setAutoRun (negb shown) now) s)
    by (subst s1; apply toggleAutoRun_run).
  rewrite setAutoRun_run in E1.
  assert (Hauto : s1.(db).(Store.director).(Director.autoRun) = Some (negb shown)).
  { rewrite E1. destruct shown; reflexivity. }
  split; [exact Hauto|].
  split.
  { rewrite E1. cbn [db].
    destruct (negb shown); cbn [apply_writes fold_left];
      unfold stored_mode; simpl;
      fold (stored_mode (apply_writes (ensure_writes now (db s)) (db s)));
      apply ensure_keeps_mode. }
  split.
  { rewrite E1. cbn [db].
    destruct (negb shown); cbn [apply_writes fold_left]; simpl;
      apply ensure_keeps_votes. }
  split.
  { intros Hs. rewrite E1, Hs. cbn [negb db apply_writes fold_left]. simpl.
    apply ensure_keeps_session. }
  split.
  { intros Hs. rewrite E1, Hs. cbn [negb db apply_writes fold_left]. simpl.
    rewrite ensure_keeps_session. reflexivity. }
  subst s2. rewrite toggleAutoRun_run, setAutoRun_run.
  assert (Hview : (exec Stage.on_director s1).(loc).(Stage.director).(DirectorView.autoRun)
                  = negb shown).
  { unfold Stage.on_director. unfold_handler. cbn beta iota.
    cbn [snd loc Stage.director]. rewrite (of_store_autoRun (Store.director (db s1))).
    rewrite Hauto. reflexivity. }
  rewrite Hview, negb_involutive. cbn [db].
  destruct shown; reflexivity.
Qed.

(** ** Persistent ids *)

Lemma getOrCreateId_stored (key fresh id : string) (ls : gmap string string) :
  ls !! key = Some id -> id <> "" -> getOrCreateId key fresh ls = (id, ls).
Proof.
  intros Hl Hne. unfold getOrCreateId. rewrite Hl.
  apply str_eq_false in Hne. now rewrite Hne.
Qed.

Lemma getOrCreateId_spec (key fresh : string) (ls : gmap string string) :
  fresh <> "" ->
  let id := fst (getOrCreateId key fresh ls) in
  let ls1 := snd (getOrCreateId key fresh ls) in
  id <> "" /\ ls1 !! key = Some id /\
  (forall k, k <> key -> ls1 !! k = ls !! k) /\
  (forall old, ls !! key = Some old -> old <> "" -> id = old /\ ls1 = ls) /\
  (ls !! key = None \/ ls !! key = Some "" -> id = fresh).
Proof.
  intros Hf. unfold getOrCreateId.
  destruct (ls !! key) as [old|] eqn:Hl.
  - destruct (str_eq_spec old "") as [He|Hne]; simpl.
    + split; [assumption|]. split; [apply lookup_insert_eq|].
      split; [intros k Hk; now apply lookup_insert_ne|].
      split; [intros o Ho Hno; congruence | reflexivity].
    + split; [assumption|]. split; [assumption|].
      split; [reflexivity|].
      split; [intros o Ho _; split; congruence|].
      intros [H|H]; congruence.
  - simpl. split; [assumption|]. split; [apply lookup_insert_eq|].
    split; [intros k Hk; now apply lookup_insert_ne|].
    split; [intros o Ho; discriminate | reflexivity].
Qed.

(** X21. The ids are stable per browser.  [getOrCreateStageId] and
    [getOrCreateDeviceId] return the id stored under their key when there is
    a non-empty one, without touching the storage; otherwise they store the
    freshly generated id (non-empty) under their key only and return it.  In
    both cases the id returned is not empty, every later call returns the
    same id and leaves the storage as it is, and the two keys do not
    interfere; hence a device keeps its role. *)
Theorem ids_are_stable_per_browser
    (fresh fresh' other : string) (ls : gmap string string) :
  fresh <> "" ->
  let sid := fst (getOrCreateStageId fresh ls) in
  let ls1 := snd (getOrCreateStageId fresh ls) in
  let did := fst (getOrCreateDeviceId other ls1) in
  let ls2 := snd (getOrCreateDeviceId other ls1) in
  sid <> "" /\
  getOrCreateStageId fresh' ls1 = (sid, ls1) /\
  (forall old, ls !! "sx_stage_id" = Some old -> old <> "" -> sid = old /\ ls1 = ls) /\
  (ls !! "sx_stage_id" = None \/ ls !! "sx_stage_id" = Some "" ->
   sid = fresh /\ ls1 = <["sx_stage_id" := fresh]> ls) /\
  (forall k, k <> "sx_stage_id" -> ls1 !! k = ls !! k) /\
  (other <> "" ->
   getOrCreateStageId fresh' ls2 = (sid, ls2) /\
   getOrCreateDeviceId fresh' ls2 = (did, ls2) /\
   Audience.roleFromDeviceId (fst (getOrCreateDeviceId fresh' ls2))
   = Audience.roleFromDeviceId did).
Proof.
  intros Hf sid ls1 did ls2.
  destruct (getOrCreateId_spec "sx_stage_id" fresh ls Hf)
    as (Hne & Hl & Hframe & Hold & Hnew).
  fold getOrCreateStageId in Hne, Hl, Hframe, Hold, Hnew.
  fold sid in Hne, Hl, Hold, Hnew. fold ls1 in Hl, Hframe, Hold.
  split; [exact Hne|].
  split; [apply (getOrCreateId_stored _ _ _ _ Hl Hne)|].
  split; [exact Hold|].
  split.
  { intros Hcase. split; [now apply Hnew|]. subst ls1.
    unfold getOrCreateStageId, getOrCreateId.
    destruct Hcase as [-> | ->]; reflexivity. }
  split; [exact Hframe|].
  intros Ho.
  destruct (getOrCreateId_spec "sx_device_id" other ls1 Ho)
    as (Hdne & Hdl & Hdframe & _ & _).
  fold getOrCreateDeviceId in Hdne, Hdl, Hdframe.
  fold did in Hdne, Hdl. fold ls2 in Hdl, Hdframe.
  assert (Hs2 : ls2 !! "sx_stage_id" = Some sid).
  { rewrite Hdframe by discriminate. exact Hl. }
  assert (Ed : getOrCreateDeviceId fresh' ls2 = (did, ls2))
    by apply (getOrCreateId_stored _ _ _ _ Hdl Hdne).
  split; [apply (getOrCreateId_stored _ _ _ _ Hs2 Hne)|].
  split; [exact Ed|]. now rewrite Ed.
Qed.

Lemma ids_are_stable_per_browser_witness :
  let ls1 := snd (getOrCreateStageId "stage_a" ∅) in
  let ls2 := snd (getOrCreateDeviceId "sx_device" ls1) in
  getOrCreateStageId "stage_zz" ls1 = ("stage_a", ls1) /\
  getOrCreateStageId "stage_zz" ls2 = ("stage_a", ls2) /\
  getOrCreateDeviceId "sx_other" ls2 = ("sx_device", ls2).
Proof.
  intros ls1 ls2.
  destruct (ids_are_stable_per_browser "stage_a" "stage_zz" "sx_device" ∅
              ltac:(discriminate)) as (_ & H2 & _ & _ & _ & H6).
  destruct (H6 ltac:(discriminate)) as (Hs & Hd & _).
  split; [exact H2|]. split; [exact Hs | exact Hd].
Defined.

Lemma autorun_button_toggles_witness :
  let s1 := exec (Stage.toggleAutoRun 9000) started_state in
  started_state.(loc).(Stage.director).(DirectorView.autoRun) = true /\
  s1.(db).(Store.director).(Director.autoRun) = Some false /\
  s1.(db).(Store.session) = started_state.(db).(Store.session).
Proof.
  intros s1.
  destruct (autorun_button_toggles started_state 9000 9100) as (H1 & _ & _ & H4 & _).
  split; [reflexivity|]. split; [exact H1 | exact (H4 eq_refl)].
Defined.
